(** * synkvaksms: a shallow embedding of [synkvaksms/client.py]

    The client is modelled as Python executes it: dynamically typed values,
    exceptions as results, and a world that holds what the module and its
    objects mutate (the client objects, the three module-level caches), the
    clock, and the trace of the external interactions (HTTP requests with
    their outcomes, sleeps, log records). *)

From Stdlib Require Import ZArith QArith String List Lia Lqa Floats Bool.
From stdpp Require Import base list.
Import ListNotations.
Open Scope string_scope.
Set Warnings "-register-all".

(** ** Python values *)

(** One universe of run-time values, as Python has it. A parsed JSON body uses
    [VNone], [VBool], [VInt], [VFloat], [VStr], [VList] and [VDict]; a dict
    is an association list in insertion order with unique keys. *)
Inductive val : Type :=
| VNone
| VBool (b : bool)
| VInt (z : Z)
| VFloat (f : float)
| VStr (s : string)
| VList (l : list val)
| VTuple (l : list val)
| VDict (d : list (string * val))
| VRef (id : nat)
| VModel (cls : string) (fields : list (string * val)).

(** Modelled from the spec: the module [exceptions] (the class
    [VakSmsBadRequest]) is not part of the sources. Following section 7 of
    the specification, the provider error is a class of its own: it is
    neither a [ValueError] nor one of the exceptions of [requests], so
    neither [except] clause of the client catches it. *)
Inductive exn : Type :=
| ValueError (msg : string)
| TypeError (msg : string)
| KeyError (key : string)
| IndexError (msg : string)
| AttributeError (msg : string)
| VakSmsBadRequest (payload : val)
| ValidationError (cls : string).

(** The result of running Python code. [Stuck] is not a Python outcome: the
    model returns it when the fuel of a loop is used up or when a reference
    does not denote a client object. *)
Inductive res (A : Type) : Type :=
| Ok (a : A)
| Raise (e : exn)
| Stuck.
Arguments Ok {A} a.
Arguments Raise {A} e.
Arguments Stuck {A}.

Definition dict := list (string * val).

(** [bool(v)] *)
Definition truthy (v : val) : bool :=
  match v with
  | VNone => false
  | VBool b => b
  | VInt z => negb (z =? 0)%Z
  | VFloat f => negb (PrimFloat.eqb f 0%float)
  | VStr s => match s with EmptyString => false | _ => true end
  | VList l | VTuple l => match l with [] => false | _ => true end
  | VDict d => match d with [] => false | _ => true end
  | VRef _ => true
  | VModel _ _ => true
  end.

(** [d.get(k)] on the association list of a dict; [None] when absent. *)
Fixpoint dict_get (d : dict) (k : string) : option val :=
  match d with
  | [] => None
  | (k', v) :: d' => if String.eqb k' k then Some v else dict_get d' k
  end.

(** [d[k] = v]: the value of an existing key is replaced in place, a new key
    is appended. *)
Fixpoint dict_set (d : dict) (k : string) (v : val) : dict :=
  match d with
  | [] => [(k, v)]
  | (k', v') :: d' =>
      if String.eqb k' k then (k', v) :: d' else (k', v') :: dict_set d' k v
  end.

Definition isinstance_dict (v : val) : bool :=
  match v with VDict _ => true | _ => false end.

Definition isinstance_list (v : val) : bool :=
  match v with VList _ => true | _ => false end.

(** [v.get(k)] for a value known to be a dict, [None] included. *)
Definition val_get (v : val) (k : string) : val :=
  match v with
  | VDict d => match dict_get d k with Some x => x | None => VNone end
  | _ => VNone
  end.

(** [v[k]] with a string subscript. *)
Definition getitem (v : val) (k : string) : res val :=
  match v with
  | VDict d =>
      match dict_get d k with
      | Some x => Ok x
      | None => Raise (KeyError k)
      end
  | VList _ => Raise (TypeError "list indices must be integers or slices, not str")
  | VTuple _ => Raise (TypeError "tuple indices must be integers or slices, not str")
  | VStr _ => Raise (TypeError "string indices must be integers, not 'str'")
  | _ => Raise (TypeError "object is not subscriptable")
  end.

(** [v[k] = x] with a string subscript. *)
Definition setitem (v : val) (k : string) (x : val) : res val :=
  match v with
  | VDict d => Ok (VDict (dict_set d k x))
  | VList _ => Raise (TypeError "list indices must be integers or slices, not str")
  | _ => Raise (TypeError "object does not support item assignment")
  end.

(** [v[i]] with a non-negative integer subscript. *)
Definition getindex (v : val) (i : nat) : res val :=
  match v with
  | VList l | VTuple l =>
      match l !! i with
      | Some x => Ok x
      | None => Raise (IndexError "index out of range")
      end
  | VStr s =>
      match String.get i s with
      | Some c => Ok (VStr (String c EmptyString))
      | None => Raise (IndexError "string index out of range")
      end
  | VDict _ => Raise (KeyError "<int>")
  | _ => Raise (TypeError "object is not subscriptable")
  end.

(** [a + b] as the client uses it: string concatenation. Any other pair of
    operands that occurs here (a [None], a number or a list on one side, a
    string on the other) raises [TypeError]. *)
Definition add (a b : val) : res val :=
  match a, b with
  | VStr x, VStr y => Ok (VStr (x ++ y))
  | _, _ => Raise (TypeError "unsupported operand type(s) for +")
  end.

(** [v.name] *)
Definition getattr (v : val) (name : string) : res val :=
  match v with
  | VModel _ fields =>
      match dict_get fields name with
      | Some x => Ok x
      | None => Raise (AttributeError name)
      end
  | _ => Raise (AttributeError name)
  end.

(** ** The outside world *)

(** The keyword arguments [requests.get] receives, and the request they make
    with the address. The URL requested is [rq_base ++ rq_uri]. *)
Record request : Type := {
  rq_base : string;
  rq_uri : string;
  rq_headers : list (string * string);
  rq_params : dict;
  rq_timeout : Z
}.

Definition rq_url (rq : request) : string := rq_base rq ++ rq_uri rq.

(** What [requests.get(...)] followed by [r.json()] gives: an exception of
    [requests.exceptions] (no connection, DNS failure, timeout, a body that
    is not JSON), or the parsed body. *)
Inductive http_outcome : Type :=
| NetFail
| Body (response : val).

Inductive event : Type :=
| EvGet (rq : request) (o : http_outcome)
| EvSleep (secs : Z)
| EvWarning (msg : string).

(** The environment answers the request that is the [i]-th interaction of
    the run, and says how long it takes and by how much a sleep overshoots.
    Clock values are seconds, as exact rationals. *)
Record env : Type := {
  env_net : nat -> request -> http_outcome;
  env_latency : nat -> Q;
  env_oversleep : nat -> Q
}.

(** The clocks of the process only move forward. *)
Definition clock_monotone (E : env) : Prop :=
  forall i, (0 <= env_latency E i)%Q /\ (0 <= env_oversleep E i)%Q.

(** ** Client objects and caches *)

Record Vaksms : Type := {
  _api_key : string;
  _base_url : option string;
  _timeout : Z
}.

(** Hashable values a caller passes as arguments to the cached operations. *)
Inductive hval : Type :=
| HNone
| HBool (b : bool)
| HInt (z : Z)
| HStr (s : string).

Definition hval_to_val (h : hval) : val :=
  match h with
  | HNone => VNone
  | HBool b => VBool b
  | HInt z => VInt z
  | HStr s => VStr s
  end.

(** [cachetools.keys.hashkey(self, *args, **kwargs)]: the receiver, the
    positional arguments and the keyword arguments sorted by name. [Vaksms]
    defines neither [__eq__] nor [__hash__], so a receiver is equal to
    itself only: it is represented by its reference. *)
Record hashkey : Type := {
  hk_self : nat;
  hk_args : list hval;
  hk_kwargs : list (string * hval)
}.

(** [cachetools.TTLCache]: the items with their expiry times, least
    recently used first. *)
Record TTLCache : Type := {
  maxsize : nat;
  ttl : Q;
  items : list (hashkey * val * Q)
}.

(** The state of the process. [w_heap] holds the client objects, a
    reference being an index; [w_now] is the one clock behind [time.time]
    and behind [time.monotonic], the timer of the caches. *)
Record world : Type := {
  w_heap : list Vaksms;
  w_trace : list event;
  w_now : Q;
  cache_all_data : TTLCache;
  cache : TTLCache;
  cache_countries : TTLCache
}.

Definition with_heap (h : list Vaksms) (w : world) : world :=
  {| w_heap := h; w_trace := w_trace w; w_now := w_now w;
     cache_all_data := cache_all_data w; cache := cache w;
     cache_countries := cache_countries w |}.

(** One interaction: the event is appended and the clock advances. *)
Definition with_event (e : event) (dt : Q) (w : world) : world :=
  {| w_heap := w_heap w; w_trace := w_trace w ++ [e]; w_now := (w_now w + dt)%Q;
     cache_all_data := cache_all_data w; cache := cache w;
     cache_countries := cache_countries w |}.

(** ** Computations *)

Definition M (A : Type) : Type := world -> res A * world.

Definition ret {A} (a : A) : M A := fun w => (Ok a, w).
Definition raise {A} (e : exn) : M A := fun w => (Raise e, w).
Definition stuck {A} : M A := fun w => (Stuck, w).
Definition lift {A} (r : res A) : M A := fun w => (r, w).

Definition bind {A B} (m : M A) (k : A -> M B) : M B := fun w =>
  match m w with
  | (Ok a, w') => k a w'
  | (Raise e, w') => (Raise e, w')
  | (Stuck, w') => (Stuck, w')
  end.

Notation "'do' x <- c1 ; c2" := (bind c1 (fun x => c2))
  (at level 10, x name, c1 at level 100, c2 at level 200).
Notation "'do_' c1 ; c2" := (bind c1 (fun _ => c2))
  (at level 10, c1 at level 100, c2 at level 200).

(** The events a computation adds to the trace of [w]. *)
Definition new_events (w w' : world) : list event :=
  drop (length (w_trace w)) (w_trace w').

Definition get_self (self : nat) : M Vaksms := fun w =>
  match w_heap w !! self with
  | Some s => (Ok s, w)
  | None => (Stuck, w)
  end.

(** The object [s] after [s._base_url = base_url]. *)
Definition pin (s : Vaksms) (base_url : string) : Vaksms :=
  {| _api_key := _api_key s; _base_url := Some base_url; _timeout := _timeout s |}.

(** [self._base_url = base_url] *)
Definition set_base_url (self : nat) (base_url : string) : M unit := fun w =>
  match w_heap w !! self with
  | Some s => (Ok tt, with_heap (<[self := pin s base_url]> (w_heap w)) w)
  | None => (Stuck, w)
  end.

(** [Vaksms(api_key, base_url, timeout)]: a new object. *)
Definition Vaksms_init (api_key : string) (base_url : option string)
    (timeout : Z) : M nat := fun w =>
  (Ok (length (w_heap w)),
   with_heap (w_heap w ++ [{| _api_key := api_key; _base_url := base_url;
                              _timeout := timeout |}]) w).

Definition logging_warning (msg : string) : M unit := fun w =>
  (Ok tt, with_event (EvWarning msg) 0 w).

(** ** cachetools *)

Definition Qltb (a b : Q) : bool := negb (Qle_bool b a).

(** Python's [==] on the argument values: [True == 1] and [False == 0]. *)
Definition hval_eqb (a b : hval) : bool :=
  match a, b with
  | HNone, HNone => true
  | HBool x, HBool y => Bool.eqb x y
  | HInt x, HInt y => (x =? y)%Z
  | HBool x, HInt y | HInt y, HBool x => (y =? (if x then 1 else 0))%Z
  | HStr x, HStr y => String.eqb x y
  | _, _ => false
  end.

Fixpoint list_eqb {A} (eqb : A -> A -> bool) (l1 l2 : list A) : bool :=
  match l1, l2 with
  | [], [] => true
  | x :: l1', y :: l2' => eqb x y && list_eqb eqb l1' l2'
  | _, _ => false
  end.

Definition kwarg_eqb (a b : string * hval) : bool :=
  String.eqb (fst a) (fst b) && hval_eqb (snd a) (snd b).

(** Equality of two keys, as the cache's dictionary compares them. *)
Definition hashkey_eqb (k1 k2 : hashkey) : bool :=
  Nat.eqb (hk_self k1) (hk_self k2)
  && list_eqb hval_eqb (hk_args k1) (hk_args k2)
  && list_eqb kwarg_eqb (hk_kwargs k1) (hk_kwargs k2).

Fixpoint insert_kwarg (kv : string * hval) (l : list (string * hval))
    : list (string * hval) :=
  match l with
  | [] => [kv]
  | kv' :: l' =>
      if String.leb (fst kv) (fst kv') then kv :: l else kv' :: insert_kwarg kv l'
  end.

(** [sorted(kwargs.items())] *)
Definition sorted_kwargs (kwargs : list (string * hval)) : list (string * hval) :=
  fold_right insert_kwarg [] kwargs.

(** The key the wrapper of [cached] computes for a call of a method
    with positional and keyword arguments: the receiver is the first
    positional argument. *)
Definition make_key (self : nat) (args : list hval)
    (kwargs : list (string * hval)) : hashkey :=
  {| hk_self := self; hk_args := args; hk_kwargs := sorted_kwargs kwargs |}.

(** The item stored under a key equal to [k]. *)
Fixpoint find_item (k : hashkey) (its : list (hashkey * val * Q))
    : option (hashkey * val * Q) :=
  match its with
  | [] => None
  | it :: its' =>
      if hashkey_eqb (fst (fst it)) k then Some it else find_item k its'
  end.

Definition remove_item (k : hashkey) (its : list (hashkey * val * Q))
    : list (hashkey * val * Q) :=
  List.filter (fun it => negb (hashkey_eqb (fst (fst it)) k)) its.

Definition with_items (its : list (hashkey * val * Q)) (c : TTLCache) : TTLCache :=
  {| maxsize := maxsize c; ttl := ttl c; items := its |}.

(** [TTLCache(maxsize=100, ttl=3600)] *)
Definition new_TTLCache : TTLCache :=
  {| maxsize := 100; ttl := 3600; items := [] |}.

(** [c[k]] at time [now]: [None] stands for [KeyError]. A key that is found
    becomes the most recently used one, expired or not; it is a hit only
    when [now < expires]. *)
Definition TTLCache_getitem (c : TTLCache) (k : hashkey) (now : Q)
    : option val * TTLCache :=
  match find_item k (items c) with
  | None => (None, c)
  | Some it =>
      let c' := with_items (remove_item k (items c) ++ [it]) c in
      if Qltb now (snd it) then (Some (snd (fst it)), c') else (None, c')
  end.

(** [c.expire(now)]: the items with [now < expires] stay. *)
Definition expire (now : Q) (its : list (hashkey * val * Q))
    : list (hashkey * val * Q) :=
  List.filter (fun it => Qltb now (snd it)) its.

(** [c[k] = v] at time [now]; every item has size 1. Expired items are
    removed first; a new key evicts the least recently used items while the
    cache is full, a key that is there keeps its stored key object; the
    item becomes the most recently used one and expires at [now + ttl].
    The boolean is [false] when [ValueError] is raised (value too large). *)
Definition TTLCache_setitem (c : TTLCache) (k : hashkey) (v : val) (now : Q)
    : bool * TTLCache :=
  let its := expire now (items c) in
  if (maxsize c <? 1)%nat then (false, with_items its c)
  else
    match find_item k its with
    | Some it =>
        (true,
         with_items (remove_item k its ++ [(fst (fst it), v, (now + ttl c)%Q)]) c)
    | None =>
        (true,
         with_items (drop (length its + 1 - maxsize c) its
                     ++ [(k, v, (now + ttl c)%Q)]) c)
    end.

(** The three module-level caches. *)
Inductive cache_name : Type :=
| Cache_all_data
| Cache
| Cache_countries.

Definition get_cache (n : cache_name) (w : world) : TTLCache :=
  match n with
  | Cache_all_data => cache_all_data w
  | Cache => cache w
  | Cache_countries => cache_countries w
  end.

Definition set_cache (n : cache_name) (c : TTLCache) (w : world) : world :=
  {| w_heap := w_heap w; w_trace := w_trace w; w_now := w_now w;
     cache_all_data :=
       match n with Cache_all_data => c | _ => cache_all_data w end;
     cache := match n with Cache => c | _ => cache w end;
     cache_countries :=
       match n with Cache_countries => c | _ => cache_countries w end |}.

(** The wrapper that [@cached(c)] puts around a method: look the key up;
    on [KeyError] call the method and, when it returns, store the value (a
    [ValueError] of the store is ignored). An exception of the method leaves
    the wrapper before the store. *)
Definition cached (n : cache_name)
    (func : nat -> list hval -> list (string * hval) -> M val)
    (self : nat) (args : list hval) (kwargs : list (string * hval)) : M val :=
  fun w =>
    let k := make_key self args kwargs in
    match TTLCache_getitem (get_cache n w) k (w_now w) with
    | (Some v, c) => (Ok v, set_cache n c w)
    | (None, c) =>
        match func self args kwargs (set_cache n c w) with
        | (Ok v, w1) =>
            (Ok v,
             set_cache n (snd (TTLCache_setitem (get_cache n w1) k v (w_now w1))) w1)
        | (r, w1) => (r, w1)
        end
    end.

Fixpoint kwargs_get (kwargs : list (string * hval)) (name : string) : option hval :=
  match kwargs with
  | [] => None
  | (n, v) :: kwargs' => if String.eqb n name then Some v else kwargs_get kwargs' name
  end.

Definition has_param (names : list (string * option hval)) (name : string) : bool :=
  existsb (fun p => String.eqb (fst p) name) names.

(** Binding of the arguments of a call to the parameters after [self], each
    with its default if it has one: positional arguments first, then by
    name. *)
Fixpoint bind_rest (names : list (string * option hval))
    (args : list hval) (kwargs : list (string * hval)) : res (list val) :=
  match names, args with
  | [], [] => Ok []
  | [], _ :: _ => Raise (TypeError "too many positional arguments")
  | (n, _) :: names', a :: args' =>
      match kwargs_get kwargs n with
      | Some _ => Raise (TypeError "got multiple values for argument")
      | None =>
          match bind_rest names' args' kwargs with
          | Ok vs => Ok (hval_to_val a :: vs)
          | other => other
          end
      end
  | (n, default) :: names', [] =>
      match kwargs_get kwargs n, default with
      | Some v, _ | None, Some v =>
          match bind_rest names' [] kwargs with
          | Ok vs => Ok (hval_to_val v :: vs)
          | other => other
          end
      | None, None => Raise (TypeError "missing required positional argument")
      end
  end.

Definition bind_args (names : list (string * option hval))
    (args : list hval) (kwargs : list (string * hval)) : res (list val) :=
  if forallb (fun kv => has_param names (fst kv)) kwargs
  then bind_rest names args kwargs
  else Raise (TypeError "got an unexpected keyword argument").

Section Client.

Variable E : env.

(** Modelled from the spec: the module [models] (the classes [CountNumber],
    [CountryList], [Number], [MultipleResponse], [Service]) is not part of
    the sources; the specification calls them simple data containers. An
    instance is [VModel cls fields]; what a constructor accepts, and the
    fields of the instance it builds from its positional and keyword
    arguments, is this parameter. *)
Variable model_init :
  string -> list val -> list (string * val) -> exn + list (string * val).

Definition new_model (cls : string) (args : list val) (kwargs : dict) : M val :=
  match model_init cls args kwargs with
  | inl e => raise e
  | inr fields => ret (VModel cls fields)
  end.

(** [requests.get(base_url + uri, **kwargs)] and [r.json()]. *)
Definition requests_get (rq : request) : M http_outcome := fun w =>
  let i := length (w_trace w) in
  let o := env_net E i rq in
  (Ok o, with_event (EvGet rq o) (env_latency E i) w).

(** [not isinstance(response, dict) or not response.get('error')] *)
Definition is_success_payload (response : val) : bool :=
  negb (isinstance_dict response) || negb (truthy (val_get response "error")).

(** [_send_request(base_url, uri, **kwargs)]. The address is optional because
    the caller passes [self._base_url], which may be [None]; [None + uri]
    raises [TypeError], which the [except] clause does not catch. *)
Definition _send_request (base_url : option string) (uri : string)
    (headers : list (string * string)) (params : dict) (timeout : Z) : M val :=
  match base_url with
  | None =>
      raise (TypeError "unsupported operand type(s) for +: 'NoneType' and 'str'")
  | Some b =>
      do o <- requests_get {| rq_base := b; rq_uri := uri; rq_headers := headers;
                              rq_params := params; rq_timeout := timeout |};
      match o with
      | NetFail => raise (ValueError "Invalid Base URL")
      | Body response =>
          if is_success_payload response
          then ret response
          else do e <- lift (getitem response "error"); raise (VakSmsBadRequest e)
      end
  end.

Definition base_urls : list string :=
  ["https://vak-sms.com"; "https://moresms.net"; "https://vaksms.ru"].

Definition warning_text (base_url : string) : string :=
  "Failed to connect to " ++ base_url ++ ". Specify explicitly working base url".

(** The [for] loop of [__create_request] over the candidates left, followed
    by the statement after the loop. *)
Fixpoint discover (self : nat) (uri : string) (headers : list (string * string))
    (params : dict) (timeout : Z) (candidates : list string) : M val :=
  match candidates with
  | [] =>
      do s <- get_self self;
      _send_request (_base_url s) uri headers params timeout
  | base_url :: rest => fun w =>
      match _send_request (Some base_url) uri headers params timeout w with
      | (Ok r, w1) => (do_ set_base_url self base_url; ret r) w1
      | (Raise (ValueError _), w1) =>
          (do_ logging_warning (warning_text base_url);
           discover self uri headers params timeout rest) w1
      | (other, w1) => (other, w1)
      end
  end.

Definition is_not_None (kv : string * val) : bool :=
  match snd kv with VNone => false | _ => true end.

Definition request_headers : list (string * string) :=
  [("Accept", "application/json");
   ("Content-Type", "application/x-www-form-urlencoded")].

(** The query parameters [__create_request] sends for [params]: the key is
    added when the session has one, and [None] values are left out. *)
Definition sent_params (api_key : string) (params : option dict) : dict :=
  let params := match params with Some p => p | None => [] end in
  let params :=
    if truthy (VStr api_key) then dict_set params "apiKey" (VStr api_key)
    else params in
  List.filter is_not_None params.

(** [Vaksms.__create_request(self, uri, params, api_key_required)]. The
    update [params['apiKey'] = ...] of the caller's dict sets the same value
    at every call of a session. *)
Definition __create_request (self : nat) (uri : string) (params : option dict)
    (api_key_required : bool) : M val :=
  do s <- get_self self;
  if api_key_required && negb (truthy (VStr (_api_key s)))
  then raise (ValueError "API key is required for this method")
  else
    let headers := request_headers in
    let params := sent_params (_api_key s) params in
    match _base_url s with
    | None => discover self uri headers params (_timeout s) base_urls
    | Some _ => _send_request (_base_url s) uri headers params (_timeout s)
    end.

(** [Vaksms.get_balance(self)] *)
Definition get_balance (self : nat) : M val :=
  do response <- __create_request self "/api/getBalance" None true;
  lift (getitem response "balance").

(** [number if not type(number) is Number else number.idNum] *)
Definition number_id_of (number : val) : res val :=
  match number with
  | VModel "Number" _ => getattr number "idNum"
  | _ => Ok number
  end.

(** [list(response.keys())[0]] *)
Definition first_key (response : val) : res string :=
  match response with
  | VDict [] => Raise (IndexError "list index out of range")
  | VDict ((k, _) :: _) => Ok k
  | _ => Raise (AttributeError "keys")
  end.

(** A keyword-argument unpacking: the value after the two stars must be a
    mapping. *)
Definition mapping_of (v : val) : res dict :=
  match v with
  | VDict d => Ok d
  | _ => Raise (TypeError "argument after ** must be a mapping")
  end.

(** The statements of [Vaksms.get_count_number]. *)
Definition get_count_number_body (self : nat) (service operator country : val)
    : M val :=
  let params :=
    [("service", service); ("operator", operator); ("country", country);
     ("price", VInt 1)] in
  do response <- __create_request self "/api/getCountNumber" (Some params) true;
  do k <- lift (first_key response);
  do response <- lift (setitem response "service" (VStr k));
  do k <- lift (first_key response);
  do count <- lift (getitem response k);
  do response <- lift (setitem response "count" count);
  do kwargs <- lift (mapping_of response);
  new_model "CountNumber" [] kwargs.

(** [Vaksms.get_count_number] before the decoration: the arguments of the
    call are bound to the parameters and the body runs. *)
Definition get_count_number_wrapped (self : nat) (args : list hval)
    (kwargs : list (string * hval)) : M val :=
  match bind_args [("service", None); ("operator", Some HNone);
                   ("country", Some (HStr "ru"))] args kwargs with
  | Ok [service; operator; country] =>
      get_count_number_body self service operator country
  | Raise e => raise e
  | _ => stuck
  end.

(** [Vaksms.get_count_number], decorated with [@cached(cache)]. *)
Definition get_count_number : nat -> list hval -> list (string * hval) -> M val :=
  cached Cache get_count_number_wrapped.

Definition get_country_list_body (self : nat) : M val :=
  do response <- __create_request self "/api/getCountryList" None false;
  do m <- new_model "CountryList" [response] [];
  lift (getattr m "root").

Definition get_country_list_wrapped (self : nat) (args : list hval)
    (kwargs : list (string * hval)) : M val :=
  match bind_args [] args kwargs with
  | Ok [] => get_country_list_body self
  | Raise e => raise e
  | _ => stuck
  end.

(** [Vaksms.get_country_list], decorated with [@cached(cache_countries)]. *)
Definition get_country_list : nat -> list hval -> list (string * hval) -> M val :=
  cached Cache_countries get_country_list_wrapped.

(** [Vaksms.get_number] *)
Definition get_number (self : nat) (service operator rent country soft_id : val)
    : M val :=
  do service <-
    (if isinstance_list service
     then
       do a <- lift (getindex service 0);
       do b <- lift (add a (VStr ","));
       do c <- lift (getindex service 1);
       lift (add b c)
     else ret service);
  let params :=
    [("service", service); ("operator", operator);
     ("rent", VStr (if truthy rent then "true" else "false"));
     ("country", country); ("softId", soft_id)] in
  do response <- __create_request self "/api/getNumber/" (Some params) true;
  if isinstance_list response
  then
    do m <- new_model "MultipleResponse" [response] [];
    lift (getattr m "root")
  else
    do response <- lift (setitem response "service" service);
    do kwargs <- lift (mapping_of response);
    match dict_get kwargs "rent" with
    | Some _ => raise (TypeError "got multiple values for keyword argument 'rent'")
    | None => new_model "Number" [VRef self] (kwargs ++ [("rent", rent)])%list
    end.

(** [Vaksms.prolong_number] *)
Definition prolong_number (self : nat) (service tel rent soft_id : val) : M val :=
  let params := [("service", service); ("tel", tel); ("softId", soft_id)] in
  do response <- __create_request self "/api/prolongNumber" (Some params) true;
  do response <- lift (setitem response "service" service);
  do kwargs <- lift (mapping_of response);
  match dict_get kwargs "rent" with
  | Some _ => raise (TypeError "got multiple values for keyword argument 'rent'")
  | None => new_model "Number" [] (kwargs ++ [("rent", rent)])%list
  end.

(** [Vaksms.set_status] *)
Definition set_status (self : nat) (number : val) (status : string) : M val :=
  do number_id <- lift (number_id_of number);
  let params := [("idNum", number_id); ("status", VStr status)] in
  do response <- __create_request self "/api/setStatus" (Some params) true;
  lift (getitem response "status").

(** [str(x)] for [x] a boolean or [None]. *)
Definition str_of (x : option bool) : string :=
  match x with
  | None => "None"
  | Some true => "True"
  | Some false => "False"
  end.

Definition require_api_key (self : nat) : M unit :=
  do s <- get_self self;
  if negb (truthy (VStr (_api_key s)))
  then raise (ValueError "API key is required for this method")
  else ret tt.

(** [Vaksms.get_sms_code] *)
Definition get_sms_code (self : nat) (number : val) (get_all_numbers : option bool)
    : M val :=
  do number_id <- lift (number_id_of number);
  do_ require_api_key self;
  let params := [("idNum", number_id); ("all", VStr (str_of get_all_numbers))] in
  __create_request self "/api/getSmsCode/" (Some params) true.

(** [time.time()] *)
Definition time_time : M Q := fun w => (Ok (w_now w), w).

(** [time.sleep(secs)]: at least [secs] seconds pass. *)
Definition time_sleep (secs : Z) : M unit := fun w =>
  if (secs <? 0)%Z
  then (Raise (ValueError "sleep length must be non-negative"), w)
  else
    (Ok tt,
     with_event (EvSleep secs)
       (inject_Z secs + env_oversleep E (length (w_trace w)))%Q w).

(** [sms[-1]] *)
Definition last_item (l : list val) : res val :=
  match last l with
  | Some x => Ok x
  | None => Raise (IndexError "list index out of range")
  end.

(** The [while] loop of [wait_sms_code] and the [return None] after it. The
    fuel bounds the number of times the condition is evaluated. *)
Fixpoint wait_loop (fuel : nat) (self : nat) (params : dict) (start_time : Q)
    (timeout per_attempt : Z) : M val :=
  match fuel with
  | O => stuck
  | S fuel' =>
      do now <- time_time;
      if Qltb (now - start_time) (inject_Z timeout)
      then
        do_ time_sleep per_attempt;
        do response <- __create_request self "/api/getSmsCode/" (Some params) true;
        do sms <- lift (getitem response "smsCode");
        match sms with
        | VList l => lift (last_item l)
        | _ => wait_loop fuel' self params start_time timeout per_attempt
        end
      else ret VNone
  end.

(** [Vaksms.wait_sms_code] *)
Definition wait_sms_code (fuel : nat) (self : nat) (number : val)
    (timeout per_attempt : Z) : M val :=
  do number_id <- lift (number_id_of number);
  do_ require_api_key self;
  do_ set_status self number_id "send";
  let params := [("idNum", number_id); ("all", VStr (str_of None))] in
  do start_time <- time_time;
  wait_loop fuel self params start_time timeout per_attempt.

(** [self._base_url] as a value. *)
Definition base_url_val (s : Vaksms) : val :=
  match _base_url s with
  | Some b => VStr b
  | None => VNone
  end.

(** [s.icon = x] *)
Definition set_icon (s : val) (x : val) : res val :=
  match s with
  | VModel cls fields => Ok (VModel cls (dict_set fields "icon" x))
  | _ => Raise (AttributeError "icon")
  end.

(** The [for] loop of [get_count_number_list] over the entries of the
    response left, with [ret_d] built so far. *)
Fixpoint build_services (self : nat) (entries : dict) (ret_d : dict) : M val :=
  match entries with
  | [] => ret (VDict ret_d)
  | (service, v) :: entries' =>
      do first <- lift (getindex v 0);
      do kwargs <- lift (mapping_of first);
      do s <- new_model "Service" [] kwargs;
      do me <- get_self self;
      do icon <- lift (getattr s "icon");
      do icon <- lift (add (base_url_val me) icon);
      do s <- lift (set_icon s icon);
      build_services self entries' (dict_set ret_d service s)
  end.

(** [params['rent'] = 'True' if rent else 'False',] -- the trailing comma
    makes the value a tuple of one string. *)
Definition rent_param (rent : val) : val :=
  VTuple [VStr (if truthy rent then "True" else "False")].

(** The statements of [Vaksms.get_count_number_list]. *)
Definition get_count_number_list_body (self : nat) (country operator rent : val)
    : M val :=
  let params := [("country", country)] in
  let params :=
    if truthy operator then dict_set params "operator" operator else params in
  let params := dict_set params "rent" (rent_param rent) in
  do response <-
    __create_request self "/api/getCountNumbersList" (Some params) false;
  match response with
  | VDict entries => build_services self entries []
  | _ => raise (AttributeError "keys")
  end.

Definition get_count_number_list_wrapped (self : nat) (args : list hval)
    (kwargs : list (string * hval)) : M val :=
  match bind_args [("country", Some (HStr "RU")); ("operator", Some HNone);
                   ("rent", Some (HBool false))] args kwargs with
  | Ok [country; operator; rent] =>
      get_count_number_list_body self country operator rent
  | Raise e => raise e
  | _ => stuck
  end.

(** [Vaksms.get_count_number_list], decorated with [@cached(cache_all_data)]. *)
Definition get_count_number_list
    : nat -> list hval -> list (string * hval) -> M val :=
  cached Cache_all_data get_count_number_list_wrapped.

End Client.
(** ** Statements *)

(** The request [__create_request] makes to the address [b] for a session. *)
Definition request_of (s : Vaksms) (b uri : string) (params : option dict)
    : request :=
  {| rq_base := b; rq_uri := uri; rq_headers := request_headers;
     rq_params := sent_params (_api_key s) params; rq_timeout := _timeout s |}.

(** The answer of the environment to the trial request of discovery on the
    [j]-th candidate [m], when the candidates before it failed: each failed
    trial leaves two events, the request and the warning. *)
Definition trial (E : env) (w : world) (s : Vaksms) (uri : string)
    (params : option dict) (j : nat) (m : string) : http_outcome :=
  env_net E (length (w_trace w) + 2 * j) (request_of s m uri params).

(** The events of failed trials on the candidates [ms], in their order. *)
Fixpoint failed_trials (s : Vaksms) (uri : string) (params : option dict)
    (ms : list string) : list event :=
  match ms with
  | [] => []
  | m :: ms' =>
      EvGet (request_of s m uri params) NetFail
      :: EvWarning (warning_text m) :: failed_trials s uri params ms'
  end.

(** The guard of [__create_request] lets the call through. *)
Definition key_ok (s : Vaksms) (api_key_required : bool) : bool :=
  negb (api_key_required && negb (truthy (VStr (_api_key s)))).

Definition is_get_to (b uri : string) (e : event) : Prop :=
  match e with
  | EvGet rq _ => rq_base rq = b /\ rq_uri rq = uri
  | _ => False
  end.

(** C1 as the specification states it, for one call: the first candidate
    whose trial does not fail at the network level is the address of the
    session afterwards. *)
Definition pins_first_reachable (E : env) (w : world) (self : nat)
    (uri : string) (params : option dict) (api_key_required : bool) : Prop :=
  forall s k b o,
    w_heap w !! self = Some s ->
    base_urls !! k = Some b ->
    (forall j m, j < k -> base_urls !! j = Some m ->
                 trial E w s uri params j m = NetFail) ->
    trial E w s uri params k b = Body o ->
    w_heap (snd (__create_request E self uri params api_key_required w)) !! self
    = Some (pin s b).

Definition empty_world : world :=
  {| w_heap := []; w_trace := []; w_now := 0%Q;
     cache_all_data := new_TTLCache; cache := new_TTLCache;
     cache_countries := new_TTLCache |}.

(** A world with one session that has a key and no explicit address. *)
Definition one_session : world :=
  snd (Vaksms_init "key" None 10 empty_world).

(** A provider that rejects the key on every mirror. *)
Definition E_bad_key : env :=
  {| env_net := fun _ _ => Body (VDict [("error", VStr "apiKeyNotFound")]);
     env_latency := fun _ => 0%Q; env_oversleep := fun _ => 0%Q |}.

(** No mirror can be reached. *)
Definition E_down : env :=
  {| env_net := fun _ _ => NetFail;
     env_latency := fun _ => 0%Q; env_oversleep := fun _ => 0%Q |}.

(** The first two interactions fail, the network answers from then on. *)
Definition E_second_mirror : env :=
  {| env_net := fun i _ =>
       if (i <? 2)%nat then NetFail else Body (VDict [("balance", VInt 3)]);
     env_latency := fun _ => 0%Q; env_oversleep := fun _ => 0%Q |}.

(** *** What computations keep *)

(** A computation that leaves the world as it is. *)
Definition pure {A} (m : M A) : Prop := forall w, snd (m w) = w.

(** What every operation of the client [self] keeps: the trace only grows,
    the caches are not touched, the other objects stay, the object itself
    keeps its key and timeout and an address it has, and no clock runs
    backwards. *)
Record frame (E : env) (self : nat) (w w' : world) : Prop := {
  fr_trace : exists evs, w_trace w' = (w_trace w ++ evs)%list;
  fr_caches : forall n, get_cache n w' = get_cache n w;
  fr_others : forall i, i <> self -> w_heap w' !! i = w_heap w !! i;
  fr_self : forall s, w_heap w !! self = Some s ->
            w_heap w' !! self = Some s
            \/ (_base_url s = None /\ exists b, w_heap w' !! self = Some (pin s b));
  fr_clock : clock_monotone E -> (w_now w <= w_now w')%Q
}.

Definition framed (E : env) (self : nat) {A} (m : M A) : Prop :=
  forall w, frame E self w (snd (m w)).

(** Every event a computation adds satisfies [P]. *)
Definition emits (P : event -> Prop) {A} (m : M A) : Prop :=
  forall w, exists evs,
    w_trace (snd (m w)) = (w_trace w ++ evs)%list /\ Forall P evs.

(** Between [w] and [w'] a request went out. *)
Definition sends (w w' : world) : Prop :=
  exists rq o, In (EvGet rq o) (new_events w w').

(** *** Query parameters *)

(** A request of [get_number] that carries the combined service value. *)
Definition combined_service_request (e : event) : Prop :=
  match e with
  | EvGet rq _ =>
      rq_uri rq = "/api/getNumber/"
      /\ dict_get (rq_params rq) "service" = Some (VStr "viber,whatsapp")
  | EvSleep _ => False
  | EvWarning _ => True
  end.



(** A model constructor that accepts everything: the instance keeps the
    keyword arguments, or its one positional argument as [root]. *)
Definition accept_all (cls : string) (args : list val) (kwargs : dict)
    : exn + dict :=
  inr (match args with [x] => [("root", x)] | _ => kwargs end).

(** Every mirror answers every request with the same body. *)
Definition E_const (body : val) : env :=
  {| env_net := fun _ _ => Body body;
     env_latency := fun _ => 0%Q; env_oversleep := fun _ => 0%Q |}.

(** *** Waiting for a code *)

(** The result [_send_request] makes of the outcome of its request. *)
Definition classify (o : http_outcome) : res val :=
  match o with
  | NetFail => Raise (ValueError "Invalid Base URL")
  | Body response =>
      if is_success_payload response then Ok response
      else Raise (VakSmsBadRequest (val_get response "error"))
  end.

(** A request for the status [send] of [number], or the warning about a
    mirror on which such a request failed. The identifier is taken from the
    number by [wait_sms_code] and again by [set_status]. *)
Definition is_send_attempt (number : val) (e : event) : Prop :=
  match e with
  | EvGet rq _ =>
      rq_uri rq = "/api/setStatus"
      /\ exists id1 id2 key,
           number_id_of number = Ok id1 /\ number_id_of id1 = Ok id2
           /\ rq_params rq
              = sent_params key (Some [("idNum", id2); ("status", VStr "send")])
  | EvSleep _ => False
  | EvWarning _ => True
  end.

(** A request that failed at the network level, or a warning. *)
Definition failed_attempt (e : event) : Prop :=
  match e with
  | EvGet _ NetFail => True
  | EvWarning _ => True
  | _ => False
  end.

Definition is_sleep_or_poll (e : event) : Prop :=
  match e with
  | EvSleep _ => True
  | EvGet rq _ => rq_uri rq = "/api/getSmsCode/"
  | EvWarning _ => False
  end.

Definition is_poll (e : event) : bool :=
  match e with
  | EvGet rq _ => String.eqb (rq_uri rq) "/api/getSmsCode/"
  | _ => false
  end.

(** The number of poll requests among the events. *)
Definition count_polls (evs : list event) : nat :=
  length (List.filter is_poll evs).

(** The list of codes in the answer to a poll, if the answer is a success
    payload whose field [smsCode] is a list. *)
Definition code_list (o : http_outcome) : option (list val) :=
  match o with
  | Body (VDict d) =>
      if is_success_payload (VDict d)
      then match dict_get d "smsCode" with
           | Some (VList l) => Some l
           | _ => None
           end
      else None
  | _ => None
  end.

(** The events of the polling loop that ends with the result [r]: rounds of
    a sleep and a poll; the loop goes on after an answer without a list of
    codes, and an answer with a list of codes ends it with the last code. *)
Inductive polls (r : res val) : list event -> Prop :=
| polls_nil : polls r []
| polls_last secs rq o :
    rq_uri rq = "/api/getSmsCode/" ->
    (forall l, code_list o = Some l -> r = last_item l) ->
    polls r [EvSleep secs; EvGet rq o]
| polls_cons secs rq o evs :
    rq_uri rq = "/api/getSmsCode/" ->
    code_list o = None ->
    polls r evs ->
    polls r (EvSleep secs :: EvGet rq o :: evs).


(** A provider that accepts every status and has no code; a request takes a
    tenth of a second. *)
Definition E_no_code : env :=
  {| env_net := fun _ _ => Body (VDict [("status", VStr "ready"); ("smsCode", VNone)]);
     env_latency := fun _ => (1 # 10)%Q; env_oversleep := fun _ => 0%Q |}.

(** A provider whose answer carries two codes from the sixth interaction on. *)
Definition E_two_codes : env :=
  {| env_net := fun i _ =>
       Body (VDict [("status", VStr "ready");
                    ("smsCode", if (i <? 5)%nat then VNone
                                else VList [VStr "1111"; VStr "2222"])]);
     env_latency := fun _ => (1 # 10)%Q; env_oversleep := fun _ => 0%Q |}.

(** *** Cached operations *)

Inductive cached_op : Type :=
| Get_count_number
| Get_country_list
| Get_count_number_list.

(** The cache each decorated operation uses. *)
Definition op_cache (op : cached_op) : cache_name :=
  match op with
  | Get_count_number => Cache
  | Get_country_list => Cache_countries
  | Get_count_number_list => Cache_all_data
  end.

(** The operation before the decoration. *)
Definition op_wrapped (E : env) (mi : string -> list val -> dict -> exn + dict)
    (op : cached_op) : nat -> list hval -> list (string * hval) -> M val :=
  match op with
  | Get_count_number => get_count_number_wrapped E mi
  | Get_country_list => get_country_list_wrapped E mi
  | Get_count_number_list => get_count_number_list_wrapped E mi
  end.

(** The operation as the class exposes it. *)
Definition call_cached (E : env) (mi : string -> list val -> dict -> exn + dict)
    (op : cached_op) : nat -> list hval -> list (string * hval) -> M val :=
  match op with
  | Get_count_number => get_count_number E mi
  | Get_country_list => get_country_list E mi
  | Get_count_number_list => get_count_number_list E mi
  end.

(** Whether the operation passes [api_key_required] to [__create_request]. *)
Definition op_key_required (op : cached_op) : bool :=
  match op with
  | Get_count_number => true
  | Get_country_list => false
  | Get_count_number_list => false
  end.

(** The arguments of the call bind to the parameters of the operation. *)
Definition op_binds (op : cached_op) (args : list hval)
    (kwargs : list (string * hval)) : Prop :=
  exists vs,
    bind_args
      match op with
      | Get_count_number =>
          [("service", None); ("operator", Some HNone);
           ("country", Some (HStr "ru"))]
      | Get_country_list => []
      | Get_count_number_list =>
          [("country", Some (HStr "RU")); ("operator", Some HNone);
           ("rent", Some (HBool false))]
      end args kwargs = Ok vs.

(** The errors of a request: the provider error, and the connectivity
    error [_send_request] raises. *)
Definition is_request_error (e : exn) : Prop :=
  match e with
  | VakSmsBadRequest _ => True
  | ValueError msg => msg = "Invalid Base URL"
  | _ => False
  end.

(** The caches have the capacity and the time to live the module gives
    them. *)
Definition module_caches (w : world) : Prop :=
  forall n, maxsize (get_cache n w) = 100 /\ ttl (get_cache n w) = 3600%Q.

(** C5 as the specification states it, for two sessions that make the same
    call one after the other: the second call returns what the first one
    returned, without a request. *)
Definition shares_entry (E : env) (mi : string -> list val -> dict -> exn + dict)
    (op : cached_op) (self1 self2 : nat) (args : list hval)
    (kwargs : list (string * hval)) (w : world) : Prop :=
  let out1 := call_cached E mi op self1 args kwargs w in
  let out2 := call_cached E mi op self2 args kwargs (snd out1) in
  fst out2 = fst out1 /\ new_events (snd out1) (snd out2) = [].

(** Two sessions with different keys, in the order of their creation. *)
Definition two_sessions : world :=
  snd (Vaksms_init "key2" None 10 (snd (Vaksms_init "key1" None 10 empty_world))).

(** A provider whose stock changes from one request to the next. *)
Definition E_stock : env :=
  {| env_net := fun i _ => Body (VDict [("vk", VInt (Z.of_nat i)); ("price", VInt 10)]);
     env_latency := fun _ => (1 # 10)%Q; env_oversleep := fun _ => 0%Q |}.

(** A session without a key. *)
Definition keyless_session : world :=
  snd (Vaksms_init "" None 10 empty_world).

(** The world [dt] seconds later, nothing else having happened. *)
Definition later (dt : Q) (w : world) : world :=
  {| w_heap := w_heap w; w_trace := w_trace w; w_now := (w_now w + dt)%Q;
     cache_all_data := cache_all_data w; cache := cache w;
     cache_countries := cache_countries w |}.

(** *** Further statements *)

(** A computation that is turned away: the world stays as it is and no
    value is returned. *)
Definition refused (w : world) (out : res val * world) : Prop :=
  snd out = w /\ forall v, fst out <> Ok v.

(** A request of the session [s] for [uri] and [params], or a warning. *)
Definition from_session (s : Vaksms) (uri : string) (params : option dict)
    (e : event) : Prop :=
  match e with
  | EvGet rq _ => exists b, rq = request_of s b uri params
  | EvSleep _ => False
  | EvWarning _ => True
  end.

(** A model instance whose field [icon] starts with [b]. *)
Definition icon_under (b : string) (v : val) : Prop :=
  exists cls fields icon,
    v = VModel cls fields /\ dict_get fields "icon" = Some (VStr (b ++ icon)).


(** A provider that lists one service with a relative icon path. *)
Definition E_services : env :=
  E_const (VDict [("vk", VList [VDict [("name", VStr "VK");
                                       ("icon", VStr "/static/vk.png")]])]).

(** A world with one session that was given an address. *)
Definition explicit_session : world :=
  snd (Vaksms_init "key" (Some "https://example.org") 10 empty_world).

(** A request of [prolong_number]: no parameter [rent]. *)
Definition prolong_request (service tel soft_id : val) (e : event) : Prop :=
  match e with
  | EvGet rq _ =>
      rq_uri rq = "/api/prolongNumber"
      /\ dict_get (rq_params rq) "rent" = None
      /\ (service <> VNone -> dict_get (rq_params rq) "service" = Some service)
      /\ (tel <> VNone -> dict_get (rq_params rq) "tel" = Some tel)
      /\ (soft_id <> VNone -> dict_get (rq_params rq) "softId" = Some soft_id)
  | EvSleep _ => False
  | EvWarning _ => True
  end.
(** *** The status transition of [wait_sms_code] *)

(** A request for the status [send]. *)
Definition is_send (e : event) : bool :=
  match e with
  | EvGet rq _ =>
      String.eqb (rq_uri rq) "/api/setStatus"
      && match dict_get (rq_params rq) "status" with
         | Some (VStr status) => String.eqb status "send"
         | _ => false
         end
  | _ => false
  end.

(** The number of requests for the status [send] among the events. *)
Definition count_sends (evs : list event) : nat :=
  length (List.filter is_send evs).

(** A sleep, or a poll request. *)
Definition is_wait (e : event) : bool :=
  match e with
  | EvSleep _ => true
  | EvGet rq _ => String.eqb (rq_uri rq) "/api/getSmsCode/"
  | EvWarning _ => false
  end.

(** The events before the first sleep and the first poll request. *)
Fixpoint before_wait (evs : list event) : list event :=
  match evs with
  | [] => []
  | e :: evs' => if is_wait e then [] else e :: before_wait evs'
  end.

(** C8 as the specification states it, for one call: exactly one request
    for the status [send] is issued before the first poll request and the
    first sleep. *)
Definition one_send_before_polling (E : env) (fuel self : nat) (number : val)
    (timeout per_attempt : Z) (w : world) : Prop :=
  count_sends
    (before_wait
       (new_events w
          (snd (wait_sms_code E fuel self number timeout per_attempt w))))
  = 1.

(** Only the third mirror can be reached; it accepts the status and has no
    code. *)
Definition E_third_mirror : env :=
  {| env_net := fun _ rq =>
       if String.eqb (rq_base rq) "https://vaksms.ru"
       then Body (VDict [("status", VStr "ready"); ("smsCode", VNone)])
       else NetFail;
     env_latency := fun _ => (1 # 10)%Q; env_oversleep := fun _ => 0%Q |}.


(** ** Runs of the model *)

Example get_balance_second_mirror :
  get_balance E_second_mirror 0 one_session
  = (Ok (VInt 3),
     snd (__create_request E_second_mirror 0 "/api/getBalance" None true one_session))
  /\ w_heap (snd (get_balance E_second_mirror 0 one_session))
     = [{| _api_key := "key"; _base_url := Some "https://moresms.net";
           _timeout := 10 |}].
Proof. split; reflexivity. Qed.

Example get_balance_provider_error :
  fst (get_balance E_bad_key 0 one_session)
  = Raise (VakSmsBadRequest (VStr "apiKeyNotFound")).
Proof. reflexivity. Qed.

Example get_balance_without_key :
  get_balance E_second_mirror 0 keyless_session
  = (Raise (ValueError "API key is required for this method"), keyless_session).
Proof. reflexivity. Qed.

Example wait_sms_code_without_key :
  wait_sms_code E_no_code 10 0 (VStr "n1") 5 5 keyless_session
  = (Raise (ValueError "API key is required for this method"), keyless_session).
Proof. reflexivity. Qed.

Example get_number_one_service_in_list :
  fst (get_number (E_const (VDict [])) accept_all 0 (VList [VStr "viber"])
         VNone (VBool false) (VStr "ru") (VStr "1019") one_session)
  = Raise (IndexError "index out of range").
Proof. reflexivity. Qed.

Example sorted_kwargs_by_name :
  sorted_kwargs [("rent", HBool true); ("country", HStr "RU")]
  = [("country", HStr "RU"); ("rent", HBool true)].
Proof. reflexivity. Qed.

Example key_positional_or_keyword :
  hashkey_eqb (make_key 0 [HStr "vk"] []) (make_key 0 [] [("service", HStr "vk")])
  = false.
Proof. reflexivity. Qed.

Example key_True_is_1 :
  hashkey_eqb (make_key 0 [HStr "RU"; HNone; HBool true] [])
    (make_key 0 [HStr "RU"; HNone; HInt 1] [])
  = true.
Proof. reflexivity. Qed.

(** An entry is served for an hour and not after it. *)
Example cache_entry_expires :
  let w1 := snd (get_count_number E_stock accept_all 0 [HStr "vk"] [] one_session) in
  new_events (later 3599 w1)
    (snd (get_count_number E_stock accept_all 0 [HStr "vk"] [] (later 3599 w1))) = []
  /\ length (new_events (later 3600 w1)
               (snd (get_count_number E_stock accept_all 0 [HStr "vk"] []
                       (later 3600 w1)))) = 1.
Proof. vm_compute. split; reflexivity. Qed.
(** ** Proofs *)

Ltac run_M :=
  unfold bind, ret, raise, stuck, lift, get_self, set_base_url, logging_warning,
    requests_get, time_time; simpl.

Lemma new_events_app (w w' : world) (evs : list event) :
  w_trace w' = (w_trace w ++ evs)%list -> new_events w w' = evs.
Proof.
  intros H. unfold new_events. rewrite H. apply drop_app_length.
Qed.

Lemma new_events_refl (w : world) : new_events w w = [].
Proof. apply new_events_app. now rewrite app_nil_r. Qed.

Section SendRequest.

Variable E : env.

(** What [_send_request] does with an address: one request, classified. *)
Lemma send_request_Some b uri headers params timeout w :
  let rq := {| rq_base := b; rq_uri := uri; rq_headers := headers;
               rq_params := params; rq_timeout := timeout |} in
  let i := length (w_trace w) in
  let o := env_net E i rq in
  _send_request E (Some b) uri headers params timeout w =
  (match o with
   | NetFail => Raise (ValueError "Invalid Base URL")
   | Body response =>
       if is_success_payload response then Ok response
       else match getitem response "error" with
            | Ok e => Raise (VakSmsBadRequest e)
            | Raise e => Raise e
            | Stuck => Stuck
            end
   end,
   with_event (EvGet rq o) (env_latency E i) w).
Proof.
  intros rq i o. unfold _send_request. run_M. fold rq i o.
  destruct o as [|response]; [reflexivity|].
  destruct (is_success_payload response); [reflexivity|].
  destruct (getitem response "error"); reflexivity.
Qed.

End SendRequest.

(** C2: the classification of [_send_request]. The call makes exactly one
    request; a network failure is re-raised as [ValueError('Invalid Base
    URL')]; a dict body with a truthy [error] raises [VakSmsBadRequest] with
    the value of that field; every other body, lists and other dicts
    included, is returned as it is. *)
Theorem C2_send_request_classification (E : env) (b uri : string)
    (headers : list (string * string)) (params : dict) (timeout : Z) (w : world) :
  let rq := {| rq_base := b; rq_uri := uri; rq_headers := headers;
               rq_params := params; rq_timeout := timeout |} in
  let o := env_net E (length (w_trace w)) rq in
  let r := fst (_send_request E (Some b) uri headers params timeout w) in
  let w' := snd (_send_request E (Some b) uri headers params timeout w) in
  new_events w w' = [EvGet rq o] /\
  match o with
  | NetFail => r = Raise (ValueError "Invalid Base URL")
  | Body (VDict d) =>
      match dict_get d "error" with
      | Some e => if truthy e then r = Raise (VakSmsBadRequest e)
                  else r = Ok (VDict d)
      | None => r = Ok (VDict d)
      end
  | Body response => r = Ok response
  end.
Proof.
  intros rq o r w'. subst r w'. rewrite send_request_Some. fold rq o. simpl.
  split; [now apply new_events_app|].
  destruct o as [|response]; [reflexivity|].
  destruct response; try reflexivity.
  unfold is_success_payload. simpl.
  destruct (dict_get d "error") as [e|]; [|reflexivity].
  destruct (truthy e); reflexivity.
Qed.

Section Discovery.

Variable E : env.
Variables (self : nat) (s : Vaksms) (uri : string) (params : option dict).

(** After [k] failed trials the loop goes on with the candidates left, in a
    world that differs by the events of those trials and the time spent. *)
Lemma discover_failed_prefix (k : nat) :
  forall (cands : list string) (w : world),
    k <= length cands ->
    (forall j m, j < k -> cands !! j = Some m ->
       env_net E (length (w_trace w) + 2 * j) (request_of s m uri params) = NetFail) ->
    exists w1,
      discover E self uri request_headers
        (sent_params (_api_key s) params) (_timeout s) cands w
      = discover E self uri request_headers
          (sent_params (_api_key s) params) (_timeout s) (drop k cands) w1
      /\ w_heap w1 = w_heap w
      /\ w_trace w1 = (w_trace w ++ failed_trials s uri params (take k cands))%list.
Proof.
  induction k as [|k IH]; intros cands w Hlen Hfail.
  - exists w. rewrite drop_0, take_0. simpl. now rewrite app_nil_r.
  - destruct cands as [|c rest]; [simpl in Hlen; lia|].
    simpl in Hlen.
    pose proof (Hfail 0 c ltac:(lia) eq_refl) as H0.
    rewrite Nat.add_0_r in H0.
    set (w2 := with_event (EvWarning (warning_text c)) 0
                 (with_event (EvGet (request_of s c uri params) NetFail)
                    (env_latency E (length (w_trace w))) w)).
    destruct (IH rest w2) as (w1 & Hrun & Hheap & Htrace).
    + lia.
    + intros j m Hj Hm.
      replace (length (w_trace w2) + 2 * j) with (length (w_trace w) + 2 * S j).
      * apply Hfail; [lia | exact Hm].
      * unfold w2. simpl. rewrite !length_app. simpl. lia.
    + exists w1. split; [|split].
      * change (drop (S k) (c :: rest)) with (drop k rest).
        rewrite <- Hrun. cbn [discover].
        rewrite send_request_Some. fold (request_of s c uri params).
        rewrite H0. reflexivity.
      * rewrite Hheap. reflexivity.
      * rewrite Htrace. unfold w2. simpl. rewrite <- !app_assoc. reflexivity.
Qed.

End Discovery.

Lemma length_failed_trials s uri params ms :
  length (failed_trials s uri params ms) = 2 * length ms.
Proof. induction ms as [|m ms IH]; simpl; [reflexivity | rewrite IH; lia]. Qed.

Section CreateRequest.

Variable E : env.

Lemma create_request_no_key self s uri params akr w :
  w_heap w !! self = Some s -> key_ok s akr = false ->
  __create_request E self uri params akr w =
  (Raise (ValueError "API key is required for this method"), w).
Proof.
  intros Hs Hk. unfold __create_request, bind, get_self. rewrite Hs.
  unfold key_ok in Hk. apply negb_false_iff in Hk. rewrite Hk. reflexivity.
Qed.

Lemma create_request_pinned self s b uri params akr w :
  w_heap w !! self = Some s -> _base_url s = Some b -> key_ok s akr = true ->
  __create_request E self uri params akr w =
  _send_request E (Some b) uri request_headers
    (sent_params (_api_key s) params) (_timeout s) w.
Proof.
  intros Hs Hb Hk. unfold __create_request, bind, get_self. rewrite Hs.
  unfold key_ok in Hk. apply negb_true_iff in Hk. rewrite Hk, Hb. reflexivity.
Qed.

Lemma create_request_unpinned self s uri params akr w :
  w_heap w !! self = Some s -> _base_url s = None -> key_ok s akr = true ->
  __create_request E self uri params akr w =
  discover E self uri request_headers
    (sent_params (_api_key s) params) (_timeout s) base_urls w.
Proof.
  intros Hs Hb Hk. unfold __create_request, bind, get_self. rewrite Hs.
  unfold key_ok in Hk. apply negb_true_iff in Hk. rewrite Hk, Hb. reflexivity.
Qed.

(** A request of a session with an address: the objects stay as they are,
    and at most one request is made, to that address. *)
Lemma create_request_pinned_frame self s b uri params akr w :
  w_heap w !! self = Some s -> _base_url s = Some b ->
  let out := __create_request E self uri params akr w in
  w_heap (snd out) = w_heap w
  /\ (new_events w (snd out) = []
      \/ exists o, new_events w (snd out) = [EvGet (request_of s b uri params) o])
  /\ (forall rq, new_events w (snd out) = [EvGet rq NetFail] ->
        fst out = Raise (ValueError "Invalid Base URL")).
Proof.
  intros Hs Hb out. subst out.
  destruct (key_ok s akr) eqn:Hk.
  - rewrite (create_request_pinned _ _ _ _ _ _ _ Hs Hb Hk), send_request_Some.
    fold (request_of s b uri params). simpl.
    set (o := env_net E _ _).
    assert (Hev : new_events w (with_event (EvGet (request_of s b uri params) o)
                                  (env_latency E (length (w_trace w))) w)
                  = [EvGet (request_of s b uri params) o])
      by now apply new_events_app.
    rewrite Hev. split; [reflexivity|]. split; [right; now exists o|].
    intros rq Hrq. injection Hrq as _ Ho. now rewrite Ho.
  - rewrite (create_request_no_key _ _ _ _ _ _ Hs Hk). simpl.
    rewrite new_events_refl. split; [reflexivity|]. split; [now left|].
    discriminate.
Qed.

End CreateRequest.

(** C3 (the code): when the trial on every candidate fails at the network
    level, the statement after the loop calls [_send_request] with the
    address [None], and the call ends with a [TypeError], not with the
    connectivity error; no address is pinned. *)
Theorem C3_exhausted_discovery_raises_TypeError (E : env) (self : nat)
    (s : Vaksms) (uri : string) (params : option dict) (akr : bool) (w : world) :
  w_heap w !! self = Some s ->
  _base_url s = None ->
  key_ok s akr = true ->
  (forall j m, base_urls !! j = Some m -> trial E w s uri params j m = NetFail) ->
  let out := __create_request E self uri params akr w in
  fst out = Raise (TypeError "unsupported operand type(s) for +: 'NoneType' and 'str'")
  /\ w_heap (snd out) = w_heap w
  /\ new_events w (snd out) = failed_trials s uri params base_urls.
Proof.
  intros Hs Hb Hk Hfail out. subst out.
  rewrite (create_request_unpinned E _ _ _ _ _ _ Hs Hb Hk).
  destruct (discover_failed_prefix E self s uri params (length base_urls)
              base_urls w (le_n _)) as (w1 & Hrun & Hheap & Htrace).
  { intros j m _ Hm. now apply Hfail. }
  rewrite Hrun. rewrite drop_all. rewrite firstn_all in Htrace.
  cbn [discover]. unfold bind, get_self. rewrite Hheap, Hs, Hb. simpl.
  split; [reflexivity|]. split; [exact Hheap|]. now apply new_events_app.
Qed.

Lemma C3_exhausted_discovery_raises_TypeError_witness :
  fst (__create_request E_down 0 "/api/getBalance" None true one_session)
  = Raise (TypeError "unsupported operand type(s) for +: 'NoneType' and 'str'").
Proof.
  refine (proj1 (C3_exhausted_discovery_raises_TypeError E_down 0
            {| _api_key := "key"; _base_url := None; _timeout := 10 |}
            "/api/getBalance" None true one_session _ _ _ _));
    try reflexivity.
Defined.

(** *** Computations that leave the world as it is *)

Lemma pure_ret {A} (a : A) : pure (ret a).
Proof. intros w. reflexivity. Qed.

Lemma pure_raise {A} (e : exn) : pure (@raise A e).
Proof. intros w. reflexivity. Qed.

Lemma pure_stuck {A} : pure (@stuck A).
Proof. intros w. reflexivity. Qed.

Lemma pure_lift {A} (r : res A) : pure (lift r).
Proof. intros w. reflexivity. Qed.

Lemma pure_get_self self : pure (get_self self).
Proof. intros w. unfold get_self. now destruct (w_heap w !! self). Qed.

Lemma pure_new_model mi cls args kwargs : pure (new_model mi cls args kwargs).
Proof. intros w. unfold new_model. now destruct (mi cls args kwargs). Qed.

Lemma pure_bind {A B} (m : M A) (k : A -> M B) :
  pure m -> (forall a, pure (k a)) -> pure (bind m k).
Proof.
  intros Hm Hk w. unfold bind. specialize (Hm w).
  destruct (m w) as [[a|e|] w1]; simpl in *; subst; [apply Hk | reflexivity ..].
Qed.

(** The world after [bind m k] is the one after [m] when [k] changes nothing. *)
Lemma snd_bind_pure {A B} (m : M A) (k : A -> M B) w :
  (forall a, pure (k a)) -> snd (bind m k w) = snd (m w).
Proof.
  intros Hk. unfold bind.
  destruct (m w) as [[a|e|] w1]; simpl; [apply Hk | reflexivity ..].
Qed.

Create HintDb client.
#[local] Hint Resolve pure_ret pure_raise pure_stuck pure_lift pure_get_self
  pure_new_model : client.

(** *** Frames *)

Lemma frame_refl E self w : frame E self w w.
Proof.
  split.
  - exists []. now rewrite app_nil_r.
  - reflexivity.
  - reflexivity.
  - intros s Hs. now left.
  - intros _. apply Qle_refl.
Qed.

Lemma frame_trans E self w1 w2 w3 :
  frame E self w1 w2 -> frame E self w2 w3 -> frame E self w1 w3.
Proof.
  intros [[e1 T1] C1 O1 S1 K1] [[e2 T2] C2 O2 S2 K2]. split.
  - exists (e1 ++ e2)%list. now rewrite T2, T1, app_assoc.
  - intros n. now rewrite C2, C1.
  - intros i Hi. now rewrite O2, O1.
  - intros s Hs. destruct (S1 s Hs) as [H1 | (Hn & b & H1)].
    + destruct (S2 s H1) as [H2 | (Hn & b & H2)]; [now left | right; eauto].
    + right. split; [exact Hn|]. exists b.
      destruct (S2 _ H1) as [H2 | (Hn2 & _)]; [exact H2 | discriminate Hn2].
  - intros HE. eapply Qle_trans; [apply K1 | apply K2]; exact HE.
Qed.

Lemma frame_with_event E self e dt w :
  (clock_monotone E -> (0 <= dt)%Q) -> frame E self w (with_event e dt w).
Proof.
  intros Hdt. split; simpl.
  - now exists [e].
  - intros n. now destruct n.
  - reflexivity.
  - intros s Hs. now left.
  - intros HE. specialize (Hdt HE). lra.
Qed.

Lemma framed_pure E self {A} (m : M A) : pure m -> framed E self m.
Proof. intros H w. rewrite H. apply frame_refl. Qed.

Lemma framed_bind E self {A B} (m : M A) (k : A -> M B) :
  framed E self m -> (forall a, framed E self (k a)) -> framed E self (bind m k).
Proof.
  intros Hm Hk w. unfold bind. specialize (Hm w).
  destruct (m w) as [[a|e|] w1]; simpl in *; [|assumption ..].
  eapply frame_trans; [exact Hm | apply Hk].
Qed.

Lemma framed_requests_get E self rq : framed E self (requests_get E rq).
Proof.
  intros w. unfold requests_get. simpl. apply frame_with_event.
  intros HE. apply HE.
Qed.

Lemma framed_logging_warning E self msg : framed E self (logging_warning msg).
Proof.
  intros w. unfold logging_warning. simpl. apply frame_with_event.
  intros _. apply Qle_refl.
Qed.

Lemma framed_time_sleep E self secs : framed E self (time_sleep E secs).
Proof.
  intros w. unfold time_sleep. destruct (secs <? 0)%Z eqn:Hs; simpl.
  - apply frame_refl.
  - apply frame_with_event. intros HE. apply Z.ltb_ge in Hs.
    destruct (HE (length (w_trace w))) as [_ Ho].
    assert (0 <= inject_Z secs)%Q by (unfold Qle; simpl; lia). lra.
Qed.

Lemma frame_set_base_url E self s b w :
  w_heap w !! self = Some s -> _base_url s = None ->
  frame E self w (snd (set_base_url self b w)).
Proof.
  intros Hs Hb. unfold set_base_url. rewrite Hs. simpl.
  split; simpl.
  - exists []. now rewrite app_nil_r.
  - intros n. now destruct n.
  - intros i Hi. apply list_lookup_insert_ne. congruence.
  - intros s' Hs'. rewrite Hs in Hs'. injection Hs' as <-.
    right. split; [exact Hb|]. exists b.
    apply list_lookup_insert_eq. eapply lookup_lt_Some; eauto.
  - intros _. apply Qle_refl.
Qed.

Lemma send_request_heap E base uri headers params timeout w :
  w_heap (snd (_send_request E base uri headers params timeout w)) = w_heap w.
Proof.
  destruct base as [b|]; [|reflexivity]. now rewrite send_request_Some.
Qed.

Lemma framed_send_request E self base uri headers params timeout :
  framed E self (_send_request E base uri headers params timeout).
Proof.
  intros w. destruct base as [b|]; [|apply frame_refl].
  rewrite send_request_Some. simpl. apply frame_with_event.
  intros HE. apply HE.
Qed.

Lemma frame_discover E self uri headers params timeout cands :
  forall w,
    (forall s, w_heap w !! self = Some s -> _base_url s = None) ->
    frame E self w (snd (discover E self uri headers params timeout cands w)).
Proof.
  induction cands as [|c rest IH]; intros w Hnone; cbn [discover].
  - apply framed_bind; [apply framed_pure, pure_get_self|].
    intros s. apply framed_send_request.
  - pose proof (framed_send_request E self (Some c) uri headers params timeout w) as Hf.
    pose proof (send_request_heap E (Some c) uri headers params timeout w) as Hh.
    destruct (_send_request E (Some c) uri headers params timeout w)
      as [[r|e|] w1]; simpl in Hf, Hh; [| |exact Hf].
    + unfold bind.
      destruct (w_heap w1 !! self) as [s|] eqn:Hs.
      * pose proof (frame_set_base_url E self s c w1 Hs) as Hset.
        rewrite Hh in Hs. specialize (Hset (Hnone s Hs)).
        destruct (set_base_url self c w1) as [[[]|e|] w2]; simpl in *;
          eapply frame_trans; eauto.
      * unfold set_base_url. rewrite Hs. simpl. exact Hf.
    + destruct e; try exact Hf.
      eapply frame_trans; [exact Hf|].
      unfold bind, logging_warning. simpl.
      eapply frame_trans;
        [apply (frame_with_event E self (EvWarning (warning_text c)) 0 w1);
         intros _; apply Qle_refl|].
      apply IH. simpl. rewrite Hh. exact Hnone.
Qed.

Lemma framed_create_request E self uri params akr :
  framed E self (__create_request E self uri params akr).
Proof.
  intros w. unfold __create_request, bind, get_self.
  destruct (w_heap w !! self) as [s|] eqn:Hs; [|apply frame_refl].
  destruct (akr && negb (truthy (VStr (_api_key s)))); [apply frame_refl|].
  destruct (_base_url s) as [b|] eqn:Hb.
  - apply framed_send_request.
  - apply frame_discover. intros s' Hs'. congruence.
Qed.

(** *** Events *)

Lemma emits_weaken (P Q : event -> Prop) {A} (m : M A) :
  (forall e, P e -> Q e) -> emits P m -> emits Q m.
Proof.
  intros HPQ Hm w. destruct (Hm w) as (evs & Ht & Hall).
  exists evs. split; [exact Ht|]. eapply Forall_impl; eauto.
Qed.

Lemma emits_pure (P : event -> Prop) {A} (m : M A) : pure m -> emits P m.
Proof.
  intros Hm w. rewrite Hm. exists []. split; [now rewrite app_nil_r | constructor].
Qed.

Lemma emits_bind (P : event -> Prop) {A B} (m : M A) (k : A -> M B) :
  emits P m -> (forall a, emits P (k a)) -> emits P (bind m k).
Proof.
  intros Hm Hk w. unfold bind. destruct (Hm w) as (e1 & T1 & F1).
  destruct (m w) as [[a|e|] w1]; simpl in *; [|now exists e1 ..].
  destruct (Hk a w1) as (e2 & T2 & F2).
  exists (e1 ++ e2)%list. split; [now rewrite T2, T1, app_assoc|].
  apply Forall_app. now split.
Qed.

Lemma emits_new_events (P : event -> Prop) {A} (m : M A) w :
  emits P m -> Forall P (new_events w (snd (m w))).
Proof.
  intros Hm. destruct (Hm w) as (evs & Ht & Hall).
  now rewrite (new_events_app _ _ _ Ht).
Qed.

Lemma emits_send_request E (P : event -> Prop) base uri headers params timeout :
  (forall b o, P (EvGet {| rq_base := b; rq_uri := uri; rq_headers := headers;
                           rq_params := params; rq_timeout := timeout |} o)) ->
  emits P (_send_request E base uri headers params timeout).
Proof.
  intros HP w. destruct base as [b|].
  - rewrite send_request_Some. simpl. eexists. split; [reflexivity|].
    constructor; [apply HP | constructor].
  - simpl. exists []. split; [now rewrite app_nil_r | constructor].
Qed.

Lemma emits_discover E (P : event -> Prop) self uri headers params timeout cands :
  (forall b o, P (EvGet {| rq_base := b; rq_uri := uri; rq_headers := headers;
                           rq_params := params; rq_timeout := timeout |} o)) ->
  (forall msg, P (EvWarning msg)) ->
  emits P (discover E self uri headers params timeout cands).
Proof.
  intros HP HW. induction cands as [|c rest IH]; cbn [discover].
  - apply emits_bind; [apply emits_pure, pure_get_self|].
    intros s. now apply emits_send_request.
  - intros w.
    destruct (emits_send_request E P (Some c) uri headers params timeout HP w)
      as (e1 & T1 & F1).
    destruct (_send_request E (Some c) uri headers params timeout w)
      as [[r|e|] w1]; simpl in T1.
    + exists e1. split; [|exact F1]. unfold bind, set_base_url, ret.
      destruct (w_heap w1 !! self); simpl; exact T1.
    + destruct e; try (exists e1; simpl; now split).
      unfold bind, logging_warning. simpl.
      destruct (IH (with_event (EvWarning (warning_text c)) 0 w1)) as (e2 & T2 & F2).
      exists (e1 ++ EvWarning (warning_text c) :: e2)%list. split.
      * rewrite T2. simpl. rewrite T1, <- !app_assoc. reflexivity.
      * apply Forall_app. split; [exact F1|]. constructor; [apply HW | exact F2].
    + exists e1. simpl. now split.
Qed.

Lemma emits_create_request E (P : event -> Prop) self uri params akr :
  (forall key b t o,
     P (EvGet {| rq_base := b; rq_uri := uri; rq_headers := request_headers;
                 rq_params := sent_params key params; rq_timeout := t |} o)) ->
  (forall msg, P (EvWarning msg)) ->
  emits P (__create_request E self uri params akr).
Proof.
  intros HP HW. unfold __create_request.
  apply emits_bind; [apply emits_pure, pure_get_self|]. intros s.
  destruct (akr && negb (truthy (VStr (_api_key s))));
    [apply emits_pure, pure_raise|].
  destruct (_base_url s).
  - apply emits_send_request. intros. apply HP.
  - apply emits_discover; [intros; apply HP | exact HW].
Qed.


(** With a key that passes the guard, [__create_request] sends a request
    first of all. *)
Lemma create_request_sends E self s uri params akr w :
  w_heap w !! self = Some s -> key_ok s akr = true ->
  exists b o evs,
    new_events w (snd (__create_request E self uri params akr w))
    = EvGet (request_of s b uri params) o :: evs.
Proof.
  intros Hs Hk. destruct (_base_url s) as [b|] eqn:Hb.
  - rewrite (create_request_pinned E _ _ _ _ _ _ _ Hs Hb Hk), send_request_Some.
    simpl. eexists b, _, []. now apply new_events_app.
  - rewrite (create_request_unpinned E _ _ _ _ _ _ Hs Hb Hk).
    unfold base_urls. cbn [discover]. rewrite send_request_Some.
    fold (request_of s "https://vak-sms.com" uri params).
    set (o := env_net E _ _). set (w1 := with_event _ _ w).
    assert (Hcont : forall (m : M val),
              emits (fun _ => True) m ->
              exists evs, new_events w (snd (m w1))
                          = EvGet (request_of s "https://vak-sms.com" uri params) o :: evs).
    { intros m Hm. destruct (Hm w1) as (evs & Ht & _). exists evs.
      apply new_events_app. rewrite Ht. unfold w1. simpl.
      now rewrite <- app_assoc. }
    assert (Hlog : exists evs,
              new_events w
                (snd (bind (logging_warning (warning_text "https://vak-sms.com"))
                        (fun _ => discover E self uri request_headers
                                    (sent_params (_api_key s) params) (_timeout s)
                                    ["https://moresms.net"; "https://vaksms.ru"]) w1))
              = EvGet (request_of s "https://vak-sms.com" uri params) o :: evs).
    { apply Hcont, emits_bind.
      - intros w'. exists [EvWarning (warning_text "https://vak-sms.com")].
        split; [reflexivity | repeat constructor].
      - intros _. now apply emits_discover. }
    assert (Hset : forall response : val, exists evs,
              new_events w
                (snd (bind (set_base_url self "https://vak-sms.com")
                        (fun _ => ret response) w1))
              = EvGet (request_of s "https://vak-sms.com" uri params) o :: evs).
    { intros response. apply Hcont. intros w'. exists [].
      unfold bind, set_base_url, ret.
      destruct (w_heap w' !! self); simpl;
        (split; [now rewrite app_nil_r | constructor]). }
    assert (Hstop : exists evs,
              new_events w w1
              = EvGet (request_of s "https://vak-sms.com" uri params) o :: evs).
    { exists []. now apply new_events_app. }
    exists "https://vak-sms.com", o.
    clearbody o w1.
    destruct o as [|response]; [exact Hlog|].
    destruct (is_success_payload response); [apply Hset|].
    destruct (getitem response "error") as [x|e|]; [exact Hstop| |exact Hstop].
    destruct e; first [exact Hlog | exact Hstop].
Qed.

(** *** Dictionaries *)

Lemma dict_get_set_ne d k k' v :
  k <> k' -> dict_get (dict_set d k' v) k = dict_get d k.
Proof.
  intros Hne. induction d as [|[k0 v0] d IH]; simpl.
  - destruct (String.eqb_spec k' k); [congruence | reflexivity].
  - destruct (String.eqb_spec k0 k'); simpl.
    + subst k0. destruct (String.eqb_spec k' k); [congruence | reflexivity].
    + destruct (String.eqb_spec k0 k); [reflexivity | exact IH].
Qed.

Lemma dict_get_set_eq d k v : dict_get (dict_set d k v) k = Some v.
Proof.
  induction d as [|[k0 v0] d IH]; simpl.
  - now rewrite String.eqb_refl.
  - destruct (String.eqb_spec k0 k); simpl.
    + subst k0. now rewrite String.eqb_refl.
    + destruct (String.eqb_spec k0 k); [congruence | exact IH].
Qed.

Lemma dict_get_filter d k v :
  dict_get d k = Some v -> v <> VNone ->
  dict_get (List.filter is_not_None d) k = Some v.
Proof.
  intros Hget Hv. induction d as [|[k0 v0] d IH]; simpl in *; [discriminate|].
  destruct (String.eqb_spec k0 k).
  - injection Hget as ->. unfold is_not_None at 1. simpl.
    destruct v; try congruence; simpl; subst k0; now rewrite String.eqb_refl.
  - destruct (is_not_None (k0, v0)); simpl; [|now apply IH].
    destruct (String.eqb_spec k0 k); [congruence | now apply IH].
Qed.

(** A parameter of the caller that is not [None] is sent as it is. *)
Lemma dict_get_sent_params key params k v :
  k <> "apiKey" -> dict_get params k = Some v -> v <> VNone ->
  dict_get (sent_params key (Some params)) k = Some v.
Proof.
  intros Hk Hget Hv. unfold sent_params.
  apply dict_get_filter; [|exact Hv].
  destruct (truthy (VStr key)); [|exact Hget].
  now rewrite dict_get_set_ne.
Qed.

(** C9: every request that [get_number] sends for the service list
    [["viber", "whatsapp"]] goes to [/api/getNumber/] and carries the one
    value ["viber,whatsapp"] as its parameter [service]; a session with a
    key sends such a request. *)
Theorem C9_get_number_combined_service (E : env)
    (mi : string -> list val -> dict -> exn + dict)
    (self : nat) (operator rent country soft_id : val) (w : world) :
  let out := get_number E mi self (VList [VStr "viber"; VStr "whatsapp"])
               operator rent country soft_id w in
  Forall combined_service_request (new_events w (snd out))
  /\ forall s, w_heap w !! self = Some s -> _api_key s <> "" ->
       exists rq o evs,
         new_events w (snd out) = EvGet rq o :: evs
         /\ dict_get (rq_params rq) "service" = Some (VStr "viber,whatsapp").
Proof.
  intros out. subst out. unfold get_number. simpl isinstance_list. cbv iota.
  assert (Hpost : forall response : val, pure
    (if isinstance_list response
     then bind (new_model mi "MultipleResponse" [response] [])
            (fun m => lift (getattr m "root"))
     else bind (lift (setitem response "service" (VStr "viber,whatsapp")))
            (fun response0 => bind (lift (mapping_of response0))
               (fun kwargs =>
                  match dict_get kwargs "rent" with
                  | Some _ =>
                      raise (TypeError "got multiple values for keyword argument 'rent'")
                  | None => new_model mi "Number" [VRef self]
                              (kwargs ++ [("rent", rent)])%list
                  end)))).
  { intros response. destruct (isinstance_list response).
    - apply pure_bind; auto with client.
    - apply pure_bind; auto with client. intros r0.
      apply pure_bind; auto with client. intros kw.
      destruct (dict_get kw "rent"); auto with client. }
  set (params := [("service", VStr "viber,whatsapp"); ("operator", operator);
                  ("rent", VStr (if truthy rent then "true" else "false"));
                  ("country", country); ("softId", soft_id)]).
  assert (Hservice : forall key,
            dict_get (sent_params key (Some params)) "service"
            = Some (VStr "viber,whatsapp")).
  { intros key. apply dict_get_sent_params; [discriminate | reflexivity | discriminate]. }
  split.
  - apply emits_new_events.
    change (emits combined_service_request
              (bind (__create_request E self "/api/getNumber/" (Some params) true)
                 (fun response =>
                    if isinstance_list response
                    then bind (new_model mi "MultipleResponse" [response] [])
                           (fun m => lift (getattr m "root"))
                    else bind (lift (setitem response "service" (VStr "viber,whatsapp")))
                           (fun response0 => bind (lift (mapping_of response0))
                              (fun kwargs =>
                                 match dict_get kwargs "rent" with
                                 | Some _ =>
                                     raise (TypeError "got multiple values for keyword argument 'rent'")
                                 | None => new_model mi "Number" [VRef self]
                                             (kwargs ++ [("rent", rent)])%list
                                 end))))).
    apply emits_bind.
    + apply emits_create_request; [|intros; exact I].
      intros key b t o. simpl. split; [reflexivity | apply Hservice].
    + intros response. apply emits_pure, Hpost.
  - intros s Hs Hkey.
    assert (Hk : key_ok s true = true).
    { unfold key_ok. simpl. destruct (_api_key s); [congruence | reflexivity]. }
    destruct (create_request_sends E self s "/api/getNumber/" (Some params) true w Hs Hk)
      as (b & o & evs & Hev).
    exists (request_of s b "/api/getNumber/" (Some params)), o, evs.
    split; [|apply Hservice].
    rewrite <- Hev. f_equal.
    apply (snd_bind_pure (__create_request E self "/api/getNumber/" (Some params) true)).
    exact Hpost.
Qed.

Lemma C9_get_number_combined_service_witness :
  exists rq o evs,
    new_events one_session
      (snd (get_number (E_const (VDict [("tel", VInt 79991112233)])) accept_all 0
              (VList [VStr "viber"; VStr "whatsapp"]) VNone (VBool false)
              (VStr "ru") (VStr "1019") one_session))
    = EvGet rq o :: evs
    /\ dict_get (rq_params rq) "service" = Some (VStr "viber,whatsapp").
Proof.
  apply (proj2 (C9_get_number_combined_service
                  (E_const (VDict [("tel", VInt 79991112233)])) accept_all 0
                  VNone (VBool false) (VStr "ru") (VStr "1019") one_session)
           {| _api_key := "key"; _base_url := None; _timeout := 10 |});
    [reflexivity | discriminate].
Defined.

Ltac solve_pure :=
  repeat first
    [ progress auto with client
    | apply pure_bind; [|intros]
    | match goal with
      | |- pure (match ?x with _ => _ end) => destruct x
      end ].

Lemma pure_build_services mi self entries :
  forall ret_d, pure (build_services mi self entries ret_d).
Proof.
  induction entries as [|[service v] entries IH]; intros ret_d;
    cbn [build_services]; [solve_pure|].
  repeat (apply pure_bind; [solve_pure | intros]). apply IH.
Qed.




(** *** The polling loop *)

Lemma getitem_error_not_success response :
  is_success_payload response = false ->
  getitem response "error" = Ok (val_get response "error").
Proof.
  unfold is_success_payload. destruct response; try discriminate. simpl.
  destruct (dict_get d "error"); [reflexivity | discriminate].
Qed.

Lemma send_request_classify E b uri headers params timeout w :
  let rq := {| rq_base := b; rq_uri := uri; rq_headers := headers;
               rq_params := params; rq_timeout := timeout |} in
  let i := length (w_trace w) in
  _send_request E (Some b) uri headers params timeout w =
  (classify (env_net E i rq), with_event (EvGet rq (env_net E i rq)) (env_latency E i) w).
Proof.
  intros rq i. rewrite send_request_Some. fold rq i. f_equal.
  destruct (env_net E i rq) as [|response]; [reflexivity|]. simpl.
  destruct (is_success_payload response) eqn:Hs; [reflexivity|].
  now rewrite (getitem_error_not_success _ Hs).
Qed.

Lemma classify_Ok o r : classify o = Ok r -> o = Body r.
Proof.
  destruct o as [|response]; simpl; [discriminate|].
  destruct (is_success_payload response); [congruence | discriminate].
Qed.

Lemma classify_ValueError o msg : classify o = Raise (ValueError msg) -> o = NetFail.
Proof.
  destruct o as [|response]; simpl; [reflexivity|].
  destruct (is_success_payload response); discriminate.
Qed.

(** A request that returns normally was answered by exactly one mirror,
    after failed trials on the mirrors before it, and that mirror is the
    address of the session afterwards. *)
Lemma discover_Ok E self s uri headers params timeout r cands :
  forall w w',
    w_heap w !! self = Some s -> _base_url s = None ->
    discover E self uri headers params timeout cands w = (Ok r, w') ->
    exists b fails,
      w_trace w' =
        (w_trace w ++ fails
         ++ [EvGet {| rq_base := b; rq_uri := uri; rq_headers := headers;
                      rq_params := params; rq_timeout := timeout |} (Body r)])%list
      /\ Forall failed_attempt fails
      /\ w_heap w' !! self = Some (pin s b).
Proof.
  induction cands as [|c rest IH]; intros w w' Hs Hb; cbn [discover].
  - unfold bind, get_self. rewrite Hs, Hb. simpl. discriminate.
  - rewrite send_request_classify.
    set (rq := {| rq_base := c |}). set (o := env_net E _ rq).
    destruct (classify o) as [r'|e|] eqn:Hc.
    + apply classify_Ok in Hc. unfold bind, set_base_url, ret. simpl.
      rewrite Hs. simpl. intros H. injection H as <- <-.
      exists c, []. simpl. rewrite Hc. split; [reflexivity|].
      split; [constructor|].
      apply list_lookup_insert_eq. eapply lookup_lt_Some; eauto.
    + destruct e; try discriminate.
      apply classify_ValueError in Hc. unfold bind, logging_warning. simpl.
      intros H. apply IH in H; [|exact Hs | exact Hb].
      destruct H as (b & fails & Ht & Hf & Hh).
      exists b, (EvGet rq o :: EvWarning (warning_text c) :: fails)%list.
      split; [|split; [|exact Hh]].
      * rewrite Ht. simpl. rewrite <- !app_assoc. reflexivity.
      * constructor; [now rewrite Hc|]. constructor; [exact I | exact Hf].
    + discriminate.
Qed.

Lemma create_request_Ok E self s uri params akr r w w' :
  w_heap w !! self = Some s ->
  __create_request E self uri params akr w = (Ok r, w') ->
  key_ok s akr = true
  /\ exists b fails,
       new_events w w' = (fails ++ [EvGet (request_of s b uri params) (Body r)])%list
       /\ Forall failed_attempt fails
       /\ w_heap w' !! self = Some (pin s b).
Proof.
  intros Hs Hrun. destruct (key_ok s akr) eqn:Hk.
  2:{ rewrite (create_request_no_key E _ _ _ _ _ _ Hs Hk) in Hrun. discriminate. }
  split; [reflexivity|].
  destruct (_base_url s) as [b|] eqn:Hb.
  - rewrite (create_request_pinned E _ _ _ _ _ _ _ Hs Hb Hk), send_request_classify in Hrun.
    injection Hrun as Hc <-. apply classify_Ok in Hc.
    exists b, []. split; [|split; [constructor|]].
    + apply new_events_app. unfold request_of. simpl. now rewrite Hc.
    + simpl. rewrite Hs. f_equal. destruct s. simpl in *. unfold pin. simpl.
      now rewrite Hb.
  - rewrite (create_request_unpinned E _ _ _ _ _ _ Hs Hb Hk) in Hrun.
    destruct (discover_Ok E self s uri _ _ _ r base_urls w w' Hs Hb Hrun)
      as (b & fails & Ht & Hf & Hh).
    exists b, fails. split; [|now split]. now apply new_events_app.
Qed.

Lemma code_list_classify o :
  code_list o =
  match classify o with
  | Ok response =>
      match getitem response "smsCode" with
      | Ok (VList l) => Some l
      | _ => None
      end
  | _ => None
  end.
Proof.
  destruct o as [|response]; [reflexivity|]. unfold code_list, classify.
  destruct response; simpl; try reflexivity.
  destruct (is_success_payload (VDict d)); [|reflexivity]. simpl.
  destruct (dict_get d "smsCode") as [v|]; [|reflexivity].
  destruct v; reflexivity.
Qed.

Section WaitLoop.

Variable E : env.
Variables (self : nat) (s : Vaksms) (b : string).
Variables (params : dict) (start_time : Q) (timeout per_attempt : Z).
Hypothesis Hpinned : _base_url s = Some b.
Hypothesis Hkey : key_ok s true = true.

(** One round of the loop of a session with an address and a key. *)
Lemma wait_loop_step fuel w :
  w_heap w !! self = Some s ->
  wait_loop E (S fuel) self params start_time timeout per_attempt w =
  if Qltb (w_now w - start_time) (inject_Z timeout)
  then
    if (per_attempt <? 0)%Z
    then (Raise (ValueError "sleep length must be non-negative"), w)
    else
      let w1 := with_event (EvSleep per_attempt)
                  (inject_Z per_attempt + env_oversleep E (length (w_trace w))) w in
      let rq := request_of s b "/api/getSmsCode/" (Some params) in
      let o := env_net E (length (w_trace w1)) rq in
      let w2 := with_event (EvGet rq o) (env_latency E (length (w_trace w1))) w1 in
      match classify o with
      | Ok response =>
          match getitem response "smsCode" with
          | Ok (VList l) => (last_item l, w2)
          | Ok _ => wait_loop E fuel self params start_time timeout per_attempt w2
          | Raise e => (Raise e, w2)
          | Stuck => (Stuck, w2)
          end
      | Raise e => (Raise e, w2)
      | Stuck => (Stuck, w2)
      end
  else (Ok VNone, w).
Proof.
  intros Hs. cbn [wait_loop]. unfold bind at 1, time_time at 1.
  destruct (Qltb (w_now w - start_time) (inject_Z timeout)); [|reflexivity].
  unfold bind at 1, time_sleep at 1.
  destruct (per_attempt <? 0)%Z; [reflexivity|].
  cbv zeta. unfold bind at 1.
  match goal with
  | |- context [__create_request E self ?u ?p true ?w1] =>
      rewrite (create_request_pinned E self s b u p true w1 Hs Hpinned Hkey)
  end.
  rewrite send_request_classify. fold (request_of s b "/api/getSmsCode/" (Some params)).
  destruct (classify _) as [response|e|]; try reflexivity.
  unfold bind, lift. destruct (getitem response "smsCode") as [sms|e|]; try reflexivity.
  destruct sms; reflexivity.
Qed.

(** The events of the loop are rounds of a sleep and a poll. *)
Lemma wait_loop_polls fuel :
  forall w, w_heap w !! self = Some s ->
    exists evs,
      w_trace (snd (wait_loop E fuel self params start_time timeout per_attempt w))
      = (w_trace w ++ evs)%list
      /\ polls (fst (wait_loop E fuel self params start_time timeout per_attempt w)) evs.
Proof.
  induction fuel as [|fuel IH]; intros w Hs.
  { exists []. simpl. split; [now rewrite app_nil_r | constructor]. }
  rewrite (wait_loop_step fuel w Hs).
  destruct (Qltb (w_now w - start_time) (inject_Z timeout));
    [|exists []; simpl; split; [now rewrite app_nil_r | constructor]].
  destruct (per_attempt <? 0)%Z;
    [exists []; simpl; split; [now rewrite app_nil_r | constructor]|].
  cbv zeta.
  set (w1 := with_event (EvSleep per_attempt) _ w).
  set (rq := request_of s b "/api/getSmsCode/" (Some params)).
  set (o := env_net E (length (w_trace w1)) rq).
  set (w2 := with_event (EvGet rq o) _ w1).
  assert (Ht2 : w_trace w2 = (w_trace w ++ [EvSleep per_attempt; EvGet rq o])%list).
  { unfold w2, w1. simpl. now rewrite <- app_assoc. }
  assert (Hstop : forall r : res val,
            (forall l, code_list o = Some l -> r = last_item l) ->
            exists evs, w_trace (snd (r, w2)) = (w_trace w ++ evs)%list
                        /\ polls (fst (r, w2)) evs).
  { intros r Hr. exists [EvSleep per_attempt; EvGet rq o]. split; [exact Ht2|].
    now constructor. }
  pose proof (code_list_classify o) as Hcl.
  destruct (classify o) as [response|e|];
    [|apply Hstop; intros l Hl; congruence ..].
  destruct (getitem response "smsCode") as [sms|e|];
    [|apply Hstop; intros l Hl; congruence ..].
  assert (Hgo : code_list o = None ->
            exists evs,
              w_trace (snd (wait_loop E fuel self params start_time timeout
                              per_attempt w2)) = (w_trace w ++ evs)%list
              /\ polls (fst (wait_loop E fuel self params start_time timeout
                               per_attempt w2)) evs).
  { intros Hnone. destruct (IH w2) as (evs & Ht & Hp); [exact Hs|].
    exists (EvSleep per_attempt :: EvGet rq o :: evs). split.
    - rewrite Ht, Ht2, <- app_assoc. reflexivity.
    - now constructor. }
  destruct sms; try (apply Hgo; exact Hcl).
  apply Hstop. intros l' Hl'. congruence.
Qed.

End WaitLoop.

Lemma polls_sleep_or_poll r evs : polls r evs -> Forall is_sleep_or_poll evs.
Proof.
  induction 1; repeat constructor; assumption.
Qed.

(** In the events of the loop, an answer with a list of codes is the last
    event and the result is the last code of the list. *)
Lemma polls_code_list r evs :
  polls r evs ->
  forall pre rq o post l,
    evs = (pre ++ EvGet rq o :: post)%list ->
    code_list o = Some l ->
    r = last_item l /\ post = [].
Proof.
  induction 1 as [|secs rq0 o0 Huri Hr|secs rq0 o0 evs Huri Hnone Hp IH];
    intros pre rq o post l Heq Hl.
  - destruct pre; discriminate.
  - destruct pre as [|e1 [|e2 pre]]; simpl in Heq; try discriminate.
    + injection Heq as _ <- <- <-. split; [now apply Hr | reflexivity].
    + injection Heq as _ _ Heq. destruct pre; discriminate.
  - destruct pre as [|e1 [|e2 pre]]; simpl in Heq; try discriminate.
    + injection Heq as _ <- <- _. congruence.
    + injection Heq as _ _ Heq. eapply IH; eauto.
Qed.

(** *** [set_status] and the start of [wait_sms_code] *)

Lemma set_status_unfold E self id id2 w :
  number_id_of id = Ok id2 ->
  set_status E self id "send" w =
  bind (__create_request E self "/api/setStatus"
          (Some [("idNum", id2); ("status", VStr "send")]) true)
    (fun response => lift (getitem response "status")) w.
Proof.
  intros Hid. unfold set_status. unfold bind at 1, lift at 1. now rewrite Hid.
Qed.

Lemma set_status_no_id E self id w :
  (forall id2, number_id_of id <> Ok id2) ->
  snd (set_status E self id "send" w) = w
  /\ forall v, fst (set_status E self id "send" w) <> Ok v.
Proof.
  intros Hid. unfold set_status. unfold bind at 1, lift at 1.
  destruct (number_id_of id) as [id2|e|]; [now destruct (Hid id2) | ..];
    split; try reflexivity; discriminate.
Qed.

Lemma emits_set_status_send E self number id :
  number_id_of number = Ok id ->
  emits (is_send_attempt number) (set_status E self id "send").
Proof.
  intros Hid w.
  destruct (number_id_of id) as [id2|e|] eqn:Hid2.
  - rewrite (set_status_unfold E self id id2 w Hid2).
    apply emits_bind; [|intros; apply emits_pure, pure_lift].
    apply emits_create_request; [|intros; exact I].
    intros key b t o. simpl. split; [reflexivity|]. now exists id, id2, key.
  - exists []. rewrite (proj1 (set_status_no_id E self id w ltac:(congruence))).
    split; [now rewrite app_nil_r | constructor].
  - exists []. rewrite (proj1 (set_status_no_id E self id w ltac:(congruence))).
    split; [now rewrite app_nil_r | constructor].
Qed.

(** A status transition that returns was answered by exactly one mirror,
    and the session has that mirror as its address afterwards. *)
Lemma set_status_Ok E self s id st w w1 :
  w_heap w !! self = Some s ->
  set_status E self id "send" w = (Ok st, w1) ->
  key_ok s true = true
  /\ exists b fails rq r,
       new_events w w1 = (fails ++ [EvGet rq (Body r)])%list
       /\ Forall failed_attempt fails
       /\ w_heap w1 !! self = Some (pin s b).
Proof.
  intros Hs Hrun.
  destruct (number_id_of id) as [id2|e|] eqn:Hid2.
  2,3: destruct (set_status_no_id E self id w ltac:(congruence)) as [_ Hn];
       rewrite Hrun in Hn; now destruct (Hn st).
  rewrite (set_status_unfold E self id id2 w Hid2) in Hrun.
  unfold bind, lift in Hrun.
  destruct (__create_request E self "/api/setStatus"
              (Some [("idNum", id2); ("status", VStr "send")]) true w)
    as [[response|e|] w'] eqn:Hreq; try discriminate.
  injection Hrun as _ <-.
  destruct (create_request_Ok E self s _ _ _ _ _ _ Hs Hreq)
    as (Hk & b & fails & Hev & Hf & Hh).
  split; [exact Hk|]. eexists b, fails, _, response. eauto.
Qed.

Lemma wait_sms_code_unfold E fuel self number timeout per_attempt w :
  wait_sms_code E fuel self number timeout per_attempt w =
  match number_id_of number with
  | Ok id =>
      match w_heap w !! self with
      | Some s =>
          if negb (truthy (VStr (_api_key s)))
          then (Raise (ValueError "API key is required for this method"), w)
          else
            match set_status E self id "send" w with
            | (Ok _, w1) =>
                wait_loop E fuel self [("idNum", id); ("all", VStr "None")]
                  (w_now w1) timeout per_attempt w1
            | (Raise e, w1) => (Raise e, w1)
            | (Stuck, w1) => (Stuck, w1)
            end
      | None => (Stuck, w)
      end
  | Raise e => (Raise e, w)
  | Stuck => (Stuck, w)
  end.
Proof.
  unfold wait_sms_code. unfold bind at 1, lift at 1.
  destruct (number_id_of number) as [id|e|]; try reflexivity.
  unfold bind at 1, require_api_key, bind at 1, get_self.
  destruct (w_heap w !! self) as [s|]; try reflexivity.
  destruct (negb (truthy (VStr (_api_key s)))); reflexivity.
Qed.

(** How a call of [wait_sms_code] runs: it stops before the loop, having
    made at most the requests of the status transition, or the transition
    returned and the loop runs in a session with an address. *)
Lemma wait_sms_code_run E fuel self number timeout per_attempt w :
  let out := wait_sms_code E fuel self number timeout per_attempt w in
  (Forall (is_send_attempt number) (new_events w (snd out))
   /\ forall v, fst out <> Ok v)
  \/ exists s id st w1 b send_evs fails rq r,
       w_heap w !! self = Some s
       /\ key_ok s true = true
       /\ number_id_of number = Ok id
       /\ set_status E self id "send" w = (Ok st, w1)
       /\ w_heap w1 !! self = Some (pin s b)
       /\ w_trace w1 = (w_trace w ++ send_evs)%list
       /\ Forall (is_send_attempt number) send_evs
       /\ send_evs = (fails ++ [EvGet rq (Body r)])%list
       /\ Forall failed_attempt fails
       /\ out = wait_loop E fuel self [("idNum", id); ("all", VStr "None")]
                  (w_now w1) timeout per_attempt w1.
Proof.
  intros out. subst out. rewrite wait_sms_code_unfold.
  assert (Hnone : forall r : res val, (forall v, r <> Ok v) ->
            Forall (is_send_attempt number) (new_events w (snd (r, w)))
            /\ forall v, fst (r, w) <> Ok v).
  { intros r Hr. simpl. rewrite new_events_refl. split; [constructor | exact Hr]. }
  destruct (number_id_of number) as [id|e|] eqn:Hid;
    [|left; apply Hnone; discriminate ..].
  destruct (w_heap w !! self) as [s|] eqn:Hs;
    [|left; apply Hnone; discriminate].
  destruct (negb (truthy (VStr (_api_key s)))) eqn:Hk;
    [left; apply Hnone; discriminate|].
  destruct (emits_set_status_send E self number id Hid w) as (send_evs & Ht & Hall).
  destruct (set_status E self id "send" w) as [[st|e|] w1] eqn:Hset;
    [|left; simpl in *; rewrite (new_events_app _ _ _ Ht);
      split; [exact Hall | discriminate] ..].
  right. simpl in Ht.
  destruct (set_status_Ok E self s id st w w1 Hs Hset)
    as (Hkey & b & fails & rq & r & Hev & Hf & Hh).
  rewrite (new_events_app _ _ _ Ht) in Hev.
  exists s, id, st, w1, b, send_evs, fails, rq, r.
  repeat (split; [first [assumption | reflexivity]|]). reflexivity.
Qed.

Lemma app_eq_app_cons {A} (l1 l2 pre post : list A) (x : A) :
  (l1 ++ l2 = pre ++ x :: post)%list ->
  In x l1 \/ exists pre', l2 = (pre' ++ x :: post)%list.
Proof.
  revert pre. induction l1 as [|a l1 IH]; intros pre Heq; simpl in Heq.
  - right. now exists pre.
  - destruct pre as [|p pre]; simpl in Heq; injection Heq as -> Heq.
    + left. now left.
    + destruct (IH pre Heq) as [Hin | Hex]; [left; now right | now right].
Qed.

(** C7: when the answer to a poll is a success payload whose field
    [smsCode] is a non-empty list of codes, that answer is the last event
    of the call and the call returns the last code of the list. *)
Theorem C7_last_code_of_list (E : env) (fuel self : nat) (number : val)
    (timeout per_attempt : Z) (w : world)
    (pre post : list event) (rq : request) (d : dict) (codes : list val)
    (code : val) :
  let out := wait_sms_code E fuel self number timeout per_attempt w in
  new_events w (snd out) = (pre ++ EvGet rq (Body (VDict d)) :: post)%list ->
  rq_uri rq = "/api/getSmsCode/" ->
  is_success_payload (VDict d) = true ->
  dict_get d "smsCode" = Some (VList (codes ++ [code])) ->
  fst out = Ok code /\ post = [].
Proof.
  intros out Hev Huri Hok Hsms.
  assert (Hcl : code_list (Body (VDict d)) = Some (codes ++ [code])%list).
  { unfold code_list. now rewrite Hok, Hsms. }
  assert (Hnot : forall evs, Forall (is_send_attempt number) evs ->
                   ~ In (EvGet rq (Body (VDict d))) evs).
  { intros evs Hall Hin. rewrite List.Forall_forall in Hall.
    apply Hall in Hin. simpl in Hin. destruct Hin as [Hu _].
    rewrite Huri in Hu. discriminate. }
  destruct (wait_sms_code_run E fuel self number timeout per_attempt w)
    as [[Hall _] | (s & id & st & w1 & b & send_evs & fails & rq0 & r & Hs & Hkey
                    & Hid & Hset & Hh & Ht & Hall & _ & _ & Hout)].
  - exfalso. apply (Hnot _ Hall). fold out. rewrite Hev.
    apply in_or_app. right. now left.
  - fold out in Hout.
    destruct (wait_loop_polls E self (pin s b) b
                [("idNum", id); ("all", VStr "None")] (w_now w1) timeout
                per_attempt eq_refl Hkey fuel w1 Hh) as (evs & Htl & Hp).
    rewrite <- Hout in Htl, Hp.
    assert (Hnew : new_events w (snd out) = (send_evs ++ evs)%list).
    { apply new_events_app. rewrite Htl, Ht. now rewrite app_assoc. }
    rewrite Hnew in Hev.
    destruct (app_eq_app_cons _ _ _ _ _ Hev) as [Hin | [pre' Hevs]].
    + exfalso. exact (Hnot _ Hall Hin).
    + destruct (polls_code_list _ _ Hp pre' rq _ post _ Hevs Hcl) as [Hr Hpost].
      split; [|exact Hpost]. rewrite Hr. unfold last_item. now rewrite last_snoc.
Qed.

Lemma C7_last_code_of_list_witness :
  fst (wait_sms_code E_two_codes 10 0 (VStr "n1") 300 5 one_session)
  = Ok (VStr "2222").
Proof.
  refine (proj1 (C7_last_code_of_list E_two_codes 10 0 (VStr "n1") 300 5 one_session
    [EvGet {| rq_base := "https://vak-sms.com"; rq_uri := "/api/setStatus";
              rq_headers := request_headers;
              rq_params := [("idNum", VStr "n1"); ("status", VStr "send");
                            ("apiKey", VStr "key")];
              rq_timeout := 10 |}
       (Body (VDict [("status", VStr "ready"); ("smsCode", VNone)]));
     EvSleep 5;
     EvGet {| rq_base := "https://vak-sms.com"; rq_uri := "/api/getSmsCode/";
              rq_headers := request_headers;
              rq_params := [("idNum", VStr "n1"); ("all", VStr "None");
                            ("apiKey", VStr "key")];
              rq_timeout := 10 |}
       (Body (VDict [("status", VStr "ready"); ("smsCode", VNone)]));
     EvSleep 5;
     EvGet {| rq_base := "https://vak-sms.com"; rq_uri := "/api/getSmsCode/";
              rq_headers := request_headers;
              rq_params := [("idNum", VStr "n1"); ("all", VStr "None");
                            ("apiKey", VStr "key")];
              rq_timeout := 10 |}
       (Body (VDict [("status", VStr "ready"); ("smsCode", VNone)]));
     EvSleep 5]
    []
    {| rq_base := "https://vak-sms.com"; rq_uri := "/api/getSmsCode/";
       rq_headers := request_headers;
       rq_params := [("idNum", VStr "n1"); ("all", VStr "None");
                     ("apiKey", VStr "key")];
       rq_timeout := 10 |}
    [("status", VStr "ready"); ("smsCode", VList [VStr "1111"; VStr "2222"])]
    [VStr "1111"] (VStr "2222") _ _ _ _)); vm_compute; reflexivity.
Defined.


(** *** The loop when the interval is not shorter than the timeout *)

Lemma Qltb_false (x y : Q) : (y <= x)%Q -> Qltb x y = false.
Proof.
  intros H. unfold Qltb. apply negb_false_iff. now apply Qle_bool_iff.
Qed.

Lemma Qltb_true (x y : Q) : Qltb x y = true -> (x < y)%Q.
Proof.
  unfold Qltb. intros H. apply negb_true_iff in H.
  apply Qnot_le_lt. intros Hle. apply Qle_bool_iff in Hle. congruence.
Qed.

Section ShortWait.

Variable E : env.
Variables (self : nat) (s : Vaksms) (b : string).
Variables (params : dict) (start_time : Q) (timeout per_attempt : Z).
Hypothesis Hpinned : _base_url s = Some b.
Hypothesis Hkey : key_ok s true = true.
Hypothesis Hclock : clock_monotone E.
Hypothesis Hshort : (timeout <= per_attempt)%Z.



End ShortWait.

Lemma count_polls_app evs1 evs2 :
  count_polls (evs1 ++ evs2) = count_polls evs1 + count_polls evs2.
Proof. unfold count_polls. now rewrite List.filter_app, length_app. Qed.

Lemma count_polls_send_attempts number evs :
  Forall (is_send_attempt number) evs -> count_polls evs = 0.
Proof.
  induction 1 as [|e evs He _ IH]; [reflexivity|].
  unfold count_polls in *. simpl.
  destruct e as [rq o| |]; simpl in *; try exact IH.
  destruct He as [Hu _]. now rewrite Hu.
Qed.



(** *** The cache *)

Lemma hval_eqb_refl h : hval_eqb h h = true.
Proof.
  destruct h; simpl; auto using Z.eqb_refl, String.eqb_refl.
  now destruct b.
Qed.

Lemma list_eqb_refl {A} (eqb : A -> A -> bool) l :
  (forall x, eqb x x = true) -> list_eqb eqb l l = true.
Proof. intros H. induction l; simpl; [reflexivity | now rewrite H, IHl]. Qed.

Lemma hashkey_eqb_refl k : hashkey_eqb k k = true.
Proof.
  unfold hashkey_eqb. rewrite Nat.eqb_refl. simpl.
  rewrite !list_eqb_refl; [reflexivity | | apply hval_eqb_refl].
  intros [n h]. unfold kwarg_eqb. simpl. now rewrite String.eqb_refl, hval_eqb_refl.
Qed.

(** Keys of different receivers are different keys. *)
Lemma make_key_other self self2 args kwargs args2 kwargs2 :
  self <> self2 ->
  hashkey_eqb (make_key self args kwargs) (make_key self2 args2 kwargs2) = false.
Proof.
  intros Hne. unfold hashkey_eqb. simpl.
  apply Nat.eqb_neq in Hne. now rewrite Hne.
Qed.

Lemma find_item_None k its :
  find_item k its = None <->
  Forall (fun it => hashkey_eqb (fst (fst it)) k = false) its.
Proof.
  induction its as [|it its IH]; simpl.
  - split; [constructor | reflexivity].
  - destruct (hashkey_eqb (fst (fst it)) k) eqn:Hk.
    + split; [discriminate|]. intros H. inversion H; congruence.
    + rewrite IH. split; [now constructor | now inversion 1].
Qed.

Lemma find_item_Some k its it :
  find_item k its = Some it -> In it its /\ hashkey_eqb (fst (fst it)) k = true.
Proof.
  induction its as [|it' its IH]; simpl; [discriminate|].
  destruct (hashkey_eqb (fst (fst it')) k) eqn:Hk.
  - intros H. injection H as <-. split; [now left | exact Hk].
  - intros H. destruct (IH H). split; [now right | assumption].
Qed.

Lemma find_item_app k l1 l2 :
  find_item k (l1 ++ l2) =
  match find_item k l1 with
  | Some it => Some it
  | None => find_item k l2
  end.
Proof.
  induction l1 as [|it l1 IH]; simpl; [reflexivity|].
  now destruct (hashkey_eqb (fst (fst it)) k).
Qed.

Lemma find_item_remove k its : find_item k (remove_item k its) = None.
Proof.
  apply find_item_None. unfold remove_item.
  apply List.Forall_forall. intros it Hin. apply List.filter_In in Hin.
  destruct Hin as [_ H]. now apply negb_true_iff in H.
Qed.

Lemma remove_item_In k its it : In it (remove_item k its) -> In it its.
Proof. unfold remove_item. intros H. now apply List.filter_In in H. Qed.

(** An item that is found and moved to the end is found again. *)
Lemma find_item_moved k its it :
  hashkey_eqb (fst (fst it)) k = true ->
  find_item k (remove_item k its ++ [it]) = Some it.
Proof.
  intros Hk. rewrite find_item_app, find_item_remove. simpl. now rewrite Hk.
Qed.

Lemma Forall_not_key_filter (k : hashkey) f (its : list (hashkey * val * Q)) :
  Forall (fun it => hashkey_eqb (fst (fst it)) k = false) its ->
  Forall (fun it => hashkey_eqb (fst (fst it)) k = false) (List.filter f its).
Proof.
  rewrite !List.Forall_forall. intros H it Hin.
  apply List.filter_In in Hin. now apply H.
Qed.

Lemma Forall_not_key_drop (k : hashkey) n (its : list (hashkey * val * Q)) :
  Forall (fun it => hashkey_eqb (fst (fst it)) k = false) its ->
  Forall (fun it => hashkey_eqb (fst (fst it)) k = false) (drop n its).
Proof. apply Forall_drop. Qed.

(** A lookup stores nothing. *)
Lemma getitem_In c k now it :
  In it (items (snd (TTLCache_getitem c k now))) -> In it (items c).
Proof.
  unfold TTLCache_getitem.
  destruct (find_item k (items c)) as [it0|] eqn:Hf; [|trivial].
  apply find_item_Some in Hf. destruct Hf as [Hin _].
  destruct (Qltb now (snd it0)); simpl; intros H;
    (apply in_app_or in H; destruct H as [H | [<- | []]];
     [now apply remove_item_In in H | exact Hin]).
Qed.

Lemma getitem_params c k now :
  maxsize (snd (TTLCache_getitem c k now)) = maxsize c
  /\ ttl (snd (TTLCache_getitem c k now)) = ttl c.
Proof.
  unfold TTLCache_getitem. destruct (find_item k (items c)) as [it0|]; [|tauto].
  now destruct (Qltb now (snd it0)).
Qed.

(** A lookup that misses misses again later. *)
Lemma getitem_miss_later c k t t' :
  fst (TTLCache_getitem c k t) = None -> (t <= t')%Q ->
  fst (TTLCache_getitem (snd (TTLCache_getitem c k t)) k t') = None.
Proof.
  unfold TTLCache_getitem at 1 3.
  destruct (find_item k (items c)) as [it|] eqn:Hf; simpl.
  - destruct (Qltb t (snd it)) eqn:Hlt; [discriminate|]. intros _ Hle. simpl.
    unfold TTLCache_getitem. simpl.
    rewrite (find_item_moved k (items c) it) by (now apply find_item_Some in Hf).
    rewrite Qltb_false; [reflexivity|].
    unfold Qltb in Hlt. apply negb_false_iff, Qle_bool_iff in Hlt. lra.
  - intros _ _. unfold TTLCache_getitem. now rewrite Hf.
Qed.

(** A lookup of a key leaves another key absent. *)
Lemma getitem_other_absent c k k2 now :
  find_item k2 (items c) = None ->
  find_item k2 (items (snd (TTLCache_getitem c k now))) = None.
Proof.
  intros Habs. apply find_item_None. apply List.Forall_forall.
  intros it Hin. apply getitem_In in Hin.
  apply find_item_None in Habs. rewrite List.Forall_forall in Habs. now apply Habs.
Qed.

(** What a store leaves in the cache: the value under the key, fresh for
    the time to live. *)
Lemma setitem_find c k v now :
  1 <= maxsize c ->
  exists k0,
    find_item k (items (snd (TTLCache_setitem c k v now)))
    = Some (k0, v, (now + ttl c)%Q).
Proof.
  intros Hmax. unfold TTLCache_setitem.
  destruct (maxsize c <? 1)%nat eqn:Hlt; [apply Nat.ltb_lt in Hlt; lia|].
  destruct (find_item k (expire now (items c))) as [it|] eqn:Hf; simpl.
  - exists (fst (fst it)). apply find_item_moved. simpl.
    now apply find_item_Some in Hf.
  - exists k. rewrite find_item_app.
    assert (Hd : find_item k (drop (length (expire now (items c)) + 1 - maxsize c)
                                (expire now (items c))) = None).
    { apply find_item_None, Forall_not_key_drop. now apply find_item_None. }
    rewrite Hd. simpl. now rewrite hashkey_eqb_refl.
Qed.

(** A store under a key leaves a different key absent. *)
Lemma setitem_other_absent c k k2 v now :
  hashkey_eqb k k2 = false ->
  find_item k2 (items c) = None ->
  find_item k2 (items (snd (TTLCache_setitem c k v now))) = None.
Proof.
  intros Hne Habs. apply find_item_None in Habs.
  assert (Hexp : Forall (fun it => hashkey_eqb (fst (fst it)) k2 = false)
                   (expire now (items c))) by now apply Forall_not_key_filter.
  unfold TTLCache_setitem.
  destruct (maxsize c <? 1)%nat; simpl; [now apply find_item_None|].
  destruct (find_item k (expire now (items c))) as [it|] eqn:Hf; simpl;
    apply find_item_None, Forall_app; split.
  - now apply Forall_not_key_filter.
  - constructor; [|constructor]. simpl.
    apply find_item_Some in Hf. destruct Hf as [Hin _].
    rewrite List.Forall_forall in Hexp. now apply Hexp.
  - now apply Forall_not_key_drop.
  - constructor; [exact Hne | constructor].
Qed.

(** *** Worlds and caches *)

Lemma get_set_cache n c w : get_cache n (set_cache n c w) = c.
Proof. now destruct n. Qed.

Lemma get_set_cache_ne n n' c w :
  n' <> n -> get_cache n' (set_cache n c w) = get_cache n' w.
Proof. destruct n, n'; simpl; congruence. Qed.

Lemma frame_set_cache_events w w' n c :
  new_events (set_cache n c w) w' = new_events w w'.
Proof. reflexivity. Qed.

(** *** The wrapper of [cached] *)

Lemma sends_nil w w' : new_events w w' = [] -> ~ sends w w'.
Proof. intros H (rq & o & Hin). rewrite H in Hin. destruct Hin. Qed.

Lemma Qltb_intro (x y : Q) : (x < y)%Q -> Qltb x y = true.
Proof.
  intros H. unfold Qltb. apply negb_true_iff.
  destruct (Qle_bool y x) eqn:Hle; [|reflexivity].
  apply Qle_bool_iff in Hle. lra.
Qed.

Lemma key_ok_pin s b akr : key_ok (pin s b) akr = key_ok s akr.
Proof. reflexivity. Qed.

Section CachedCalls.

Variable E : env.
Variable n : cache_name.
Variable func : nat -> list hval -> list (string * hval) -> M val.
Variable akr : bool.
Variable binds : list hval -> list (string * hval) -> Prop.

Hypothesis Hframed : forall self args kwargs, framed E self (func self args kwargs).

Hypothesis Hsends : forall self args kwargs w,
  sends w (snd (func self args kwargs w)) <->
  binds args kwargs /\ exists s, w_heap w !! self = Some s /\ key_ok s akr = true.

(** A call that raises missed the cache and ran the operation. *)
Lemma cached_Raise self args kwargs w e w1 :
  cached n func self args kwargs w = (Raise e, w1) ->
  let g := TTLCache_getitem (get_cache n w) (make_key self args kwargs) (w_now w) in
  fst g = None /\ func self args kwargs (set_cache n (snd g) w) = (Raise e, w1).
Proof.
  unfold cached.
  destruct (TTLCache_getitem _ _ _) as [[v|] c]; [discriminate|]. simpl.
  destruct (func self args kwargs (set_cache n c w)) as [[v|e'|] w'];
    intros H; try discriminate. now injection H as -> ->.
Qed.

(** A call that made a request missed the cache and ran the operation; the
    world it leaves differs from the one the operation left by the store. *)
Lemma cached_sends self args kwargs w :
  sends w (snd (cached n func self args kwargs w)) ->
  let g := TTLCache_getitem (get_cache n w) (make_key self args kwargs) (w_now w) in
  let out := func self args kwargs (set_cache n (snd g) w) in
  fst g = None
  /\ sends (set_cache n (snd g) w) (snd out)
  /\ fst (cached n func self args kwargs w) = fst out
  /\ snd (cached n func self args kwargs w) =
     match fst out with
     | Ok v =>
         set_cache n
           (snd (TTLCache_setitem (get_cache n (snd out))
                   (make_key self args kwargs) v (w_now (snd out)))) (snd out)
     | _ => snd out
     end.
Proof.
  unfold cached.
  destruct (TTLCache_getitem _ _ _) as [[v|] c]; simpl.
  { intros H. exfalso. revert H. apply sends_nil, new_events_app.
    simpl. now rewrite app_nil_r. }
  destruct (func self args kwargs (set_cache n c w)) as [[v|e'|] w']; simpl; auto.
Qed.

(** A call that misses the cache makes a request when the arguments bind
    and the session passes the guard. *)
Lemma cached_miss_sends self s args kwargs w :
  fst (TTLCache_getitem (get_cache n w) (make_key self args kwargs) (w_now w)) = None ->
  binds args kwargs ->
  w_heap w !! self = Some s -> key_ok s akr = true ->
  sends w (snd (cached n func self args kwargs w)).
Proof.
  intros Hmiss Hb Hs Hk. unfold cached.
  destruct (TTLCache_getitem _ _ _) as [[v|] c]; simpl in Hmiss; [discriminate|].
  assert (Hrun : sends (set_cache n c w) (snd (func self args kwargs (set_cache n c w)))).
  { apply Hsends. split; [exact Hb|]. now exists s. }
  destruct (func self args kwargs (set_cache n c w)) as [[v|e'|] w']; exact Hrun.
Qed.

(** A call that raises stores nothing. *)
Lemma cached_Raise_stores_nothing self args kwargs w e w1 :
  cached n func self args kwargs w = (Raise e, w1) ->
  forall n0 it, In it (items (get_cache n0 w1)) -> In it (items (get_cache n0 w)).
Proof.
  intros Hrun n0 it. destruct (cached_Raise _ _ _ _ _ _ Hrun) as [_ Hf].
  set (c := snd (TTLCache_getitem (get_cache n w) (make_key self args kwargs)
                   (w_now w))) in *.
  pose proof (fr_caches _ _ _ _ (Hframed self args kwargs (set_cache n c w)) n0) as Hc.
  rewrite Hf in Hc. simpl in Hc. rewrite Hc.
  pose proof (getitem_In (get_cache n w) (make_key self args kwargs) (w_now w) it) as Hin.
  fold c in Hin. destruct n, n0; simpl; auto.
Qed.

(** After a call that made a request and raised, the same call makes a
    request again. *)
Lemma cached_Raise_retries self args kwargs w e w1 :
  clock_monotone E ->
  cached n func self args kwargs w = (Raise e, w1) ->
  sends w w1 ->
  sends w1 (snd (cached n func self args kwargs w1)).
Proof.
  intros Hclock Hrun Hsent.
  destruct (cached_Raise _ _ _ _ _ _ Hrun) as [Hmiss Hf].
  set (c := snd (TTLCache_getitem (get_cache n w) (make_key self args kwargs)
                   (w_now w))) in *.
  pose proof (Hframed self args kwargs (set_cache n c w)) as Hfr.
  rewrite Hf in Hfr. simpl in Hfr.
  assert (Hsent' : sends (set_cache n c w) (snd (func self args kwargs (set_cache n c w))))
    by (rewrite Hf; exact Hsent).
  apply Hsends in Hsent'. destruct Hsent' as (Hb & s & Hs & Hk).
  assert (Hs1 : exists s1, w_heap w1 !! self = Some s1 /\ key_ok s1 akr = true).
  { destruct (fr_self _ _ _ _ Hfr s Hs) as [H | (_ & b & H)]; eauto. }
  destruct Hs1 as (s1 & Hs1 & Hk1).
  apply (cached_miss_sends self s1); try assumption.
  rewrite (fr_caches _ _ _ _ Hfr n), get_set_cache.
  apply getitem_miss_later; [exact Hmiss|].
  apply (fr_clock _ _ _ _ Hfr Hclock).
Qed.

(** After a call that made a request and returned, the same call of the
    same session returns the stored value without a request until the time
    to live has passed. *)
Lemma cached_hit_after_store self args kwargs w v w1 :
  1 <= maxsize (get_cache n w) ->
  cached n func self args kwargs w = (Ok v, w1) ->
  sends w w1 ->
  forall w2,
    get_cache n w2 = get_cache n w1 ->
    (w_now w2 < w_now w1 + ttl (get_cache n w))%Q ->
    fst (cached n func self args kwargs w2) = Ok v
    /\ new_events w2 (snd (cached n func self args kwargs w2)) = [].
Proof.
  intros Hmax Hrun Hsent w2 Hc2 Hnow.
  assert (Hsent' : sends w (snd (cached n func self args kwargs w)))
    by (rewrite Hrun; exact Hsent).
  destruct (cached_sends _ _ _ _ Hsent') as (_ & _ & Hfst & Hsnd).
  rewrite Hrun in Hfst, Hsnd. simpl in Hfst, Hsnd.
  set (c := snd (TTLCache_getitem (get_cache n w) (make_key self args kwargs)
                   (w_now w))) in *.
  pose proof (Hframed self args kwargs (set_cache n c w)) as Hfr.
  destruct (func self args kwargs (set_cache n c w)) as [r w'].
  simpl in Hfst, Hsnd, Hfr. subst r.
  pose proof (fr_caches _ _ _ _ Hfr n) as Hc. rewrite get_set_cache in Hc.
  destruct (getitem_params (get_cache n w) (make_key self args kwargs) (w_now w))
    as [Hm Ht]. fold c in Hm, Ht.
  destruct (setitem_find (get_cache n w') (make_key self args kwargs) v (w_now w'))
    as (k0 & Hfind); [rewrite Hc, Hm; exact Hmax|].
  assert (Hcache : get_cache n w2
                   = snd (TTLCache_setitem (get_cache n w')
                            (make_key self args kwargs) v (w_now w'))).
  { rewrite Hc2, Hsnd. apply get_set_cache. }
  assert (Hnow' : (w_now w2 < w_now w' + ttl (get_cache n w'))%Q).
  { rewrite Hc, Ht. rewrite Hsnd in Hnow. destruct n; exact Hnow. }
  unfold cached, TTLCache_getitem. rewrite Hcache, Hfind. simpl.
  rewrite (Qltb_intro _ _ Hnow'). simpl.
  split; [reflexivity|]. apply new_events_app. destruct n; simpl; now rewrite app_nil_r.
Qed.

(** After a call of one session that made a request, the same call of
    another session, which has no entry of its own, makes a request. *)
Lemma cached_other_session self self2 s2 args kwargs w :
  self2 <> self ->
  sends w (snd (cached n func self args kwargs w)) ->
  find_item (make_key self2 args kwargs) (items (get_cache n w)) = None ->
  w_heap w !! self2 = Some s2 -> key_ok s2 akr = true ->
  let w1 := snd (cached n func self args kwargs w) in
  sends w1 (snd (cached n func self2 args kwargs w1)).
Proof.
  intros Hne Hsent Habs Hs2 Hk2 w1. subst w1.
  destruct (cached_sends _ _ _ _ Hsent) as (_ & Hran & _ & Hsnd).
  set (c := snd (TTLCache_getitem (get_cache n w) (make_key self args kwargs)
                   (w_now w))) in *.
  pose proof (Hframed self args kwargs (set_cache n c w)) as Hfr.
  apply Hsends in Hran. destruct Hran as [Hb _].
  set (out := func self args kwargs (set_cache n c w)) in *.
  assert (Habs' : find_item (make_key self2 args kwargs) (items (get_cache n (snd out)))
                  = None).
  { rewrite (fr_caches _ _ _ _ Hfr n), get_set_cache.
    now apply getitem_other_absent. }
  assert (Hheap : w_heap (snd out) !! self2 = Some s2).
  { rewrite (fr_others _ _ _ _ Hfr self2 Hne). destruct n; exact Hs2. }
  rewrite Hsnd.
  destruct (fst out) as [v|e|].
  - apply (cached_miss_sends self2 s2); try assumption.
    rewrite get_set_cache. unfold TTLCache_getitem.
    rewrite setitem_other_absent; [reflexivity | | exact Habs'].
    apply make_key_other. congruence.
  - apply (cached_miss_sends self2 s2); try assumption.
    unfold TTLCache_getitem. now rewrite Habs'.
  - apply (cached_miss_sends self2 s2); try assumption.
    unfold TTLCache_getitem. now rewrite Habs'.
Qed.

End CachedCalls.

(** *** The three cached operations *)

Lemma bind_rest_length names :
  forall args kwargs vs,
    bind_rest names args kwargs = Ok vs -> length vs = length names.
Proof.
  induction names as [|[name default] names IH]; intros args kwargs vs;
    destruct args as [|a args]; simpl; try discriminate.
  - now intros [= <-].
  - destruct (kwargs_get kwargs name) as [v|], default as [d|]; try discriminate;
      (destruct (bind_rest names [] kwargs) as [vs'|e|] eqn:Hr; try discriminate;
       intros [= <-]; simpl; f_equal; eapply IH; eauto).
  - destruct (kwargs_get kwargs name); try discriminate.
    destruct (bind_rest names args kwargs) as [vs'|e|] eqn:Hr; try discriminate.
    intros [= <-]. simpl. f_equal. eapply IH; eauto.
Qed.

Lemma bind_args_length names args kwargs vs :
  bind_args names args kwargs = Ok vs -> length vs = length names.
Proof.
  unfold bind_args. destruct (forallb _ kwargs); [apply bind_rest_length | discriminate].
Qed.

Lemma create_request_sends_iff E self uri params akr w :
  sends w (snd (__create_request E self uri params akr w)) <->
  exists s, w_heap w !! self = Some s /\ key_ok s akr = true.
Proof.
  split.
  - intros Hsent. destruct (w_heap w !! self) as [s|] eqn:Hs.
    + exists s. split; [reflexivity|]. destruct (key_ok s akr) eqn:Hk; [reflexivity|].
      rewrite (create_request_no_key E _ _ _ _ _ _ Hs Hk) in Hsent.
      exfalso. revert Hsent. apply sends_nil, new_events_refl.
    + exfalso. revert Hsent. unfold __create_request, bind, get_self. rewrite Hs.
      apply sends_nil, new_events_refl.
  - intros (s & Hs & Hk).
    destruct (create_request_sends E self s uri params akr w Hs Hk) as (b & o & evs & Hev).
    exists (request_of s b uri params), o. rewrite Hev. now left.
Qed.

Lemma pure_not_sends {A} (m : M A) w : pure m -> ~ sends w (snd (m w)).
Proof. intros Hm. rewrite Hm. apply sends_nil, new_events_refl. Qed.

Lemma pure_get_count_number_post mi (response : val) :
  pure (do k <- lift (first_key response);
        do response <- lift (setitem response "service" (VStr k));
        do k <- lift (first_key response);
        do count <- lift (getitem response k);
        do response <- lift (setitem response "count" count);
        do kwargs <- lift (mapping_of response);
        new_model mi "CountNumber" [] kwargs).
Proof. solve_pure. Qed.

Lemma pure_get_country_list_post mi (response : val) :
  pure (do m <- new_model mi "CountryList" [response] [];
        lift (getattr m "root")).
Proof. solve_pure. Qed.

Lemma pure_get_count_number_list_post mi self (response : val) :
  pure match response with
       | VDict entries => build_services mi self entries []
       | _ => raise (AttributeError "keys")
       end.
Proof. destruct response; auto with client. apply pure_build_services. Qed.

Lemma framed_op_wrapped E mi op self args kwargs :
  framed E self (op_wrapped E mi op self args kwargs).
Proof.
  destruct op; simpl;
    [unfold get_count_number_wrapped | unfold get_country_list_wrapped
     | unfold get_count_number_list_wrapped];
    destruct (bind_args _ args kwargs) as [vs|e|];
    try solve [apply framed_pure; solve_pure].
  - destruct vs as [|service [|operator [|country [|]]]];
      try solve [apply framed_pure; solve_pure].
    apply framed_bind; [apply framed_create_request|].
    intros response. apply framed_pure, pure_get_count_number_post.
  - destruct vs; try solve [apply framed_pure; solve_pure].
    apply framed_bind; [apply framed_create_request|].
    intros response. apply framed_pure, pure_get_country_list_post.
  - destruct vs as [|country [|operator [|rent [|]]]];
      try solve [apply framed_pure; solve_pure].
    apply framed_bind; [apply framed_create_request|].
    intros response. apply framed_pure, pure_get_count_number_list_post.
Qed.

(** An operation makes a request exactly when the arguments bind and the
    session passes the guard. *)
Lemma sends_op_wrapped E mi op self args kwargs w :
  sends w (snd (op_wrapped E mi op self args kwargs w)) <->
  op_binds op args kwargs
  /\ exists s, w_heap w !! self = Some s /\ key_ok s (op_key_required op) = true.
Proof.
  unfold op_binds.
  destruct op; simpl;
    [unfold get_count_number_wrapped | unfold get_country_list_wrapped
     | unfold get_count_number_list_wrapped];
    destruct (bind_args _ args kwargs) as [vs|e|] eqn:Hb;
    try solve [split; [intros H; exfalso; revert H; apply pure_not_sends; solve_pure
                      | intros [[vs' Hvs] _]; discriminate]];
    pose proof (bind_args_length _ _ _ _ Hb) as Hlen.
  - destruct vs as [|service [|operator [|country [|]]]]; try discriminate Hlen.
    unfold get_count_number_body.
    rewrite snd_bind_pure by (intros; apply pure_get_count_number_post).
    rewrite create_request_sends_iff. split; [intros H; split; eauto | tauto].
  - destruct vs; try discriminate Hlen.
    unfold get_country_list_body.
    rewrite snd_bind_pure by (intros; apply pure_get_country_list_post).
    rewrite create_request_sends_iff. split; [intros H; split; eauto | tauto].
  - destruct vs as [|country [|operator [|rent [|]]]]; try discriminate Hlen.
    unfold get_count_number_list_body.
    rewrite snd_bind_pure by (intros; apply pure_get_count_number_list_post).
    rewrite create_request_sends_iff. split; [intros H; split; eauto | tauto].
Qed.

Lemma call_cached_eq E mi op :
  call_cached E mi op = cached (op_cache op) (op_wrapped E mi op).
Proof. now destruct op. Qed.

(** A request that returns, or that raises the provider error or the
    connectivity error, went out. *)
Lemma create_request_result_sends E self uri params akr w r w1 :
  __create_request E self uri params akr w = (r, w1) ->
  match r with
  | Ok _ => True
  | Raise e => is_request_error e
  | Stuck => False
  end ->
  sends w w1.
Proof.
  intros Hrun Hr.
  replace w1 with (snd (__create_request E self uri params akr w)) by now rewrite Hrun.
  apply create_request_sends_iff.
  destruct (w_heap w !! self) as [s|] eqn:Hs.
  - exists s. split; [reflexivity|]. destruct (key_ok s akr) eqn:Hk; [reflexivity|].
    rewrite (create_request_no_key E _ _ _ _ _ _ Hs Hk) in Hrun.
    injection Hrun as <- _. simpl in Hr. discriminate Hr.
  - unfold __create_request, bind, get_self in Hrun. rewrite Hs in Hrun.
    injection Hrun as <- _. destruct Hr.
Qed.

(** The same for an operation that makes the request and then works on the
    response without touching the world. *)
Lemma bind_request_error_sends E self uri params akr (post : val -> M val) w e w1 :
  (forall response, pure (post response)) ->
  bind (__create_request E self uri params akr) post w = (Raise e, w1) ->
  is_request_error e ->
  sends w w1.
Proof.
  intros Hpost Hrun He. unfold bind in Hrun.
  destruct (__create_request E self uri params akr w) as [[response|e'|] w'] eqn:Hreq.
  - pose proof (Hpost response w') as Hw. rewrite Hrun in Hw. simpl in Hw. subst w'.
    now apply (create_request_result_sends E self uri params akr w (Ok response)).
  - injection Hrun as -> ->.
    now apply (create_request_result_sends E self uri params akr w (Raise e)).
  - discriminate.
Qed.

Lemma bind_rest_Raise names :
  forall args kwargs e,
    bind_rest names args kwargs = Raise e -> exists msg, e = TypeError msg.
Proof.
  induction names as [|[name default] names IH]; intros args kwargs e;
    destruct args as [|a args]; simpl; try discriminate.
  - intros [= <-]. eauto.
  - destruct (kwargs_get kwargs name) as [v|], default as [d|];
      try (intros [= <-]; eauto; fail);
      (destruct (bind_rest names [] kwargs) as [vs'|e'|] eqn:Hr; try discriminate;
       intros [= <-]; eapply IH; eauto).
  - destruct (kwargs_get kwargs name); [intros [= <-]; eauto|].
    destruct (bind_rest names args kwargs) as [vs'|e'|] eqn:Hr; try discriminate.
    intros [= <-]. eapply IH; eauto.
Qed.

Lemma bind_args_Raise names args kwargs e :
  bind_args names args kwargs = Raise e -> exists msg, e = TypeError msg.
Proof.
  unfold bind_args. destruct (forallb _ kwargs); [apply bind_rest_Raise|].
  intros [= <-]. eauto.
Qed.

Lemma op_wrapped_request_error_sends E mi op self args kwargs w e w1 :
  op_wrapped E mi op self args kwargs w = (Raise e, w1) ->
  is_request_error e ->
  sends w w1.
Proof.
  destruct op; simpl;
    [unfold get_count_number_wrapped | unfold get_country_list_wrapped
     | unfold get_count_number_list_wrapped];
    destruct (bind_args _ args kwargs) as [vs|e'|] eqn:Hb;
    try solve [apply bind_args_Raise in Hb; destruct Hb as [msg ->];
               intros [= <- <-] He; destruct He];
    try solve [intros [= ]].
  - destruct vs as [|service [|operator [|country [|]]]]; try solve [intros [= ]].
    apply bind_request_error_sends. intros; apply pure_get_count_number_post.
  - destruct vs; try solve [intros [= ]].
    apply bind_request_error_sends. intros; apply pure_get_country_list_post.
  - destruct vs as [|country [|operator [|rent [|]]]]; try solve [intros [= ]].
    apply bind_request_error_sends. intros; apply pure_get_count_number_list_post.
Qed.

(** C4: for each of the three cached operations, a call that raises leaves
    no item in any cache that was not there before; when it had made a
    request, the same call made next makes a request again (the clocks not
    running backwards); and it had made a request when it raised the
    provider error or the connectivity error. *)
Theorem C4_failed_calls_are_not_cached (E : env)
    (mi : string -> list val -> dict -> exn + dict) (op : cached_op)
    (self : nat) (args : list hval) (kwargs : list (string * hval))
    (w w1 : world) (e : exn) :
  call_cached E mi op self args kwargs w = (Raise e, w1) ->
  (forall n it, In it (items (get_cache n w1)) -> In it (items (get_cache n w)))
  /\ (clock_monotone E -> sends w w1 ->
      sends w1 (snd (call_cached E mi op self args kwargs w1)))
  /\ (is_request_error e -> sends w w1).
Proof.
  rewrite call_cached_eq. intros Hrun. split; [|split].
  - eapply cached_Raise_stores_nothing; [|exact Hrun].
    intros. apply framed_op_wrapped.
  - intros Hclock Hsent.
    eapply (cached_Raise_retries E (op_cache op) (op_wrapped E mi op)
              (op_key_required op) (op_binds op)); eauto.
    + intros. apply framed_op_wrapped.
    + intros. apply sends_op_wrapped.
  - intros He. destruct (cached_Raise _ _ _ _ _ _ _ _ Hrun) as [_ Hf].
    eapply op_wrapped_request_error_sends in Hf; [|exact He]. exact Hf.
Qed.

Lemma C4_failed_calls_are_not_cached_witness :
  sends (snd (call_cached E_bad_key accept_all Get_count_number 0 [HStr "vk"] []
                one_session))
    (snd (call_cached E_bad_key accept_all Get_count_number 0 [HStr "vk"] []
            (snd (call_cached E_bad_key accept_all Get_count_number 0 [HStr "vk"] []
                    one_session)))).
Proof.
  pose proof (C4_failed_calls_are_not_cached E_bad_key accept_all
                Get_count_number 0 [HStr "vk"] [] one_session
                (snd (call_cached E_bad_key accept_all Get_count_number 0
                        [HStr "vk"] [] one_session))
                (VakSmsBadRequest (VStr "apiKeyNotFound"))) as H.
  destruct H as (_ & Hretry & Hsent); [vm_compute; reflexivity|].
  apply Hretry; [intros i; split; discriminate | apply Hsent; exact I].
Defined.

(** C5 (amended): the three caches are shared by all sessions, but the key
    of an entry contains the session. After a call that made a request and
    returned, the same call of the same session returns the stored value
    without a request for the next hour; the same call of another session,
    which has no entry of its own, makes a request of its own. *)
Theorem C5_entries_are_per_session (E : env)
    (mi : string -> list val -> dict -> exn + dict) (op : cached_op)
    (self : nat) (args : list hval) (kwargs : list (string * hval))
    (w w1 : world) (v : val) :
  module_caches w ->
  call_cached E mi op self args kwargs w = (Ok v, w1) ->
  sends w w1 ->
  (forall w2,
     get_cache (op_cache op) w2 = get_cache (op_cache op) w1 ->
     (w_now w2 < w_now w1 + 3600)%Q ->
     fst (call_cached E mi op self args kwargs w2) = Ok v
     /\ new_events w2 (snd (call_cached E mi op self args kwargs w2)) = [])
  /\ (forall self2 s2,
        self2 <> self ->
        w_heap w !! self2 = Some s2 ->
        key_ok s2 (op_key_required op) = true ->
        find_item (make_key self2 args kwargs) (items (get_cache (op_cache op) w))
        = None ->
        sends w1 (snd (call_cached E mi op self2 args kwargs w1))).
Proof.
  rewrite call_cached_eq. intros Hmod Hrun Hsent.
  destruct (Hmod (op_cache op)) as [Hmax Httl]. split.
  - intros w2 Hc Hnow. rewrite <- Httl in Hnow.
    eapply (cached_hit_after_store E (op_cache op) (op_wrapped E mi op)
              ltac:(intros; apply framed_op_wrapped)); eauto.
    lia.
  - intros self2 s2 Hne Hs2 Hk2 Habs.
    pose proof (cached_other_session E (op_cache op) (op_wrapped E mi op)
                  (op_key_required op) (op_binds op)
                  ltac:(intros; apply framed_op_wrapped)
                  ltac:(intros; apply sends_op_wrapped)
                  self self2 s2 args kwargs w Hne) as H.
    rewrite Hrun in H. simpl in H. now apply H.
Qed.

Lemma C5_entries_are_per_session_witness :
  sends (snd (call_cached E_stock accept_all Get_count_number 0 [HStr "vk"] []
                two_sessions))
    (snd (call_cached E_stock accept_all Get_count_number 1 [HStr "vk"] []
            (snd (call_cached E_stock accept_all Get_count_number 0 [HStr "vk"] []
                    two_sessions)))).
Proof.
  refine (proj2 (C5_entries_are_per_session E_stock accept_all Get_count_number
                   0 [HStr "vk"] [] two_sessions _
                   (VModel "CountNumber"
                      [("vk", VInt 0); ("price", VInt 10); ("service", VStr "vk");
                       ("count", VInt 0)]) _ _ _)
            1 {| _api_key := "key2"; _base_url := None; _timeout := 10 |} _ _ _ _).
  - intros n. destruct n; split; reflexivity.
  - vm_compute. reflexivity.
  - eexists _, _. vm_compute. left. reflexivity.
  - discriminate.
  - reflexivity.
  - reflexivity.
  - reflexivity.
Defined.

(** C5 as stated fails: the second session has a different key in the
    cache, so its call goes to the provider and returns what the provider
    answers then. *)
Lemma C5_counterexample :
  ~ shares_entry E_stock accept_all Get_count_number 0 1 [HStr "vk"] [] two_sessions.
Proof.
  unfold shares_entry. intros [_ H]. vm_compute in H. discriminate H.
Qed.

(** ** Further properties of the client *)

(** *** The requests of a session *)

Lemma create_request_from_session E self s uri params akr w :
  w_heap w !! self = Some s ->
  Forall (from_session s uri params)
    (new_events w (snd (__create_request E self uri params akr w))).
Proof.
  intros Hs. unfold __create_request, bind, get_self. rewrite Hs.
  destruct (akr && negb (truthy (VStr (_api_key s)))).
  { simpl. rewrite new_events_refl. constructor. }
  destruct (_base_url s) as [b|].
  - apply (emits_new_events (from_session s uri params)
             (_send_request E (Some b) uri request_headers
                (sent_params (_api_key s) params) (_timeout s))).
    apply emits_send_request. intros b' o. now exists b'.
  - apply (emits_new_events (from_session s uri params)
             (discover E self uri request_headers
                (sent_params (_api_key s) params) (_timeout s) base_urls)).
    apply emits_discover; [|intros; exact I]. intros b' o. now exists b'.
Qed.

Lemma sent_params_not_None key params :
  Forall (fun kv => snd kv <> VNone) (sent_params key params).
Proof.
  unfold sent_params. apply List.Forall_forall. intros [k v] Hin.
  apply List.filter_In in Hin. destruct Hin as [_ Hv].
  unfold is_not_None in Hv. simpl in *. intros ->. discriminate.
Qed.

Lemma dict_get_filter_None d k :
  dict_get d k = None -> dict_get (List.filter is_not_None d) k = None.
Proof.
  induction d as [|[k0 v0] d IH]; simpl; [reflexivity|].
  destruct (String.eqb_spec k0 k); [discriminate|]. intros H.
  destruct (is_not_None (k0, v0)); simpl; [|now apply IH].
  destruct (String.eqb_spec k0 k); [congruence | now apply IH].
Qed.

Lemma dict_get_sent_params_None key params k :
  k <> "apiKey" -> dict_get params k = None ->
  dict_get (sent_params key (Some params)) k = None.
Proof.
  intros Hk Hget. unfold sent_params. apply dict_get_filter_None.
  destruct (truthy (VStr key)); [|exact Hget]. now rewrite dict_get_set_ne.
Qed.

Lemma sent_params_apiKey key params :
  key <> "" -> dict_get (sent_params key params) "apiKey" = Some (VStr key).
Proof.
  intros Hkey. unfold sent_params.
  assert (Ht : truthy (VStr key) = true) by (simpl; destruct key; congruence).
  rewrite Ht. apply dict_get_filter; [apply dict_get_set_eq | discriminate].
Qed.

(** X1: every request [__create_request] sends for a session goes to the
    path asked for, with the two fixed headers and the timeout of the
    session; no parameter it carries is [None]; the caller's parameters
    that are not [None] are carried as they are; and the parameter [apiKey]
    is the key of the session when it has one, and is absent when it has
    none and the caller gave none. *)
Theorem X1_request_shape (E : env) (self : nat) (s : Vaksms) (uri : string)
    (params : option dict) (akr : bool) (w : world) (rq : request)
    (o : http_outcome) :
  w_heap w !! self = Some s ->
  In (EvGet rq o) (new_events w (snd (__create_request E self uri params akr w))) ->
  rq_uri rq = uri
  /\ rq_headers rq = [("Accept", "application/json");
                      ("Content-Type", "application/x-www-form-urlencoded")]
  /\ rq_timeout rq = _timeout s
  /\ Forall (fun kv => snd kv <> VNone) (rq_params rq)
  /\ (forall p k v, params = Some p -> k <> "apiKey" ->
        dict_get p k = Some v -> v <> VNone ->
        dict_get (rq_params rq) k = Some v)
  /\ (_api_key s <> "" ->
      dict_get (rq_params rq) "apiKey" = Some (VStr (_api_key s)))
  /\ (_api_key s = "" ->
      match params with
      | Some p => dict_get p "apiKey" = None
      | None => True
      end ->
      dict_get (rq_params rq) "apiKey" = None).
Proof.
  intros Hs Hin.
  pose proof (create_request_from_session E self s uri params akr w Hs) as Hall.
  rewrite List.Forall_forall in Hall. apply Hall in Hin.
  destruct Hin as [b ->]. simpl.
  repeat split.
  - apply sent_params_not_None.
  - intros p k v -> Hk Hget Hv. now apply dict_get_sent_params.
  - apply sent_params_apiKey.
  - intros Hkey Hp. rewrite Hkey. destruct params as [p|]; [|reflexivity].
    unfold sent_params. simpl. now apply dict_get_filter_None.
Qed.

Lemma X1_request_shape_witness :
  dict_get [("apiKey", VStr "key")] "apiKey" = Some (VStr "key").
Proof.
  refine (proj1 (proj2 (proj2 (proj2 (proj2 (proj2
            (X1_request_shape E_second_mirror 0
               {| _api_key := "key"; _base_url := None; _timeout := 10 |}
               "/api/getBalance" None true one_session
               {| rq_base := "https://moresms.net"; rq_uri := "/api/getBalance";
                  rq_headers := request_headers;
                  rq_params := [("apiKey", VStr "key")]; rq_timeout := 10 |}
               (Body (VDict [("balance", VInt 3)])) _ _)))))) _).
  - reflexivity.
  - vm_compute. right. right. left. reflexivity.
  - discriminate.
Defined.

(** *** The guard on the key *)

Lemma refused_bind_l {A} (m : M A) (k : A -> M val) w :
  snd (m w) = w -> (forall a, fst (m w) <> Ok a) -> refused w (bind m k w).
Proof.
  intros Hw Hr. unfold bind, refused.
  destruct (m w) as [[a|e|] w']; simpl in *; subst.
  - now destruct (Hr a).
  - split; [reflexivity | discriminate].
  - split; [reflexivity | discriminate].
Qed.

Lemma refused_bind_pure {A} (m : M A) (k : A -> M val) w :
  pure m -> (forall a, refused w (k a w)) -> refused w (bind m k w).
Proof.
  intros Hm Hk. unfold bind. specialize (Hm w).
  destruct (m w) as [[a|e|] w']; simpl in *; subst.
  - apply Hk.
  - split; [reflexivity | discriminate].
  - split; [reflexivity | discriminate].
Qed.

Lemma create_request_refused E self s uri params w :
  w_heap w !! self = Some s -> _api_key s = "" ->
  __create_request E self uri params true w
  = (Raise (ValueError "API key is required for this method"), w).
Proof.
  intros Hs Hkey. apply (create_request_no_key E self s); [exact Hs|].
  unfold key_ok. now rewrite Hkey.
Qed.

Lemma refused_request_then E self s uri params (post : val -> M val) w :
  w_heap w !! self = Some s -> _api_key s = "" ->
  refused w (bind (__create_request E self uri params true) post w).
Proof.
  intros Hs Hkey. apply refused_bind_l;
    rewrite (create_request_refused E self s uri params w Hs Hkey);
    [reflexivity | discriminate].
Qed.

(** X2: on a session without a key, the operations that need one send no
    request, change nothing and return no value: [get_balance] raises the
    [ValueError] of the guard, and so do the others unless the evaluation of
    their arguments has raised before. *)
Theorem X2_key_guard (E : env) (mi : string -> list val -> dict -> exn + dict)
    (self : nat) (s : Vaksms) (w : world) :
  w_heap w !! self = Some s ->
  _api_key s = "" ->
  get_balance E self w
  = (Raise (ValueError "API key is required for this method"), w)
  /\ (forall service operator country,
        refused w (get_count_number_body E mi self service operator country w))
  /\ (forall service operator rent country soft_id,
        refused w (get_number E mi self service operator rent country soft_id w))
  /\ (forall service tel rent soft_id,
        refused w (prolong_number E mi self service tel rent soft_id w))
  /\ (forall number status, refused w (set_status E self number status w))
  /\ (forall number get_all_numbers,
        refused w (get_sms_code E self number get_all_numbers w))
  /\ (forall fuel number timeout per_attempt,
        refused w (wait_sms_code E fuel self number timeout per_attempt w)).
Proof.
  intros Hs Hkey.
  assert (Hreq : forall A (m : M A) (k : A -> M val),
            snd (m w) = w -> (forall a, fst (m w) <> Ok a) -> refused w (bind m k w))
    by (intros; now apply refused_bind_l).
  assert (Hguard : require_api_key self w
                   = (Raise (ValueError "API key is required for this method"), w)).
  { unfold require_api_key, bind, get_self. rewrite Hs, Hkey. reflexivity. }
  repeat split.
  - unfold get_balance, bind.
    now rewrite (create_request_refused E self s _ _ w Hs Hkey).
  - apply (refused_request_then E self s); assumption.
  - apply (refused_request_then E self s); assumption.
  - apply refused_bind_pure; [solve_pure|]. intros service'.
    apply (refused_request_then E self s); assumption.
  - apply refused_bind_pure; [solve_pure|]. intros service'.
    apply (refused_request_then E self s); assumption.
  - apply (refused_request_then E self s); assumption.
  - apply (refused_request_then E self s); assumption.
  - apply refused_bind_pure; [solve_pure|]. intros number_id.
    apply (refused_request_then E self s); assumption.
  - apply refused_bind_pure; [solve_pure|]. intros number_id.
    apply (refused_request_then E self s); assumption.
  - apply refused_bind_pure; [solve_pure|]. intros number_id.
    apply Hreq; rewrite Hguard; [reflexivity | discriminate].
  - apply refused_bind_pure; [solve_pure|]. intros number_id.
    apply Hreq; rewrite Hguard; [reflexivity | discriminate].
  - rewrite wait_sms_code_unfold, Hs, Hkey.
    destruct (number_id_of number); reflexivity.
  - rewrite wait_sms_code_unfold, Hs, Hkey.
    destruct (number_id_of number); simpl; discriminate.
Qed.

Lemma X2_key_guard_witness :
  get_balance E_second_mirror 0 keyless_session
  = (Raise (ValueError "API key is required for this method"), keyless_session).
Proof.
  apply (proj1 (X2_key_guard E_second_mirror accept_all 0
                  {| _api_key := ""; _base_url := None; _timeout := 10 |}
                  keyless_session eq_refl eq_refl)).
Defined.

(** *** Addresses *)

(** X3: a session constructed with an address never runs the discovery:
    each of its requests leaves the objects as they are and makes at most
    one request, to that address; when it fails at the network level the
    call raises [ValueError('Invalid Base URL')] and no other mirror is
    tried. *)
Theorem X3_explicit_address_is_used (E : env) (api_key b : string) (timeout : Z)
    (w0 : world) (uri : string) (params : option dict) (akr : bool) :
  let self := length (w_heap w0) in
  let s := {| _api_key := api_key; _base_url := Some b; _timeout := timeout |} in
  let w := snd (Vaksms_init api_key (Some b) timeout w0) in
  let out := __create_request E self uri params akr w in
  fst (Vaksms_init api_key (Some b) timeout w0) = Ok self
  /\ w_heap w !! self = Some s
  /\ w_heap (snd out) = w_heap w
  /\ (new_events w (snd out) = []
      \/ exists o, new_events w (snd out) = [EvGet (request_of s b uri params) o]
                   /\ fst out = classify o).
Proof.
  intros self s w out.
  assert (Hs : w_heap w !! self = Some s).
  { unfold w, self. simpl. now rewrite lookup_app_r, Nat.sub_diag by lia. }
  split; [reflexivity|]. split; [exact Hs|].
  subst out. destruct (key_ok s akr) eqn:Hk.
  - rewrite (create_request_pinned E self s b uri params akr w Hs eq_refl Hk),
      send_request_classify.
    split; [reflexivity|]. right. eexists. split; [|reflexivity].
    now apply new_events_app.
  - rewrite (create_request_no_key E self s uri params akr w Hs Hk).
    split; [reflexivity|]. left. apply new_events_refl.
Qed.

Section DiscoveryTrace.

Variable E : env.
Variables (self : nat) (s : Vaksms) (uri : string) (params : option dict).
Hypothesis Hnone : _base_url s = None.

(** The runs of the loop over the candidates: failed trials on the first
    [k] of them, and then either no candidate is left, or the next one
    answers and the loop ends with the result made of the answer. *)
Lemma discover_trace cands :
  forall w, w_heap w !! self = Some s ->
    let out := discover E self uri request_headers
                 (sent_params (_api_key s) params) (_timeout s) cands w in
    exists k,
      (k = length cands
       /\ w_trace (snd out) = (w_trace w ++ failed_trials s uri params cands)%list
       /\ fst out
          = Raise (TypeError "unsupported operand type(s) for +: 'NoneType' and 'str'")
       /\ w_heap (snd out) = w_heap w)
      \/ (exists b r,
            cands !! k = Some b
            /\ w_trace (snd out)
               = (w_trace w ++ failed_trials s uri params (take k cands)
                  ++ [EvGet (request_of s b uri params) (Body r)])%list
            /\ fst out = classify (Body r)
            /\ w_heap (snd out)
               = if is_success_payload r then <[self := pin s b]> (w_heap w)
                 else w_heap w).
Proof.
  induction cands as [|c rest IH]; intros w Hs out; subst out; cbn [discover].
  - exists 0. left. unfold bind, get_self. rewrite Hs, Hnone. simpl.
    now rewrite app_nil_r.
  - rewrite send_request_classify. fold (request_of s c uri params).
    set (o := env_net E _ _).
    destruct o as [|r] eqn:Ho.
    + cbn [classify]. unfold bind, logging_warning. cbn [fst snd].
      set (w2 := with_event (EvWarning (warning_text c)) 0 _).
      destruct (IH w2 Hs) as [k [(Hk & Ht & Hr & Hh) | (b & r & Hb & Ht & Hr & Hh)]].
      * exists (S k). left. rewrite Hr, Ht, Hh. subst k. unfold w2. simpl.
        rewrite <- !app_assoc. auto.
      * exists (S k). right. exists b, r. rewrite Hr, Ht, Hh. unfold w2. simpl.
        rewrite <- !app_assoc. auto.
    + exists 0. right. exists c, r. cbn [classify].
      destruct (is_success_payload r).
      * unfold bind, set_base_url, ret. simpl. rewrite Hs. simpl. auto.
      * simpl. auto.
Qed.

End DiscoveryTrace.

(** X4: a request of a session without an address tries the mirrors in the
    order of the list, each at most once, and logs one warning after each
    trial that failed at the network level. It ends when a mirror answers,
    with the result made of that answer, and that mirror is pinned exactly
    when the answer is a success payload; or when all three trials have
    failed, with a [TypeError] and no fourth request. *)
Theorem X4_discovery_trace (E : env) (self : nat) (s : Vaksms) (uri : string)
    (params : option dict) (akr : bool) (w : world) :
  w_heap w !! self = Some s ->
  _base_url s = None ->
  key_ok s akr = true ->
  let out := __create_request E self uri params akr w in
  (new_events w (snd out) = failed_trials s uri params base_urls
   /\ fst out
      = Raise (TypeError "unsupported operand type(s) for +: 'NoneType' and 'str'")
   /\ w_heap (snd out) = w_heap w)
  \/ (exists k b r,
        base_urls !! k = Some b
        /\ new_events w (snd out)
           = (failed_trials s uri params (take k base_urls)
              ++ [EvGet (request_of s b uri params) (Body r)])%list
        /\ fst out = classify (Body r)
        /\ w_heap (snd out)
           = if is_success_payload r then <[self := pin s b]> (w_heap w)
             else w_heap w).
Proof.
  intros Hs Hb Hk out. subst out.
  rewrite (create_request_unpinned E self s uri params akr w Hs Hb Hk).
  destruct (discover_trace E self s uri params Hb base_urls w Hs)
    as [k [(_ & Ht & Hr & Hh) | (b & r & Hkb & Ht & Hr & Hh)]].
  - left. split; [now apply new_events_app | now split].
  - right. exists k, b, r. split; [exact Hkb|].
    split; [now apply new_events_app | now split].
Qed.

Lemma X4_discovery_trace_witness :
  w_heap (snd (__create_request E_bad_key 0 "/api/getBalance" None true one_session))
  = w_heap one_session.
Proof.
  destruct (X4_discovery_trace E_bad_key 0
              {| _api_key := "key"; _base_url := None; _timeout := 10 |}
              "/api/getBalance" None true one_session eq_refl eq_refl eq_refl)
    as [(_ & _ & Hh) | (k & b & r & _ & _ & _ & Hh)].
  - exact Hh.
  - reflexivity.
Defined.

(** *** Numbers and services *)

(** What [number_id_of] does: a value that is not an instance of [Number]
    is the identifier itself. *)
Lemma number_id_of_cases number :
  (number_id_of number = Ok number /\ forall fields, number <> VModel "Number" fields)
  \/ (exists fields, number = VModel "Number" fields).
Proof.
  destruct number; try (left; split; [reflexivity | discriminate]).
  destruct (String.eqb_spec cls "Number") as [->|Hne]; [right; eauto|].
  left. split; [|congruence].
  unfold number_id_of.
  repeat (destruct cls as [|[[] [] [] [] [] [] [] []] cls]; try reflexivity).
  congruence.
Qed.

Lemma number_id_of_not_Stuck number : number_id_of number <> Stuck.
Proof.
  destruct (number_id_of_cases number) as [[H _] | [fields ->]].
  - rewrite H. discriminate.
  - simpl. destruct (dict_get fields "idNum"); discriminate.
Qed.

(** X5: an operation on a number takes a [Number] object for its field
    [idNum]: with an object whose [idNum] is not itself such an object, the
    operation does what it does with the [idNum]; with an object without
    the field it raises [AttributeError] and sends nothing. *)
Theorem X5_number_object_or_id (E : env) (self : nat) (fields : dict) (w : world) :
  (forall id,
     dict_get fields "idNum" = Some id ->
     (forall f, id <> VModel "Number" f) ->
     (forall status,
        set_status E self (VModel "Number" fields) status w
        = set_status E self id status w)
     /\ (forall get_all_numbers,
           get_sms_code E self (VModel "Number" fields) get_all_numbers w
           = get_sms_code E self id get_all_numbers w)
     /\ (forall fuel timeout per_attempt,
           wait_sms_code E fuel self (VModel "Number" fields) timeout per_attempt w
           = wait_sms_code E fuel self id timeout per_attempt w))
  /\ (dict_get fields "idNum" = None ->
      (forall status,
         set_status E self (VModel "Number" fields) status w
         = (Raise (AttributeError "idNum"), w))
      /\ (forall get_all_numbers,
            get_sms_code E self (VModel "Number" fields) get_all_numbers w
            = (Raise (AttributeError "idNum"), w))
      /\ (forall fuel timeout per_attempt,
            wait_sms_code E fuel self (VModel "Number" fields) timeout per_attempt w
            = (Raise (AttributeError "idNum"), w))).
Proof.
  split.
  - intros id Hid Hnot.
    assert (H1 : number_id_of (VModel "Number" fields) = Ok id)
      by (simpl; now rewrite Hid).
    assert (H2 : number_id_of id = Ok id).
    { destruct (number_id_of_cases id) as [[H _] | [f ->]];
        [exact H | now destruct (Hnot f)]. }
    repeat split; intros.
    + unfold set_status, bind at 1 3, lift at 1 3. now rewrite H1, H2.
    + unfold get_sms_code, bind at 1 4, lift at 1 2. now rewrite H1, H2.
    + now rewrite !wait_sms_code_unfold, H1, H2.
  - intros Hid.
    assert (H1 : number_id_of (VModel "Number" fields)
                 = Raise (AttributeError "idNum"))
      by (simpl; now rewrite Hid).
    repeat split; intros.
    + unfold set_status, bind at 1, lift at 1. now rewrite H1.
    + unfold get_sms_code, bind at 1, lift at 1. now rewrite H1.
    + now rewrite wait_sms_code_unfold, H1.
Qed.

Lemma X5_number_object_or_id_witness :
  set_status E_no_code 0 (VModel "Number" [("idNum", VStr "n1")]) "end" one_session
  = set_status E_no_code 0 (VStr "n1") "end" one_session.
Proof.
  apply (proj1 (X5_number_object_or_id E_no_code 0 [("idNum", VStr "n1")]
                  one_session) (VStr "n1") eq_refl);
    discriminate.
Defined.

(** X6: of a list of services [get_number] takes the first two elements
    and joins them with a comma, whatever follows them; with a list that
    has a string and nothing after it, it raises [IndexError], and with a
    list that does not start with a string, [TypeError], in both cases
    before any request. *)
Theorem X6_get_number_service_list (E : env)
    (mi : string -> list val -> dict -> exn + dict) (self : nat)
    (operator rent country soft_id : val) (w : world) :
  (forall a b rest,
     get_number E mi self (VList (VStr a :: VStr b :: rest))
       operator rent country soft_id w
     = get_number E mi self (VStr ((a ++ ",") ++ b)) operator rent country soft_id w)
  /\ (forall a,
        get_number E mi self (VList [VStr a]) operator rent country soft_id w
        = (Raise (IndexError "index out of range"), w))
  /\ get_number E mi self (VList []) operator rent country soft_id w
     = (Raise (IndexError "index out of range"), w)
  /\ (forall x rest,
        (forall a, x <> VStr a) ->
        get_number E mi self (VList (x :: rest)) operator rent country soft_id w
        = (Raise (TypeError "unsupported operand type(s) for +"), w)).
Proof.
  repeat split; try reflexivity.
  intros x rest Hx. unfold get_number. simpl.
  destruct x; try reflexivity. now destruct (Hx s).
Qed.

Lemma X6_get_number_service_list_witness :
  get_number (E_const (VDict [])) accept_all 0 (VList [VInt 7; VStr "viber"])
    VNone (VBool false) (VStr "ru") (VStr "1019") one_session
  = (Raise (TypeError "unsupported operand type(s) for +"), one_session).
Proof.
  apply (proj2 (proj2 (proj2 (X6_get_number_service_list (E_const (VDict []))
                                accept_all 0 VNone (VBool false) (VStr "ru")
                                (VStr "1019") one_session)))).
  discriminate.
Defined.

(** X7: every request of [prolong_number] goes to [/api/prolongNumber]
    with the service, the number and the soft id of the caller; the flag
    [rent] is never sent. *)
Theorem X7_prolong_number_request (E : env)
    (mi : string -> list val -> dict -> exn + dict) (self : nat)
    (service tel rent soft_id : val) (w : world) :
  Forall (prolong_request service tel soft_id)
    (new_events w (snd (prolong_number E mi self service tel rent soft_id w))).
Proof.
  apply emits_new_events. unfold prolong_number.
  apply emits_bind; [|intros response; apply emits_pure; solve_pure].
  apply emits_create_request; [|intros; exact I].
  intros key b t o. unfold prolong_request. cbn [rq_uri rq_params].
  split; [reflexivity|]. split; [|repeat split; intros Hv].
  - apply dict_get_sent_params_None; [discriminate | reflexivity].
  - apply dict_get_sent_params; [discriminate | reflexivity | exact Hv].
  - apply dict_get_sent_params; [discriminate | reflexivity | exact Hv].
  - apply dict_get_sent_params; [discriminate | reflexivity | exact Hv].
Qed.

(** *** What the operations keep *)

Lemma pure_time_time : pure time_time.
Proof. intros w. reflexivity. Qed.

Lemma pure_require_api_key self : pure (require_api_key self).
Proof. unfold require_api_key. solve_pure. Qed.

Lemma framed_wait_loop E self params start_time timeout per_attempt fuel :
  framed E self (wait_loop E fuel self params start_time timeout per_attempt).
Proof.
  induction fuel as [|fuel IH]; cbn [wait_loop]; [apply framed_pure, pure_stuck|].
  apply framed_bind; [apply framed_pure, pure_time_time|]. intros now.
  destruct (Qltb (now - start_time) (inject_Z timeout));
    [|apply framed_pure, pure_ret].
  apply framed_bind; [apply framed_time_sleep|]. intros _.
  apply framed_bind; [apply framed_create_request|]. intros response.
  apply framed_bind; [apply framed_pure, pure_lift|]. intros sms.
  destruct sms; try exact IH. apply framed_pure, pure_lift.
Qed.

(** X8: the operations that are not cached keep the frame of the session:
    they touch no cache and no other client object; the object keeps its
    key and its timeout, and an address once it has one; the trace only
    grows, and the clock does not go back when the clocks of the
    environment do not. *)
Theorem X8_operations_keep_the_frame (E : env)
    (mi : string -> list val -> dict -> exn + dict) (self : nat) (w : world) :
  frame E self w (snd (get_balance E self w))
  /\ (forall service operator rent country soft_id,
        frame E self w
          (snd (get_number E mi self service operator rent country soft_id w)))
  /\ (forall service tel rent soft_id,
        frame E self w (snd (prolong_number E mi self service tel rent soft_id w)))
  /\ (forall number status, frame E self w (snd (set_status E self number status w)))
  /\ (forall number get_all_numbers,
        frame E self w (snd (get_sms_code E self number get_all_numbers w)))
  /\ (forall fuel number timeout per_attempt,
        frame E self w
          (snd (wait_sms_code E fuel self number timeout per_attempt w))).
Proof.
  split; [|split; [|split; [|split; [|split]]]]; intros.
  - apply (framed_bind E self); [apply framed_create_request|].
    intros; apply framed_pure, pure_lift.
  - unfold get_number.
    apply (framed_bind E self); [apply framed_pure; solve_pure|]. intros service'.
    apply framed_bind; [apply framed_create_request|]. intros response.
    apply framed_pure. solve_pure.
  - unfold prolong_number.
    apply (framed_bind E self); [apply framed_create_request|]. intros response.
    apply framed_pure. solve_pure.
  - unfold set_status.
    apply (framed_bind E self); [apply framed_pure, pure_lift|]. intros id.
    apply framed_bind; [apply framed_create_request|]. intros response.
    apply framed_pure, pure_lift.
  - unfold get_sms_code.
    apply (framed_bind E self); [apply framed_pure, pure_lift|]. intros id.
    apply framed_bind; [apply framed_pure, pure_require_api_key|]. intros _.
    apply framed_create_request.
  - unfold wait_sms_code.
    apply (framed_bind E self); [apply framed_pure, pure_lift|]. intros id.
    apply framed_bind; [apply framed_pure, pure_require_api_key|]. intros _.
    apply framed_bind.
    + unfold set_status.
      apply (framed_bind E self); [apply framed_pure, pure_lift|]. intros id'.
      apply framed_bind; [apply framed_create_request|]. intros response.
      apply framed_pure, pure_lift.
    + intros _. apply framed_bind; [apply framed_pure, pure_time_time|].
      intros start. apply framed_wait_loop.
Qed.

(** *** The polling loop in general *)

Lemma classify_not_Stuck o : classify o <> Stuck.
Proof.
  destruct o as [|response]; simpl; [discriminate|].
  destruct (is_success_payload response); discriminate.
Qed.

Lemma getitem_not_Stuck v k : getitem v k <> Stuck.
Proof. destruct v; simpl; try discriminate. destruct (dict_get d k); discriminate. Qed.

Lemma last_item_not_Stuck l : last_item l <> Stuck.
Proof. unfold last_item. destruct (last l); discriminate. Qed.

Lemma count_polls_round secs rq o evs :
  rq_uri rq = "/api/getSmsCode/" ->
  count_polls (EvSleep secs :: EvGet rq o :: evs) = S (count_polls evs).
Proof. intros Hu. unfold count_polls. simpl. now rewrite Hu. Qed.

Section LongWait.

Variable E : env.
Variables (self : nat) (s : Vaksms) (b : string).
Variables (params : dict) (start_time : Q) (timeout per_attempt : Z).
Hypothesis Hpinned : _base_url s = Some b.
Hypothesis Hkey : key_ok s true = true.
Hypothesis Hclock : clock_monotone E.

(** The clock after a round of the loop. *)
Lemma round_clock w :
  let w1 := with_event (EvSleep per_attempt)
              (inject_Z per_attempt + env_oversleep E (length (w_trace w))) w in
  forall rq o,
    (w_now w + inject_Z per_attempt
     <= w_now (with_event (EvGet rq o) (env_latency E (length (w_trace w1))) w1))%Q.
Proof.
  intros w1 rq o. unfold w1. simpl.
  destruct (Hclock (length (w_trace w))) as [_ Hover].
  destruct (Hclock (length (w_trace w ++ [EvSleep per_attempt]))) as [Hlat _].
  lra.
Qed.

(** When [k] rounds have gone by, the polls still to come are bounded by
    the time that is left. *)
Lemma wait_loop_poll_bound fuel :
  forall w (k : nat),
    w_heap w !! self = Some s ->
    (start_time + inject_Z (Z.of_nat k * per_attempt) <= w_now w)%Q ->
    exists evs,
      w_trace (snd (wait_loop E fuel self params start_time timeout per_attempt w))
      = (w_trace w ++ evs)%list
      /\ (count_polls evs = 0
          \/ ((Z.of_nat k + Z.of_nat (count_polls evs) - 1) * per_attempt
              < timeout)%Z).
Proof.
  induction fuel as [|fuel IH]; intros w k Hs Hnow.
  { exists []. simpl. split; [now rewrite app_nil_r | now left]. }
  rewrite (wait_loop_step E self s b params start_time timeout per_attempt
             Hpinned Hkey fuel w Hs).
  destruct (Qltb (w_now w - start_time) (inject_Z timeout)) eqn:Hc;
    [|exists []; simpl; split; [now rewrite app_nil_r | now left]].
  apply Qltb_true in Hc.
  assert (Hk : (Z.of_nat k * per_attempt < timeout)%Z).
  { rewrite Zlt_Qlt. lra. }
  destruct (per_attempt <? 0)%Z;
    [exists []; simpl; split; [now rewrite app_nil_r | now left]|].
  cbv zeta.
  set (w1 := with_event (EvSleep per_attempt) _ w).
  set (rq := request_of s b "/api/getSmsCode/" (Some params)).
  set (o := env_net E (length (w_trace w1)) rq).
  set (w2 := with_event (EvGet rq o) _ w1).
  assert (Ht2 : w_trace w2 = (w_trace w ++ [EvSleep per_attempt; EvGet rq o])%list).
  { unfold w2, w1. simpl. now rewrite <- app_assoc. }
  assert (Hstop : exists evs,
            w_trace w2 = (w_trace w ++ evs)%list
            /\ (count_polls evs = 0
                \/ ((Z.of_nat k + Z.of_nat (count_polls evs) - 1) * per_attempt
                    < timeout)%Z)).
  { exists [EvSleep per_attempt; EvGet rq o]. split; [exact Ht2|]. right.
    rewrite count_polls_round by reflexivity.
    replace (Z.of_nat k + Z.of_nat (S (count_polls [])) - 1)%Z with (Z.of_nat k)
      by (unfold count_polls; simpl; lia).
    exact Hk. }
  assert (Hgo : exists evs,
            w_trace (snd (wait_loop E fuel self params start_time timeout
                            per_attempt w2)) = (w_trace w ++ evs)%list
            /\ (count_polls evs = 0
                \/ ((Z.of_nat k + Z.of_nat (count_polls evs) - 1) * per_attempt
                    < timeout)%Z)).
  { destruct (IH w2 (S k) Hs) as (evs & Ht & Hb).
    - pose proof (round_clock w rq o) as Hr. fold w1 w2 in Hr.
      replace (Z.of_nat (S k) * per_attempt)%Z
        with (Z.of_nat k * per_attempt + per_attempt)%Z by lia.
      rewrite inject_Z_plus. lra.
    - exists (EvSleep per_attempt :: EvGet rq o :: evs). split.
      + rewrite Ht, Ht2, <- app_assoc. reflexivity.
      + right. rewrite count_polls_round by reflexivity.
        destruct Hb as [H0 | Hb].
        * rewrite H0.
          replace (Z.of_nat k + Z.of_nat 1 - 1)%Z with (Z.of_nat k) by lia.
          exact Hk.
        * replace (Z.of_nat k + Z.of_nat (S (count_polls evs)) - 1)%Z
            with (Z.of_nat (S k) + Z.of_nat (count_polls evs) - 1)%Z by lia.
          exact Hb. }
  destruct (classify o) as [response|e|]; try exact Hstop.
  destruct (getitem response "smsCode") as [sms|e|]; try exact Hstop.
  destruct sms; first [exact Hgo | exact Hstop].
Qed.

(** With fuel for the rounds the timeout allows, the loop ends. *)
Lemma wait_loop_ends f :
  forall w,
    w_heap w !! self = Some s ->
    (inject_Z timeout
     <= (w_now w - start_time) + inject_Z (per_attempt * Z.of_nat f))%Q ->
    fst (wait_loop E (S f) self params start_time timeout per_attempt w) <> Stuck.
Proof.
  induction f as [|f IH]; intros w Hs Hleft;
    rewrite (wait_loop_step E self s b params start_time timeout per_attempt
               Hpinned Hkey _ w Hs).
  - rewrite Z.mul_0_r in Hleft. rewrite Qltb_false; [discriminate|].
    change (inject_Z 0) with 0%Q in Hleft. lra.
  - destruct (Qltb (w_now w - start_time) (inject_Z timeout)); [|discriminate].
    destruct (per_attempt <? 0)%Z; [discriminate|]. cbv zeta.
    set (w1 := with_event (EvSleep per_attempt) _ w).
    set (rq := request_of s b "/api/getSmsCode/" (Some params)).
    set (o := env_net E (length (w_trace w1)) rq).
    set (w2 := with_event (EvGet rq o) _ w1).
    pose proof (classify_not_Stuck o) as Hc.
    destruct (classify o) as [response|e|]; [|discriminate|congruence].
    pose proof (getitem_not_Stuck response "smsCode") as Hg.
    destruct (getitem response "smsCode") as [sms|e|]; [|discriminate|congruence].
    assert (Hgo : fst (wait_loop E (S f) self params start_time timeout
                         per_attempt w2) <> Stuck).
    { apply IH; [exact Hs|].
      pose proof (round_clock w rq o) as Hr. fold w1 w2 in Hr.
      replace (per_attempt * Z.of_nat (S f))%Z
        with (per_attempt * Z.of_nat f + per_attempt)%Z in Hleft by lia.
      rewrite inject_Z_plus in Hleft. lra. }
    destruct sms; try exact Hgo. apply last_item_not_Stuck.
Qed.


End LongWait.

Lemma create_request_not_Stuck E self s uri params akr w :
  w_heap w !! self = Some s ->
  fst (__create_request E self uri params akr w) <> Stuck.
Proof.
  intros Hs. destruct (key_ok s akr) eqn:Hk.
  - destruct (_base_url s) as [b|] eqn:Hb.
    + rewrite (create_request_pinned E self s b uri params akr w Hs Hb Hk),
        send_request_classify. apply classify_not_Stuck.
    + rewrite (create_request_unpinned E self s uri params akr w Hs Hb Hk).
      destruct (discover_trace E self s uri params Hb base_urls w Hs)
        as [k [(_ & _ & Hr & _) | (b & r & _ & _ & Hr & _)]]; rewrite Hr;
        [discriminate | apply classify_not_Stuck].
  - rewrite (create_request_no_key E self s uri params akr w Hs Hk). discriminate.
Qed.

Lemma set_status_not_Stuck E self s number status w :
  w_heap w !! self = Some s ->
  fst (set_status E self number status w) <> Stuck.
Proof.
  intros Hs. unfold set_status, bind at 1, lift at 1.
  pose proof (number_id_of_not_Stuck number) as Hn.
  destruct (number_id_of number) as [id|e|]; [|discriminate|congruence].
  unfold bind.
  pose proof (create_request_not_Stuck E self s "/api/setStatus"
                (Some [("idNum", id); ("status", VStr status)]) true w Hs) as Hc.
  destruct (__create_request _ _ _ _ _ w) as [[response|e|] w1]; simpl in *;
    [|discriminate|congruence].
  apply getitem_not_Stuck.
Qed.

(** X9: when the clocks do not run backwards, a call of [wait_sms_code]
    that makes [n] polls, [n >= 1], has [(n - 1) * per_attempt < timeout]:
    it makes no poll with a timeout of zero or less, and at most
    [ceil(timeout / per_attempt)] polls with a positive interval. *)
Theorem X9_polls_are_bounded (E : env) (fuel self : nat) (number : val)
    (timeout per_attempt : Z) (w : world) :
  clock_monotone E ->
  let n := count_polls
             (new_events w
                (snd (wait_sms_code E fuel self number timeout per_attempt w))) in
  n = 0 \/ ((Z.of_nat n - 1) * per_attempt < timeout)%Z.
Proof.
  intros Hclock n. subst n.
  destruct (wait_sms_code_run E fuel self number timeout per_attempt w)
    as [[Hall _] | (s & id & st & w1 & b & send_evs & fails & rq0 & r & Hs & Hkey
                    & Hid & Hset & Hh & Ht & Hall & _ & _ & Hout)].
  - left. now apply (count_polls_send_attempts number).
  - destruct (wait_loop_poll_bound E self (pin s b) b
                [("idNum", id); ("all", VStr "None")] (w_now w1) timeout
                per_attempt eq_refl Hkey Hclock fuel w1 0 Hh)
      as (evs & Htl & Hb).
    { change (Z.of_nat 0) with 0%Z. rewrite Z.mul_0_l.
      change (inject_Z 0) with 0%Q. lra. }
    rewrite <- Hout in Htl.
    rewrite (new_events_app _ _ (send_evs ++ evs)%list)
      by (rewrite Htl, Ht; now rewrite app_assoc).
    rewrite count_polls_app, (count_polls_send_attempts _ _ Hall). simpl.
    destruct Hb as [H0 | Hb]; [now left | right]. exact Hb.
Qed.

Lemma X9_polls_are_bounded_witness :
  count_polls
    (new_events one_session
       (snd (wait_sms_code E_no_code 10 0 (VStr "n1") 12 5 one_session))) = 0
  \/ ((Z.of_nat
         (count_polls
            (new_events one_session
               (snd (wait_sms_code E_no_code 10 0 (VStr "n1") 12 5 one_session))))
       - 1) * 5 < 12)%Z.
Proof.
  apply (X9_polls_are_bounded E_no_code 10 0 (VStr "n1") 12 5 one_session).
  intros i. split; discriminate.
Defined.

(** X10: a call of [wait_sms_code] ends, by a return or by an exception:
    when the clocks do not run backwards and the interval is positive, the
    loop has ended after [ceil(timeout / per_attempt)] rounds at the
    latest; in the model, fuel for one more evaluation of the condition
    than [f] rounds with [timeout <= per_attempt * f] is enough. *)
Theorem X10_wait_sms_code_ends (E : env) (f self : nat) (s : Vaksms)
    (number : val) (timeout per_attempt : Z) (w : world) :
  clock_monotone E ->
  w_heap w !! self = Some s ->
  (timeout <= per_attempt * Z.of_nat f)%Z ->
  fst (wait_sms_code E (S f) self number timeout per_attempt w) <> Stuck.
Proof.
  intros Hclock Hs Hf. rewrite wait_sms_code_unfold, Hs.
  pose proof (number_id_of_not_Stuck number) as Hn.
  destruct (number_id_of number) as [id|e|]; [|discriminate|congruence].
  destruct (negb (truthy (VStr (_api_key s)))); [discriminate|].
  pose proof (set_status_not_Stuck E self s id "send" w Hs) as Hst.
  destruct (set_status E self id "send" w) as [[st|e|] w1] eqn:Hset;
    simpl in Hst; [|discriminate|congruence].
  destruct (set_status_Ok E self s id st w w1 Hs Hset)
    as (Hkey & b & _ & _ & _ & _ & _ & Hh).
  apply (wait_loop_ends E self (pin s b) b _ (w_now w1) timeout per_attempt
           eq_refl Hkey Hclock f w1 Hh).
  rewrite Zle_Qle in Hf. lra.
Qed.

Lemma X10_wait_sms_code_ends_witness :
  fst (wait_sms_code E_no_code 4 0 (VStr "n1") 12 5 one_session) <> Stuck.
Proof.
  apply (X10_wait_sms_code_ends E_no_code 3 0
           {| _api_key := "key"; _base_url := None; _timeout := 10 |}
           (VStr "n1") 12 5 one_session).
  - intros i. split; discriminate.
  - reflexivity.
  - lia.
Defined.



(** *** The caches in general *)

Lemma remove_item_length k its :
  length (remove_item k its) <= length its.
Proof. unfold remove_item. apply List.filter_length_le. Qed.

Lemma remove_item_length_lt k its it :
  find_item k its = Some it -> length (remove_item k its) < length its.
Proof.
  induction its as [|it' its IH]; simpl; [discriminate|].
  destruct (hashkey_eqb (fst (fst it')) k) eqn:Hk; simpl.
  - intros _. pose proof (remove_item_length k its). lia.
  - intros H. apply IH in H. lia.
Qed.

Lemma getitem_length c k now :
  length (items (snd (TTLCache_getitem c k now))) <= length (items c).
Proof.
  unfold TTLCache_getitem.
  destruct (find_item k (items c)) as [it|] eqn:Hf; [|simpl; lia].
  apply remove_item_length_lt in Hf.
  destruct (Qltb now (snd it)); simpl; rewrite length_app; simpl; lia.
Qed.

Lemma setitem_params c k v now :
  maxsize (snd (TTLCache_setitem c k v now)) = maxsize c
  /\ ttl (snd (TTLCache_setitem c k v now)) = ttl c.
Proof.
  unfold TTLCache_setitem. destruct (maxsize c <? 1)%nat; [tauto|].
  now destruct (find_item k (expire now (items c))).
Qed.

(** A store never makes the cache larger than its capacity. *)
Lemma setitem_length c k v now :
  length (items c) <= maxsize c ->
  length (items (snd (TTLCache_setitem c k v now))) <= maxsize c.
Proof.
  intros Hlen. unfold TTLCache_setitem.
  assert (Hexp : length (expire now (items c)) <= length (items c))
    by apply List.filter_length_le.
  destruct (maxsize c <? 1)%nat eqn:Hmax; [simpl; lia|].
  apply Nat.ltb_ge in Hmax.
  destruct (find_item k (expire now (items c))) as [it|] eqn:Hf; simpl;
    rewrite length_app; simpl.
  - apply remove_item_length_lt in Hf. lia.
  - rewrite length_drop. lia.
Qed.

Section CachedMore.

Variable E : env.
Variable n : cache_name.
Variable func : nat -> list hval -> list (string * hval) -> M val.
Variable akr : bool.
Variable binds : list hval -> list (string * hval) -> Prop.

Hypothesis Hframed : forall self args kwargs, framed E self (func self args kwargs).

Hypothesis Hsends : forall self args kwargs w,
  sends w (snd (func self args kwargs w)) <->
  binds args kwargs /\ exists s, w_heap w !! self = Some s /\ key_ok s akr = true.

(** The cache the wrapper leaves: the one the lookup left, or the one the
    store left. *)
Lemma cached_cache self args kwargs w n0 :
  let k := make_key self args kwargs in
  let c := snd (TTLCache_getitem (get_cache n w) k (w_now w)) in
  let w1 := snd (cached n func self args kwargs w) in
  (n0 <> n /\ get_cache n0 w1 = get_cache n0 w)
  \/ (n0 = n
      /\ (get_cache n w1 = c
          \/ exists v now, get_cache n w1 = snd (TTLCache_setitem c k v now))).
Proof.
  intros k c w1. subst w1. unfold cached. fold k.
  destruct (TTLCache_getitem (get_cache n w) k (w_now w)) as [[v|] c'] eqn:Hg;
    simpl in c; subst c.
  - simpl. destruct n, n0; simpl; auto; left; split; congruence.
  - pose proof (Hframed self args kwargs (set_cache n c' w)) as Hfr.
    pose proof (fr_caches _ _ _ _ Hfr n0) as Hc.
    destruct (func self args kwargs (set_cache n c' w)) as [[v|e|] w'];
      simpl in *.
    + destruct n, n0; simpl in *;
        try (left; split; [congruence | assumption]);
        right; split; try reflexivity; right; rewrite Hc; eauto.
    + destruct n, n0; simpl in *;
        try (left; split; [congruence | assumption]);
        right; split; try reflexivity; left; assumption.
    + destruct n, n0; simpl in *;
        try (left; split; [congruence | assumption]);
        right; split; try reflexivity; left; assumption.
Qed.

(** A call keeps every cache within its capacity. *)
Lemma cached_capacity self args kwargs w n0 :
  length (items (get_cache n0 w)) <= maxsize (get_cache n0 w) ->
  let w1 := snd (cached n func self args kwargs w) in
  length (items (get_cache n0 w1)) <= maxsize (get_cache n0 w1)
  /\ maxsize (get_cache n0 w1) = maxsize (get_cache n0 w)
  /\ ttl (get_cache n0 w1) = ttl (get_cache n0 w).
Proof.
  intros Hlen w1. subst w1.
  destruct (cached_cache self args kwargs w n0)
    as [[_ ->] | [-> [-> | (v & now & ->)]]]; [auto | |].
  - destruct (getitem_params (get_cache n w) (make_key self args kwargs) (w_now w))
      as [-> ->].
    pose proof (getitem_length (get_cache n w) (make_key self args kwargs) (w_now w)).
    split; [lia | auto].
  - set (c := snd (TTLCache_getitem (get_cache n w) (make_key self args kwargs)
                     (w_now w))).
    destruct (setitem_params c (make_key self args kwargs) v now) as [-> ->].
    destruct (getitem_params (get_cache n w) (make_key self args kwargs) (w_now w))
      as [Hm Ht]. fold c in Hm, Ht.
    pose proof (getitem_length (get_cache n w) (make_key self args kwargs) (w_now w))
      as Hl. fold c in Hl.
    split; [|now rewrite Hm, Ht].
    apply setitem_length. lia.
Qed.

(** After a call that made a request and returned, the same call makes a
    request again once the time to live has passed. *)
Lemma cached_expired_after_store self s2 args kwargs w v w1 :
  1 <= maxsize (get_cache n w) ->
  cached n func self args kwargs w = (Ok v, w1) ->
  sends w w1 ->
  forall w2,
    get_cache n w2 = get_cache n w1 ->
    (w_now w1 + ttl (get_cache n w) <= w_now w2)%Q ->
    w_heap w2 !! self = Some s2 -> key_ok s2 akr = true ->
    sends w2 (snd (cached n func self args kwargs w2)).
Proof.
  intros Hmax Hrun Hsent w2 Hc2 Hnow Hs2 Hk2.
  assert (Hsent' : sends w (snd (cached n func self args kwargs w)))
    by (rewrite Hrun; exact Hsent).
  destruct (cached_sends n func self args kwargs w Hsent') as (_ & Hran & Hfst & Hsnd).
  rewrite Hrun in Hfst, Hsnd. simpl in Hfst, Hsnd.
  set (c := snd (TTLCache_getitem (get_cache n w) (make_key self args kwargs)
                   (w_now w))) in *.
  apply Hsends in Hran. destruct Hran as [Hb _].
  pose proof (Hframed self args kwargs (set_cache n c w)) as Hfr.
  destruct (func self args kwargs (set_cache n c w)) as [r w'].
  simpl in Hfst, Hsnd, Hfr. subst r.
  pose proof (fr_caches _ _ _ _ Hfr n) as Hc. rewrite get_set_cache in Hc.
  destruct (getitem_params (get_cache n w) (make_key self args kwargs) (w_now w))
    as [Hm Ht]. fold c in Hm, Ht.
  destruct (setitem_find (get_cache n w') (make_key self args kwargs) v (w_now w'))
    as (k0 & Hfind); [rewrite Hc, Hm; exact Hmax|].
  assert (Hcache : get_cache n w2
                   = snd (TTLCache_setitem (get_cache n w')
                            (make_key self args kwargs) v (w_now w'))).
  { rewrite Hc2, Hsnd. apply get_set_cache. }
  assert (Hnow' : (w_now w' + ttl (get_cache n w') <= w_now w2)%Q).
  { rewrite Hc, Ht. rewrite Hsnd in Hnow. destruct n; exact Hnow. }
  apply (cached_miss_sends n func akr binds Hsends self s2); try assumption.
  unfold TTLCache_getitem. rewrite Hcache, Hfind. simpl.
  now rewrite (Qltb_false _ _ Hnow').
Qed.

(** After a call that made a request, a call under a different key, which
    has no entry, makes a request. *)
Lemma cached_other_key self self2 s2 args kwargs args2 kwargs2 w :
  hashkey_eqb (make_key self args kwargs) (make_key self2 args2 kwargs2) = false ->
  sends w (snd (cached n func self args kwargs w)) ->
  find_item (make_key self2 args2 kwargs2) (items (get_cache n w)) = None ->
  binds args2 kwargs2 ->
  w_heap w !! self2 = Some s2 -> key_ok s2 akr = true ->
  let w1 := snd (cached n func self args kwargs w) in
  sends w1 (snd (cached n func self2 args2 kwargs2 w1)).
Proof.
  intros Hne Hsent Habs Hb2 Hs2 Hk2 w1. subst w1.
  destruct (cached_sends n func self args kwargs w Hsent) as (_ & _ & _ & Hsnd).
  set (c := snd (TTLCache_getitem (get_cache n w) (make_key self args kwargs)
                   (w_now w))) in *.
  pose proof (Hframed self args kwargs (set_cache n c w)) as Hfr.
  set (out := func self args kwargs (set_cache n c w)) in *.
  assert (Habs' : find_item (make_key self2 args2 kwargs2)
                    (items (get_cache n (snd out))) = None).
  { rewrite (fr_caches _ _ _ _ Hfr n), get_set_cache.
    now apply getitem_other_absent. }
  assert (Hheap : exists s2', w_heap (snd out) !! self2 = Some s2'
                              /\ key_ok s2' akr = true).
  { destruct (Nat.eq_dec self2 self) as [->|Hn].
    - destruct (fr_self _ _ _ _ Hfr s2) as [H | (_ & b & H)];
        [destruct n; exact Hs2 | eauto | eauto].
    - exists s2. split; [|exact Hk2].
      rewrite (fr_others _ _ _ _ Hfr self2 Hn). destruct n; exact Hs2. }
  destruct Hheap as (s2' & Hs2' & Hk2').
  rewrite Hsnd.
  destruct (fst out) as [v|e|].
  - apply (cached_miss_sends n func akr binds Hsends self2 s2');
      try assumption.
    rewrite get_set_cache. unfold TTLCache_getitem.
    now rewrite setitem_other_absent.
  - apply (cached_miss_sends n func akr binds Hsends self2 s2'); try assumption.
    unfold TTLCache_getitem. now rewrite Habs'.
  - apply (cached_miss_sends n func akr binds Hsends self2 s2'); try assumption.
    unfold TTLCache_getitem. now rewrite Habs'.
Qed.

End CachedMore.

(** X12: an entry lives for an hour. After a call of a cached operation
    that made a request and returned, the same call of the same session
    makes a request again when 3600 seconds or more have passed since the
    value was stored, the cache being the one that call left. *)
Theorem X12_entry_expires_after_an_hour (E : env)
    (mi : string -> list val -> dict -> exn + dict) (op : cached_op)
    (self : nat) (s2 : Vaksms) (args : list hval) (kwargs : list (string * hval))
    (w w1 w2 : world) (v : val) :
  module_caches w ->
  call_cached E mi op self args kwargs w = (Ok v, w1) ->
  sends w w1 ->
  get_cache (op_cache op) w2 = get_cache (op_cache op) w1 ->
  (w_now w1 + 3600 <= w_now w2)%Q ->
  w_heap w2 !! self = Some s2 ->
  key_ok s2 (op_key_required op) = true ->
  sends w2 (snd (call_cached E mi op self args kwargs w2)).
Proof.
  rewrite call_cached_eq. intros Hmod Hrun Hsent Hc Hnow Hs2 Hk2.
  destruct (Hmod (op_cache op)) as [Hmax Httl]. rewrite <- Httl in Hnow.
  apply (cached_expired_after_store E (op_cache op) (op_wrapped E mi op)
           (op_key_required op) (op_binds op)
           ltac:(intros; apply framed_op_wrapped)
           ltac:(intros; apply sends_op_wrapped)
           self s2 args kwargs w v w1); try assumption.
  lia.
Qed.

Lemma X12_entry_expires_after_an_hour_witness :
  sends
    (later 3600 (snd (call_cached E_stock accept_all Get_count_number 0
                        [HStr "vk"] [] one_session)))
    (snd (call_cached E_stock accept_all Get_count_number 0 [HStr "vk"] []
            (later 3600 (snd (call_cached E_stock accept_all Get_count_number 0
                                [HStr "vk"] [] one_session))))).
Proof.
  refine (X12_entry_expires_after_an_hour E_stock accept_all Get_count_number 0
            {| _api_key := "key"; _base_url := Some "https://vak-sms.com";
               _timeout := 10 |}
            [HStr "vk"] [] one_session
            (snd (call_cached E_stock accept_all Get_count_number 0 [HStr "vk"] []
                    one_session))
            _
            (VModel "CountNumber"
               [("vk", VInt 0); ("price", VInt 10); ("service", VStr "vk");
                ("count", VInt 0)]) _ _ _ _ _ _ _).
  - intros n. destruct n; split; reflexivity.
  - vm_compute. reflexivity.
  - eexists _, _. vm_compute. left. reflexivity.
  - reflexivity.
  - vm_compute. discriminate.
  - reflexivity.
  - reflexivity.
Defined.

(** X13: no cache grows beyond its capacity. When each of the three caches
    holds at most its 100 entries, it still does after any call of a cached
    operation, and the capacity and the time to live are what they were. *)
Theorem X13_caches_stay_within_capacity (E : env)
    (mi : string -> list val -> dict -> exn + dict) (op : cached_op)
    (self : nat) (args : list hval) (kwargs : list (string * hval)) (w : world) :
  module_caches w ->
  (forall n, length (items (get_cache n w)) <= 100) ->
  let w1 := snd (call_cached E mi op self args kwargs w) in
  module_caches w1 /\ forall n, length (items (get_cache n w1)) <= 100.
Proof.
  rewrite call_cached_eq. intros Hmod Hlen w1.
  assert (Hcap : forall n0,
            length (items (get_cache n0 w1)) <= maxsize (get_cache n0 w1)
            /\ maxsize (get_cache n0 w1) = maxsize (get_cache n0 w)
            /\ ttl (get_cache n0 w1) = ttl (get_cache n0 w)).
  { intros n0. apply (cached_capacity E (op_cache op) (op_wrapped E mi op)
                        ltac:(intros; apply framed_op_wrapped)).
    destruct (Hmod n0) as [-> _]. apply Hlen. }
  split.
  - intros n0. destruct (Hcap n0) as (_ & -> & ->). apply Hmod.
  - intros n0. destruct (Hcap n0) as (Hl & Hm & _).
    rewrite Hm in Hl. now destruct (Hmod n0) as [<- _].
Qed.

Lemma X13_caches_stay_within_capacity_witness :
  length (items (get_cache Cache
                   (snd (call_cached E_stock accept_all Get_count_number 0
                           [HStr "vk"] [] one_session)))) <= 100.
Proof.
  apply (proj2 (X13_caches_stay_within_capacity E_stock accept_all
                  Get_count_number 0 [HStr "vk"] [] one_session
                  ltac:(intros n; destruct n; split; reflexivity)
                  ltac:(intros n; destruct n; simpl; lia))).
Defined.

(** X14: the key of an entry is the call as it is written. After a call of
    a cached operation that made a request, a call whose key differs (another
    receiver, a default passed explicitly, an argument passed by keyword) and
    has no entry makes a request of its own, also when the operation gets
    the same parameters. *)
Theorem X14_entries_are_per_call_shape (E : env)
    (mi : string -> list val -> dict -> exn + dict) (op : cached_op)
    (self self2 : nat) (s2 : Vaksms) (args args2 : list hval)
    (kwargs kwargs2 : list (string * hval)) (w : world) :
  hashkey_eqb (make_key self args kwargs) (make_key self2 args2 kwargs2) = false ->
  sends w (snd (call_cached E mi op self args kwargs w)) ->
  find_item (make_key self2 args2 kwargs2) (items (get_cache (op_cache op) w))
  = None ->
  op_binds op args2 kwargs2 ->
  w_heap w !! self2 = Some s2 ->
  key_ok s2 (op_key_required op) = true ->
  let w1 := snd (call_cached E mi op self args kwargs w) in
  sends w1 (snd (call_cached E mi op self2 args2 kwargs2 w1)).
Proof.
  rewrite call_cached_eq. intros Hne Hsent Habs Hb Hs2 Hk2.
  apply (cached_other_key E (op_cache op) (op_wrapped E mi op)
           (op_key_required op) (op_binds op)
           ltac:(intros; apply framed_op_wrapped)
           ltac:(intros; apply sends_op_wrapped)
           self self2 s2); assumption.
Qed.

Lemma X14_entries_are_per_call_shape_witness :
  sends
    (snd (call_cached E_stock accept_all Get_count_number 0 [HStr "vk"] []
            one_session))
    (snd (call_cached E_stock accept_all Get_count_number 0
            [HStr "vk"; HNone; HStr "ru"] []
            (snd (call_cached E_stock accept_all Get_count_number 0 [HStr "vk"] []
                    one_session)))).
Proof.
  refine (X14_entries_are_per_call_shape E_stock accept_all Get_count_number 0 0
            {| _api_key := "key"; _base_url := None; _timeout := 10 |}
            [HStr "vk"] [HStr "vk"; HNone; HStr "ru"] [] [] one_session
            _ _ _ _ _ _).
  - reflexivity.
  - eexists _, _. vm_compute. left. reflexivity.
  - reflexivity.
  - eexists. reflexivity.
  - reflexivity.
  - reflexivity.
Defined.

(** *** Icons *)

Lemma Forall_dict_set (P : val -> Prop) (d : dict) k v :
  Forall (fun kv => P (snd kv)) d -> P v ->
  Forall (fun kv => P (snd kv)) (dict_set d k v).
Proof.
  intros Hd Hv. induction Hd as [|[k0 v0] d H0 Hd IH]; simpl.
  - constructor; [exact Hv | constructor].
  - destruct (String.eqb k0 k); constructor; auto.
Qed.

Lemma dict_get_set_dom d k v k' :
  dict_get (dict_set d k v) k' <> None <-> k = k' \/ dict_get d k' <> None.
Proof.
  destruct (String.eqb_spec k k') as [->|Hne].
  - rewrite dict_get_set_eq. split; [now left | discriminate].
  - rewrite dict_get_set_ne by congruence. split; [now right | now intros [|]].
Qed.

(** The loop over the services: every object it adds has its icon put
    under the address of the session, and the services of the result are
    those it had and those of the entries. *)
Lemma build_services_icons mi self s b entries :
  _base_url s = Some b ->
  forall ret_d w v w1,
    w_heap w !! self = Some s ->
    Forall (fun kv => icon_under b (snd kv)) ret_d ->
    build_services mi self entries ret_d w = (Ok v, w1) ->
    w1 = w
    /\ exists ret_d',
         v = VDict ret_d'
         /\ Forall (fun kv => icon_under b (snd kv)) ret_d'
         /\ (forall k, dict_get ret_d' k <> None <->
                       dict_get ret_d k <> None \/ dict_get entries k <> None).
Proof.
  intros Hb. induction entries as [|[service x] entries IH];
    intros ret_d w v w1 Hs Hall Hrun; cbn [build_services] in Hrun.
  - injection Hrun as <- <-. split; [reflexivity|]. exists ret_d.
    split; [reflexivity|]. split; [exact Hall|]. intros k. simpl. tauto.
  - unfold bind at 1, lift at 1 in Hrun.
    destruct (getindex x 0) as [first|e|]; try discriminate.
    unfold bind at 1, lift at 1 in Hrun.
    destruct (mapping_of first) as [kw|e|]; try discriminate.
    unfold bind at 1, new_model in Hrun.
    destruct (mi "Service" [] kw) as [e|fields]; [discriminate|].
    cbn [ret] in Hrun. unfold bind at 1, get_self in Hrun. rewrite Hs in Hrun.
    unfold bind at 1, lift at 1 in Hrun. cbn [getattr] in Hrun.
    destruct (dict_get fields "icon") as [icon|]; try discriminate.
    unfold bind at 1, lift at 1, base_url_val in Hrun. rewrite Hb in Hrun.
    destruct icon as [| | | |icon| | | | |]; try discriminate.
    cbn [add] in Hrun. unfold bind at 1, lift at 1 in Hrun. cbn [set_icon] in Hrun.
    apply IH in Hrun; [|exact Hs|].
    + destruct Hrun as (Hw & ret_d' & Hv & Hall' & Hdom).
      split; [exact Hw|]. exists ret_d'. split; [exact Hv|]. split; [exact Hall'|].
      intros k. rewrite Hdom, dict_get_set_dom. simpl.
      destruct (String.eqb_spec service k) as [->|Hne].
      * split; [intros _; right; discriminate | intros _; left; now left].
      * split; [intros [[Heq|H]|H]; [congruence | now left | now right]
               | intros [H|H]; [left; now right | now right]].
    + apply (Forall_dict_set (icon_under b)); [exact Hall|].
      exists "Service", (dict_set fields "icon" (VStr (b ++ icon))), icon.
      split; [reflexivity | apply dict_get_set_eq].
Qed.

(** X15: when [get_count_number_list] returns, the session has an address,
    the result has exactly the services of the response, and every object
    in it has its icon put under that address. *)
Theorem X15_icons_under_the_address (E : env)
    (mi : string -> list val -> dict -> exn + dict) (self : nat) (s : Vaksms)
    (country operator rent : val) (w w1 : world) (v : val) :
  w_heap w !! self = Some s ->
  get_count_number_list_body E mi self country operator rent w = (Ok v, w1) ->
  exists b fails rq entries ret_d,
    w_heap w1 !! self = Some (pin s b)
    /\ new_events w w1 = (fails ++ [EvGet rq (Body (VDict entries))])%list
    /\ rq_base rq = b
    /\ v = VDict ret_d
    /\ Forall (fun kv => icon_under b (snd kv)) ret_d
    /\ (forall k, dict_get ret_d k <> None <-> dict_get entries k <> None).
Proof.
  intros Hs Hrun. unfold get_count_number_list_body, bind in Hrun.
  destruct (__create_request E self "/api/getCountNumbersList" _ false w)
    as [[response|e|] w'] eqn:Hreq; try discriminate.
  destruct (create_request_Ok E self s _ _ _ _ _ _ Hs Hreq)
    as (_ & b & fails & Hev & _ & Hh).
  destruct response as [| | | | | | |entries| |]; try discriminate.
  destruct (build_services_icons mi self (pin s b) b entries eq_refl [] w' v w1 Hh
              (List.Forall_nil _) Hrun) as (-> & ret_d & -> & Hall & Hdom).
  exists b, fails, (request_of s b "/api/getCountNumbersList"
                      (Some (dict_set
                               (if truthy operator
                                then dict_set [("country", country)] "operator" operator
                                else [("country", country)])
                               "rent" (rent_param rent)))), entries, ret_d.
  split; [exact Hh|]. split; [exact Hev|]. split; [reflexivity|].
  split; [reflexivity|]. split; [exact Hall|].
  intros k. rewrite Hdom. simpl. tauto.
Qed.

Lemma X15_icons_under_the_address_witness :
  exists b fails rq entries ret_d,
    w_heap (snd (get_count_number_list_body E_services accept_all 0 (VStr "RU")
                   VNone (VBool false) one_session)) !! 0
    = Some (pin {| _api_key := "key"; _base_url := None; _timeout := 10 |} b)
    /\ new_events one_session
         (snd (get_count_number_list_body E_services accept_all 0 (VStr "RU")
                 VNone (VBool false) one_session))
       = (fails ++ [EvGet rq (Body (VDict entries))])%list
    /\ rq_base rq = b
    /\ VDict [("vk", VModel "Service"
                       [("name", VStr "VK");
                        ("icon", VStr "https://vak-sms.com/static/vk.png")])]
       = VDict ret_d
    /\ Forall (fun kv => icon_under b (snd kv)) ret_d
    /\ (forall k, dict_get ret_d k <> None <-> dict_get entries k <> None).
Proof.
  apply (X15_icons_under_the_address E_services accept_all 0
           {| _api_key := "key"; _base_url := None; _timeout := 10 |}
           (VStr "RU") VNone (VBool false) one_session).
  - reflexivity.
  - vm_compute. reflexivity.
Defined.
(** *** The requests of the status transition *)

Lemma count_sends_app evs1 evs2 :
  count_sends (evs1 ++ evs2) = count_sends evs1 + count_sends evs2.
Proof. unfold count_sends. now rewrite List.filter_app, length_app. Qed.

Lemma count_sends_failed_trials s uri params ms :
  count_sends (failed_trials s uri params ms) <= length ms.
Proof.
  induction ms as [|m ms IH]; [reflexivity|].
  change (failed_trials s uri params (m :: ms))
    with ([EvGet (request_of s m uri params) NetFail; EvWarning (warning_text m)]
          ++ failed_trials s uri params ms)%list.
  rewrite count_sends_app. cbn [length].
  assert (H1 : count_sends [EvGet (request_of s m uri params) NetFail;
                            EvWarning (warning_text m)] <= 1).
  { unfold count_sends. cbn [List.filter].
    destruct (is_send (EvGet _ _)); simpl; lia. }
  lia.
Qed.

Ltac count_nil := unfold count_sends, base_urls; simpl; lia.

Lemma count_sends_one e : count_sends [e] <= 1.
Proof. unfold count_sends. simpl. destruct (is_send e); simpl; lia. Qed.

(** A request of the session sends at most one request per candidate, and
    at most one when the session has an address. *)
Lemma create_request_count E self uri params akr w :
  let evs := new_events w (snd (__create_request E self uri params akr w)) in
  count_sends evs <= length base_urls
  /\ forall s b, w_heap w !! self = Some s -> _base_url s = Some b ->
                 count_sends evs <= 1.
Proof.
  intros evs. subst evs.
  destruct (w_heap w !! self) as [s|] eqn:Hs.
  2: { unfold __create_request, bind, get_self. rewrite Hs. simpl.
       rewrite new_events_refl. split; [count_nil | discriminate]. }
  destruct (key_ok s akr) eqn:Hk.
  2: { rewrite (create_request_no_key E self s uri params akr w Hs Hk). simpl.
       rewrite new_events_refl. split; [count_nil | intros; count_nil]. }
  destruct (_base_url s) as [b|] eqn:Hb.
  - rewrite (create_request_pinned E self s b uri params akr w Hs Hb Hk),
      send_request_classify.
    rewrite (new_events_app _ _ [EvGet (request_of s b uri params)
                                   (env_net E (length (w_trace w))
                                      (request_of s b uri params))])
      by reflexivity.
    pose proof (count_sends_one (EvGet (request_of s b uri params)
                                   (env_net E (length (w_trace w))
                                      (request_of s b uri params)))) as H1.
    split; [unfold base_urls; cbn [length]; lia | intros; exact H1].
  - rewrite (create_request_unpinned E self s uri params akr w Hs Hb Hk).
    split; [|intros s' b' Hs' Hb'; congruence].
    destruct (discover_trace E self s uri params Hb base_urls w Hs)
      as [k [(_ & Ht & _) | (b & r & Hkb & Ht & _)]].
    + rewrite (new_events_app _ _ _ Ht). apply count_sends_failed_trials.
    + rewrite (new_events_app _ _ _ Ht), count_sends_app.
      pose proof (count_sends_failed_trials s uri params (take k base_urls)) as Hf.
      pose proof (count_sends_one (EvGet (request_of s b uri params) (Body r))) as H1.
      apply lookup_lt_Some in Hkb.
      rewrite length_take in Hf. lia.
Qed.

Lemma set_status_count E self id w :
  let evs := new_events w (snd (set_status E self id "send" w)) in
  count_sends evs <= length base_urls
  /\ forall s b, w_heap w !! self = Some s -> _base_url s = Some b ->
                 count_sends evs <= 1.
Proof.
  intros evs. subst evs.
  destruct (number_id_of id) as [id2|e|] eqn:Hid2.
  - rewrite (set_status_unfold E self id id2 w Hid2), snd_bind_pure
      by (intros a; apply pure_lift).
    apply create_request_count.
  - rewrite (proj1 (set_status_no_id E self id w ltac:(congruence))).
    rewrite new_events_refl. split; [count_nil | intros; count_nil].
  - rewrite (proj1 (set_status_no_id E self id w ltac:(congruence))).
    rewrite new_events_refl. split; [count_nil | intros; count_nil].
Qed.

Lemma is_send_attempt_is_send number rq o :
  is_send_attempt number (EvGet rq o) -> is_send (EvGet rq o) = true.
Proof.
  intros [Hu (id1 & id2 & key & _ & _ & Hp)]. unfold is_send.
  assert (Hget : dict_get (rq_params rq) "status" = Some (VStr "send")).
  { rewrite Hp. apply dict_get_sent_params; [discriminate | reflexivity | discriminate]. }
  rewrite Hu, Hget. reflexivity.
Qed.

Lemma is_send_attempt_not_wait number e :
  is_send_attempt number e -> is_wait e = false.
Proof.
  destruct e as [rq o|secs|msg]; simpl; [|tauto|reflexivity].
  intros [-> _]. reflexivity.
Qed.

Lemma is_sleep_or_poll_wait e : is_sleep_or_poll e -> is_wait e = true.
Proof.
  destruct e as [rq o|secs|msg]; simpl; [|reflexivity|tauto].
  intros ->. reflexivity.
Qed.

(** The events before the first sleep and poll are those of the status
    transition. *)
Lemma before_wait_split number send_evs loop_evs :
  Forall (is_send_attempt number) send_evs ->
  Forall is_sleep_or_poll loop_evs ->
  before_wait (send_evs ++ loop_evs) = send_evs.
Proof.
  intros Hs Hl. induction Hs as [|e evs He _ IH]; simpl.
  - destruct Hl as [|e evs He _]; [reflexivity|]. simpl.
    now rewrite (is_sleep_or_poll_wait e He).
  - now rewrite (is_send_attempt_not_wait number e He), IH.
Qed.

(** The events of a call of [wait_sms_code]: those of its status
    transition, if the call gets to it, and then those of the loop, if the
    transition returns. *)
Lemma wait_sms_code_events E fuel self number timeout per_attempt w :
  exists send_evs loop_evs,
    new_events w (snd (wait_sms_code E fuel self number timeout per_attempt w))
    = (send_evs ++ loop_evs)%list
    /\ Forall (is_send_attempt number) send_evs
    /\ Forall is_sleep_or_poll loop_evs
    /\ (send_evs = []
        \/ exists id, send_evs = new_events w (snd (set_status E self id "send" w)))
    /\ (loop_evs <> [] ->
        exists fails rq r,
          send_evs = (fails ++ [EvGet rq (Body r)])%list
          /\ Forall failed_attempt fails).
Proof.
  destruct (wait_sms_code_run E fuel self number timeout per_attempt w)
    as [[Hall _] | (s & id & st & w1 & b & send_evs & fails & rq0 & r & Hs & Hkey
                    & Hid & Hset & Hh & Ht & Hall & Hsend & Hf & Hout)].
  - rewrite wait_sms_code_unfold in *.
    destruct (number_id_of number) as [id|e|] eqn:Hid;
      [|exists [], []; simpl; rewrite new_events_refl;
        repeat split; try constructor; try congruence; now left ..].
    destruct (w_heap w !! self) as [s|] eqn:Hs;
      [|exists [], []; simpl; rewrite new_events_refl;
        repeat split; try constructor; try congruence; now left].
    destruct (negb (truthy (VStr (_api_key s)))) eqn:Hk;
      [exists [], []; simpl; rewrite new_events_refl;
       repeat split; try constructor; try congruence; now left|].
    destruct (set_status E self id "send" w) as [[st|e|] w1] eqn:Hset.
    + destruct (set_status_Ok E self s id st w w1 Hs Hset)
        as (Hkey' & b' & fails & rq & r & Hev & Hf & Hh).
      destruct (emits_set_status_send E self number id Hid w) as (se & Ht & Hse).
      rewrite Hset in Ht. simpl in Ht.
      destruct (wait_loop_polls E self (pin s b') b'
                  [("idNum", id); ("all", VStr "None")] (w_now w1) timeout
                  per_attempt eq_refl Hkey' fuel w1 Hh) as (loop_evs & Htl & Hp).
      exists se, loop_evs. split; [|split; [exact Hse|split; [|split]]].
      * apply new_events_app. rewrite Htl, Ht. now rewrite app_assoc.
      * eapply polls_sleep_or_poll; eauto.
      * right. exists id. rewrite Hset. simpl.
        now rewrite (new_events_app _ _ _ Ht).
      * intros _. exists fails, rq, r.
        rewrite (new_events_app _ _ _ Ht) in Hev. now split.
    + simpl in *. exists (new_events w w1), [].
      rewrite app_nil_r. split; [reflexivity|]. split; [exact Hall|].
      split; [constructor|]. split; [right; exists id; now rewrite Hset | congruence].
    + simpl in *. exists (new_events w w1), [].
      rewrite app_nil_r. split; [reflexivity|]. split; [exact Hall|].
      split; [constructor|]. split; [right; exists id; now rewrite Hset | congruence].
  - rewrite Hout.
    destruct (wait_loop_polls E self (pin s b) b
                [("idNum", id); ("all", VStr "None")] (w_now w1) timeout
                per_attempt eq_refl Hkey fuel w1 Hh) as (loop_evs & Htl & Hp).
    exists send_evs, loop_evs. split; [|split; [exact Hall|split; [|split]]].
    + apply new_events_app. rewrite Htl, Ht. now rewrite app_assoc.
    + eapply polls_sleep_or_poll; eauto.
    + right. exists id. rewrite Hset. simpl. symmetry. now apply new_events_app.
    + intros _. now exists fails, rq0, r.
Qed.

(** C8 (amended): the events of a call of [wait_sms_code] before its first
    sleep and its first poll are the events of the one call of
    [set_status] for the status [send]: requests for that status of the
    number, and warnings. They are followed by sleeps and polls only. There
    are at most three such requests, one for each mirror, and at most one
    when the session has an address. When there is a sleep or a poll, the
    last of these requests was answered, the requests before it are trials
    that failed at the network level on other mirrors, and so there is at
    least one. A session with a key starts the call with such a request. *)
Theorem C8_send_transition_before_polling (E : env) (fuel self : nat)
    (number : val) (timeout per_attempt : Z) (w : world) :
  let evs := new_events w
               (snd (wait_sms_code E fuel self number timeout per_attempt w)) in
  (exists loop_evs,
     evs = (before_wait evs ++ loop_evs)%list
     /\ Forall (is_send_attempt number) (before_wait evs)
     /\ Forall is_sleep_or_poll loop_evs
     /\ count_sends (before_wait evs) <= length base_urls
     /\ (forall s b, w_heap w !! self = Some s -> _base_url s = Some b ->
           count_sends (before_wait evs) <= 1)
     /\ (loop_evs <> [] ->
         1 <= count_sends (before_wait evs)
         /\ exists fails rq r,
              before_wait evs = (fails ++ [EvGet rq (Body r)])%list
              /\ Forall failed_attempt fails))
  /\ (forall s id id2,
        w_heap w !! self = Some s -> _api_key s <> "" ->
        number_id_of number = Ok id -> number_id_of id = Ok id2 ->
        exists rq o evs',
          evs = EvGet rq o :: evs' /\ is_send_attempt number (EvGet rq o)).
Proof.
  intros evs. subst evs. split.
  - destruct (wait_sms_code_events E fuel self number timeout per_attempt w)
      as (send_evs & loop_evs & Hev & Hall & Hloop & Hfrom & Hans).
    rewrite Hev, (before_wait_split number send_evs loop_evs Hall Hloop).
    exists loop_evs. split; [reflexivity|]. split; [exact Hall|].
    split; [exact Hloop|].
    assert (Hcount : count_sends send_evs <= length base_urls
                     /\ forall s b, w_heap w !! self = Some s ->
                                    _base_url s = Some b ->
                                    count_sends send_evs <= 1).
    { destruct Hfrom as [-> | [id ->]];
        [split; [count_nil | intros; count_nil] | apply set_status_count]. }
    split; [apply Hcount|]. split; [apply Hcount|].
    intros Hne. destruct (Hans Hne) as (fails & rq & r & -> & Hf).
    split; [|now exists fails, rq, r].
    rewrite count_sends_app. unfold count_sends at 2. cbn [List.filter].
    rewrite (is_send_attempt_is_send number rq (Body r)); [simpl; lia|].
    rewrite List.Forall_forall in Hall. apply Hall.
    apply in_or_app. right. now left.
  - intros s id id2 Hs Hkey Hid Hid2.
    assert (Hk : key_ok s true = true).
    { unfold key_ok. simpl. destruct (_api_key s); [congruence | reflexivity]. }
    destruct (create_request_sends E self s "/api/setStatus"
                (Some [("idNum", id2); ("status", VStr "send")]) true w Hs Hk)
      as (b & o & evs0 & Hev).
    assert (Hw1 : new_events w (snd (set_status E self id "send" w))
                  = EvGet (request_of s b "/api/setStatus"
                             (Some [("idNum", id2); ("status", VStr "send")])) o
                    :: evs0).
    { rewrite (set_status_unfold E self id id2 w Hid2), snd_bind_pure; [exact Hev|].
      intros a. apply pure_lift. }
    assert (Hfirst : is_send_attempt number
              (EvGet (request_of s b "/api/setStatus"
                        (Some [("idNum", id2); ("status", VStr "send")])) o)).
    { simpl. split; [reflexivity|]. now exists id, id2, (_api_key s). }
    rewrite wait_sms_code_unfold, Hid, Hs.
    assert (Hn : negb (truthy (VStr (_api_key s))) = false).
    { simpl. destruct (_api_key s); [congruence | reflexivity]. }
    rewrite Hn.
    destruct (set_status E self id "send" w) as [[st|e|] w1] eqn:Hset;
      simpl in Hw1; try (eexists _, o, evs0; split; [exact Hw1 | exact Hfirst]).
    destruct (set_status_Ok E self s id st w w1 Hs Hset)
      as (Hkey' & b' & _ & _ & _ & _ & _ & Hh).
    destruct (wait_loop_polls E self (pin s b') b'
                [("idNum", id); ("all", VStr "None")] (w_now w1) timeout
                per_attempt eq_refl Hkey' fuel w1 Hh) as (loop_evs & Htl & _).
    eexists _, o, (evs0 ++ loop_evs)%list. split; [|exact Hfirst].
    apply new_events_app. rewrite Htl.
    assert (Ht1 : w_trace w1 = (w_trace w ++ new_events w w1)%list).
    { destruct (emits_set_status_send E self number id Hid w) as (se & Ht & _).
      rewrite Hset in Ht. simpl in Ht. now rewrite (new_events_app _ _ _ Ht). }
    rewrite Ht1, Hw1, <- app_assoc. reflexivity.
Qed.

Lemma C8_send_transition_before_polling_witness :
  exists rq o evs',
    new_events one_session
      (snd (wait_sms_code E_no_code 10 0 (VStr "n1") 5 5 one_session))
    = EvGet rq o :: evs'
    /\ is_send_attempt (VStr "n1") (EvGet rq o).
Proof.
  apply (proj2 (C8_send_transition_before_polling E_no_code 10 0 (VStr "n1") 5 5
                  one_session)
           {| _api_key := "key"; _base_url := None; _timeout := 10 |}
           (VStr "n1") (VStr "n1"));
    [reflexivity | discriminate | reflexivity | reflexivity].
Defined.

(** The run behind the counterexample: the first two mirrors cannot be
    reached, so the status transition makes three requests, two warnings
    are logged, and one sleep and one poll follow. *)
Example wait_sms_code_third_mirror :
  let out := wait_sms_code E_third_mirror 10 0 (VStr "n1") 5 5 one_session in
  let evs := new_events one_session (snd out) in
  fst out = Ok VNone
  /\ List.map (fun e => match e with
                        | EvGet rq NetFail => (rq_base rq ++ rq_uri rq, false)
                        | EvGet rq (Body _) => (rq_base rq ++ rq_uri rq, true)
                        | EvSleep _ => ("sleep", true)
                        | EvWarning _ => ("warning", true)
                        end) evs
     = [("https://vak-sms.com/api/setStatus", false); ("warning", true);
        ("https://moresms.net/api/setStatus", false); ("warning", true);
        ("https://vaksms.ru/api/setStatus", true); ("sleep", true);
        ("https://vaksms.ru/api/getSmsCode/", true)]
  /\ count_sends (before_wait evs) = 3
  /\ count_polls evs = 1.
Proof. vm_compute. repeat split; reflexivity. Qed.

(** C8 as stated fails: in a session without an address whose first two
    mirrors cannot be reached, the call issues three requests for the
    status [send] before its first sleep and its first poll. *)
Lemma C8_counterexample :
  ~ one_send_before_polling E_third_mirror 10 0 (VStr "n1") 5 5 one_session.
Proof.
  unfold one_send_before_polling. vm_compute. discriminate.
Qed.
(** *** The address of a session *)

(** C1 (amended): in a session without an explicit address, when the trials
    on the first [k] candidates fail at the network level and the trial on
    the next candidate [b] is answered: if the answer is a success payload,
    the call returns that payload and [b] becomes the address of the
    session; if the answer is a provider error, the call raises that error
    after the same requests and the session stays without an address. From
    the moment a session has the address [b], every request of it leaves
    the address as it is and makes at most one request, to [b], also when
    that request fails at the network level, which surfaces as
    [ValueError('Invalid Base URL')]. *)
Theorem C1_first_successful_mirror_is_pinned (E : env) (self : nat) (s : Vaksms)
    (uri : string) (params : option dict) (akr : bool) (w : world)
    (k : nat) (b : string) (r : val) :
  w_heap w !! self = Some s ->
  _base_url s = None ->
  key_ok s akr = true ->
  base_urls !! k = Some b ->
  (forall j m, j < k -> base_urls !! j = Some m ->
               trial E w s uri params j m = NetFail) ->
  trial E w s uri params k b = Body r ->
  let out := __create_request E self uri params akr w in
  (is_success_payload r = true ->
   fst out = Ok r
   /\ w_heap (snd out) = <[self := pin s b]> (w_heap w)
   /\ new_events w (snd out) =
        (failed_trials s uri params (take k base_urls)
         ++ [EvGet (request_of s b uri params) (Body r)])%list)
  /\ (is_success_payload r = false ->
      fst out = Raise (VakSmsBadRequest (val_get r "error"))
      /\ w_heap (snd out) = w_heap w
      /\ new_events w (snd out) =
           (failed_trials s uri params (take k base_urls)
            ++ [EvGet (request_of s b uri params) (Body r)])%list)
  /\ forall w' s' uri' params' akr',
       w_heap w' !! self = Some s' -> _base_url s' = Some b ->
       let out' := __create_request E self uri' params' akr' w' in
       w_heap (snd out') = w_heap w'
       /\ (new_events w' (snd out') = []
           \/ exists o,
                new_events w' (snd out') = [EvGet (request_of s' b uri' params') o])
       /\ (forall rq, new_events w' (snd out') = [EvGet rq NetFail] ->
             fst out' = Raise (ValueError "Invalid Base URL")).
Proof.
  intros Hs Hb Hk Hkb Hfail Hans out. subst out.
  rewrite (create_request_unpinned E _ _ _ _ _ _ Hs Hb Hk).
  assert (Hlen : k <= length base_urls)
    by (apply lookup_lt_Some in Hkb; lia).
  destruct (discover_failed_prefix E self s uri params k base_urls w Hlen Hfail)
    as (w1 & Hrun & Hheap & Htrace).
  rewrite Hrun.
  destruct (drop k base_urls) as [|c rest] eqn:Hdrop.
  { apply lookup_lt_Some in Hkb. apply (f_equal length) in Hdrop.
    rewrite length_drop in Hdrop. cbn [length] in Hdrop. lia. }
  assert (c = b) as ->.
  { pose proof (lookup_drop base_urls k 0) as Hl. rewrite Hdrop in Hl.
    rewrite Nat.add_0_r, Hkb in Hl. simpl in Hl. congruence. }
  assert (Hnet : env_net E (length (w_trace w1)) (request_of s b uri params) = Body r).
  { rewrite Htrace, length_app.
    rewrite length_failed_trials, length_take, Nat.min_l by exact Hlen.
    exact Hans. }
  cbn [discover]. rewrite send_request_classify. fold (request_of s b uri params).
  rewrite Hnet. cbn [classify].
  split; [|split].
  - intros Hok. rewrite Hok. unfold bind, set_base_url, ret. simpl.
    rewrite Hheap, Hs. simpl.
    split; [reflexivity|]. split; [reflexivity|].
    apply new_events_app. simpl. rewrite Htrace, <- app_assoc. reflexivity.
  - intros Hno. rewrite Hno. simpl.
    split; [reflexivity|]. split; [exact Hheap|].
    apply new_events_app. simpl. rewrite Htrace, <- app_assoc. reflexivity.
  - intros w' s' uri' params' akr' Hs' Hb'.
    exact (create_request_pinned_frame E self s' b uri' params' akr' w' Hs' Hb').
Qed.

(** A session without an explicit address in which the first mirror answers
    the second interaction: the second mirror is pinned. *)
Lemma C1_first_successful_mirror_is_pinned_witness :
  fst (__create_request E_second_mirror 0 "/api/getBalance" None true one_session)
  = Ok (VDict [("balance", VInt 3)]).
Proof.
  refine (proj1 (proj1 (C1_first_successful_mirror_is_pinned E_second_mirror 0
            {| _api_key := "key"; _base_url := None; _timeout := 10 |}
            "/api/getBalance" None true one_session 1 "https://moresms.net"
            (VDict [("balance", VInt 3)]) _ _ _ _ _ _) eq_refl));
    try reflexivity.
  intros j m Hj Hm. destruct j; [reflexivity | lia].
Defined.

(** C1 as stated fails: the first mirror answers the trial (with a provider
    error), so its trial does not fail at the network level, and yet it is
    not pinned. *)
Lemma C1_counterexample :
  ~ pins_first_reachable E_bad_key one_session 0 "/api/getBalance" None true.
Proof.
  intros H.
  specialize (H {| _api_key := "key"; _base_url := None; _timeout := 10 |}
                0 "https://vak-sms.com" (VDict [("error", VStr "apiKeyNotFound")])
                eq_refl eq_refl).
  assert (Hnone : forall j m, j < 0 -> base_urls !! j = Some m ->
            trial E_bad_key one_session
              {| _api_key := "key"; _base_url := None; _timeout := 10 |}
              "/api/getBalance" None j m = NetFail) by (intros; lia).
  specialize (H Hnone eq_refl). vm_compute in H. discriminate H.
Qed.

